(** * The draw pass and the renderer of mol-canvas3d / mol-gl

    A shallow embedding of [src/mol-canvas3d/passes/draw.ts] (class
    [DrawPass]) and of the renderer created by [Renderer.create]
    (mol-gl/renderer.ts), with the properties their design document
    states about them. *)

From Stdlib Require Import Bool List Ascii String ZArith Lia Floats
  Permutation.
Import ListNotations.
Local Open Scope string_scope.
Local Open Scope list_scope.
Local Open Scope bool_scope.
#[local] Set Warnings "-inexact-float".

(** ** JavaScript numbers

    A JS [number] is an IEEE 754 binary64 value: Rocq's primitive floats.
    [===] on numbers is [PrimFloat.eqb] (so [NaN === NaN] is false and
    [0 === -0] is true), [<] is [PrimFloat.ltb]. *)
Module JsNumber.

Definition number := float.

Definition strict_eq (x y : number) : bool := PrimFloat.eqb x y.
Definition strict_ne (x y : number) : bool := negb (PrimFloat.eqb x y).
Definition lt (x y : number) : bool := PrimFloat.ltb x y.
Definition gt (x y : number) : bool := PrimFloat.ltb y x.

(** [Math.min(x, y)]: NaN if either is NaN, and [-0] counts as smaller
    than [+0]. *)
Definition Math_min (x y : number) : number :=
  if PrimFloat.is_nan x || PrimFloat.is_nan y then PrimFloat.nan
  else if PrimFloat.ltb x y then x
  else if PrimFloat.ltb y x then y
  else if PrimFloat.get_sign x then x else y.

(** [Math.max(x, y)]: NaN if either is NaN, and [+0] counts as larger
    than [-0]. *)
Definition Math_max (x y : number) : number :=
  if PrimFloat.is_nan x || PrimFloat.is_nan y then PrimFloat.nan
  else if PrimFloat.ltb x y then y
  else if PrimFloat.ltb y x then x
  else if PrimFloat.get_sign x then y else x.

(** Modelled from the spec: [clamp] is imported from mol-math/interpolate,
    which lies outside the two files; the design document uses
    [clamp(v, 0, 1)] as the restriction of [v] to the interval, written
    here the way the helper is customarily written,
    [Math.max(min, Math.min(max, value))]. *)
Definition clamp (value min max : number) : number :=
  Math_max min (Math_min max value).

End JsNumber.
Import JsNumber.

(** ** Values produced by helpers from other modules

    mol-math/linear-algebra, mol-util/color and mol-util/value-cell are
    imported by the two files and are not part of them.  Their results are
    kept as terms: a matrix is the expression that computes it, a
    normalised colour is the colour it was computed from.  Nothing in the
    two files inspects such a value; they are stored and handed on. *)
Module Ext.

(** [Color]: a number holding 0xRRGGBB. *)
Definition Color := Z.

Inductive Vec3 : Type :=
| Vec3_create (x y z : number)
| Color_toVec3Normalized (c : Color).

Inductive Rad : Type :=
| degToRad (deg : number).

Inductive Quat : Type :=
| Quat_zero
| Quat_setAxisAngle (axis : Vec3) (angle : Rad).

Inductive Mat4 : Type :=
| Mat4_zero
| Mat4_identity
| Mat4_given (tag : nat)
| Mat4_mul (a b : Mat4)
| Mat4_invert (a : Mat4).

(** A texture handle; [NullTexture] is what [createNullTexture] returns. *)
Inductive Texture : Type :=
| NullTexture
| TextureId (n : nat).

(** Modelled from the spec: [ValueCell] of mol-util lies outside the
    two files.  The design document describes the global uniform state as
    "typed slots updated via explicit changed comparisons": a slot holds a
    value and a version that every update bumps; [updateIfChanged] updates
    only when the new value is [!==] the held one. *)
Record ValueCell (A : Type) : Type := mkCell {
  cell_value : A;
  cell_version : nat
}.
Arguments mkCell {A} _ _.
Arguments cell_value {A} _.
Arguments cell_version {A} _.

Definition ValueCell_create {A} (v : A) : ValueCell A := mkCell v 0.

Definition ValueCell_update {A} (c : ValueCell A) (v : A) : ValueCell A :=
  mkCell v (S (cell_version c)).

Definition ValueCell_updateIfChanged {A} (ne : A -> A -> bool)
    (c : ValueCell A) (v : A) : ValueCell A :=
  if ne (cell_value c) v then ValueCell_update c v else c.

Record Viewport : Type := mkViewport {
  vp_x : Z; vp_y : Z; vp_width : Z; vp_height : Z
}.

End Ext.
Import Ext.

(** ** Drawables (mol-gl/renderable, read through the fields the two
    files touch) *)
Module Renderable.

(** [r.state] *)
Record RenderableState : Type := mkState {
  visible : bool;
  pickable : bool;
  colorOnly : bool;
  opaque : bool;
  writeDepth : bool;
  noClip : bool;
  alphaFactor : number
}.

(** [r.values]: each field is the [.ref.value] of the value cell of that
    name; an optional cell ([r.values.dRenderMode?]) is an [option].  The
    two clip defines are the cells [renderObject] writes. *)
Record RenderableValues : Type := mkValues {
  alpha : number;
  uAlpha : number;
  transparencyAverage : number;
  dRenderMode : option string;
  dPointFilledCircle : option bool;
  dXrayShaded : option bool;
  uBackgroundColor : option Vec3;
  dDoubleSided : option bool;
  dFlipSided : option bool;
  hasReflection : bool;
  dClipObjectCount : ValueCell nat;
  dClipVariant : ValueCell string
}.

(** A drawable.  [getProgram] gives the id of the program compiled for a
    render variant under the drawable's current clip defines (object
    count, clip variant): [r.update()] relinks when a define changed. *)
Record GraphicsRenderable : Type := mkRenderable {
  id : nat;
  state : RenderableState;
  values : RenderableValues;
  getProgram : nat -> string -> string -> Z
}.

Definition with_values (r : GraphicsRenderable) (v : RenderableValues)
    : GraphicsRenderable :=
  mkRenderable (id r) (state r) v (getProgram r).

Definition with_dClipObjectCount (v : RenderableValues) (c : ValueCell nat)
    : RenderableValues :=
  mkValues (alpha v) (uAlpha v) (transparencyAverage v) (dRenderMode v)
    (dPointFilledCircle v) (dXrayShaded v) (uBackgroundColor v)
    (dDoubleSided v) (dFlipSided v) (hasReflection v) c (dClipVariant v).

Definition with_dClipVariant (v : RenderableValues) (c : ValueCell string)
    : RenderableValues :=
  mkValues (alpha v) (uAlpha v) (transparencyAverage v) (dRenderMode v)
    (dPointFilledCircle v) (dXrayShaded v) (uBackgroundColor v)
    (dDoubleSided v) (dFlipSided v) (hasReflection v) (dClipObjectCount v) c.

(** The program [r.getProgram(variant)] returns, by id. *)
Definition programOf (r : GraphicsRenderable) (variant : string) : Z :=
  getProgram r (cell_value (dClipObjectCount (values r)))
    (cell_value (dClipVariant (values r))) variant.

(** [Scene.Group]: a model transform and the drawables, in draw order. *)
Record Group : Type := mkGroup {
  view : Mat4;
  renderables : list GraphicsRenderable
}.

(** [ICamera], the fields read here. *)
Record ICamera : Type := mkCamera {
  cam_view : Mat4;
  cam_projection : Mat4;
  cam_viewport : Viewport
}.

End Renderable.
Import Renderable.

(** ** Renderer configuration ([RendererParams], [getStyle], [getClip]) *)
Module Config.

(** The five numbers a lighting style stands for. *)
Record Style : Type := mkStyle {
  lightIntensity : number;
  ambientIntensity : number;
  metalness : number;
  roughness : number;
  reflectivity : number
}.

(** [RendererProps['style']]: a [PD.MappedStatic], the name and, for
    [custom], its parameter group. *)
Inductive StyleProps : Type :=
| custom (params : Style)
| flat
| matte
| glossy
| metallic
| plastic.

Definition getStyle (props : StyleProps) : Style :=
  match props with
  | custom params => params
  | flat => (mkStyle 0 1 0 0.4 0.5)%float
  | matte => (mkStyle 0.6 0.4 0 1 0.5)%float
  | glossy => (mkStyle 0.6 0.4 0 0.4 0.5)%float
  | metallic => (mkStyle 0.6 0.4 0.4 0.6 0.5)%float
  | plastic => (mkStyle 0.6 0.4 0 0.2 0.5)%float
  end.

Record Rotation : Type := mkRotation {
  axis : Vec3;
  angle : number
}.

(** One entry of [props.clip.objects]. *)
Record ClipObjectProps : Type := mkClipObjectProps {
  type : string;
  position : Vec3;
  rotation : Rotation;
  scale : Vec3
}.

(** [RendererProps['clip']] *)
Record ClipProps : Type := mkClipProps {
  variant : string;
  objects : list ClipObjectProps
}.

(** An entry of the [type] array: the fill value or the code
    [Clipping.Type[name]] of an enum that is declared in mol-theme. *)
Inductive ClipTypeCode : Type :=
| ClipTypeCode_number (n : number)
| Clipping_Type (name : string).

(** [Clip['objects']].  The arrays are kept slot by slot: slot [i] of
    [position] stands for the entries [3i .. 3i+2] of the flat number
    array, slot [i] of [rotation] for [4i .. 4i+3]. *)
Record ClipObjects : Type := mkClipObjects {
  count : nat;
  clip_type : list ClipTypeCode;
  clip_position : list Vec3;
  clip_rotation : list Quat;
  clip_scale : list Vec3
}.

Record Clip : Type := mkClip {
  clip_variant : string;
  clip_objects : ClipObjects
}.

(** [a[i] = v] on a JS array: in range it replaces, at the end it appends,
    beyond the end it leaves holes, filled here with [hole]. *)
Fixpoint array_set {A} (hole : A) (a : list A) (i : nat) (v : A) : list A :=
  match i, a with
  | O, [] => [v]
  | O, _ :: a' => v :: a'
  | S i', [] => hole :: array_set hole [] i' v
  | S i', x :: a' => x :: array_set hole a' i' v
  end.

(** The arrays of a first call: [(new Array(5)).fill(1)] and the like. *)
Definition freshClipObjects : ClipObjects :=
  mkClipObjects 0
    (repeat (ClipTypeCode_number 1%float) 5)
    (repeat (Vec3_create 0 0 0)%float 5)
    (repeat Quat_zero 5)
    (repeat (Vec3_create 1 1 1)%float 5).

(** The body of the [for] loop of [getClip], from index [i] on. *)
Fixpoint getClip_loop (objs : list ClipObjectProps) (i : nat)
    (o : ClipObjects) : ClipObjects :=
  match objs with
  | [] => o
  | p :: rest =>
      getClip_loop rest (S i)
        (mkClipObjects (count o)
          (array_set (ClipTypeCode_number PrimFloat.nan) (clip_type o) i
             (Clipping_Type (type p)))
          (array_set (Vec3_create PrimFloat.nan PrimFloat.nan PrimFloat.nan)
             (clip_position o) i (position p))
          (array_set Quat_zero (clip_rotation o) i
             (Quat_setAxisAngle (axis (rotation p))
                (degToRad (angle (rotation p)))))
          (array_set (Vec3_create PrimFloat.nan PrimFloat.nan PrimFloat.nan)
             (clip_scale o) i (scale p)))
  end.

(** [getClip(props, clip?)]: the arrays of [clip] are reused when it is
    given, and the count is the number of configured objects. *)
Definition getClip (props : ClipProps) (clip : option Clip) : Clip :=
  let arrays :=
    match clip with
    | Some c => clip_objects c
    | None => freshClipObjects
    end in
  let filled := getClip_loop (objects props) 0 arrays in
  mkClip (variant props)
    (mkClipObjects (List.length (objects props)) (clip_type filled)
       (clip_position filled) (clip_rotation filled) (clip_scale filled)).

(** [RendererProps] *)
Record RendererProps : Type := mkProps {
  backgroundColor : Color;
  pickingAlphaThreshold : number;
  interiorDarkening : number;
  interiorColorFlag : bool;
  interiorColor : Color;
  highlightColor : Color;
  selectColor : Color;
  style : StyleProps;
  clip : ClipProps
}.

(** [Partial<RendererProps>]: [None] is a field that is [undefined]. *)
Record PartialProps : Type := mkPartial {
  backgroundColor_opt : option Color;
  pickingAlphaThreshold_opt : option number;
  interiorDarkening_opt : option number;
  interiorColorFlag_opt : option bool;
  interiorColor_opt : option Color;
  highlightColor_opt : option Color;
  selectColor_opt : option Color;
  style_opt : option StyleProps;
  clip_opt : option ClipProps
}.

Definition noProps : PartialProps :=
  mkPartial None None None None None None None None None.

End Config.
Import Config.

(** ** The renderer ([Renderer.create] and the closures it returns) *)
Module Renderer.

(** *** What the renderer does to its collaborators

    Calls on the WebGL state cache ([state.enable] ...), on [gl], on a
    program and on a drawable are recorded, in order, as a trace. *)
Inductive Capability : Type := BLEND | DEPTH_TEST | CULL_FACE | SCISSOR_TEST.
Inductive Winding : Type := CW | CCW.
Inductive Face : Type := FRONT | BACK.
Inductive BlendFactor : Type := ONE | SRC_ALPHA | ONE_MINUS_SRC_ALPHA.

Inductive Event : Type :=
| state_enable (cap : Capability)
| state_disable (cap : Capability)
| state_depthMask (flag : bool)
| state_frontFace (mode : Winding)
| state_cullFace (mode : Face)
| state_blendFunc (src dst : BlendFactor)
| state_blendFuncSeparate (srcRGB dstRGB srcAlpha dstAlpha : BlendFactor)
| state_colorMask (red green blue alpha : bool)
| state_clearColor (red green blue alpha : number)
| gl_clear (colorBuffer depthBuffer : bool)
| gl_flush
| gl_viewport (v : Viewport)
| gl_scissor (v : Viewport)
(** [renderObject(r, variant)] is entered *)
| renderObject_call (r : GraphicsRenderable) (variant : string)
(** [r.update()] *)
| renderable_update (r : GraphicsRenderable)
(** [program.use()] *)
| program_use (program : Z)
(** [program.setUniforms(globalUniformList)] *)
| program_setUniforms (program : Z)
(** [r.render(variant, sharedTexturesList)] *)
| renderable_render (r : GraphicsRenderable) (variant : string)
    (textures : list (string * Texture)).

(** *** Global uniforms: the object [globalUniforms], name to value cell *)
Inductive UniformValue : Type :=
| U_mat4 (m : Mat4)
| U_vec3 (v : Vec3)
| U_vec2 (x y : number)
| U_number (x : number)
| U_boolean (b : bool)
| U_size (width height : Z)
| U_int (n : Z)
| U_viewport (v : Viewport)
| U_clipTypes (a : list ClipTypeCode)
| U_vec3s (a : list Vec3)
| U_quats (a : list Quat).

Definition GlobalUniformValues := list (string * ValueCell UniformValue).

Fixpoint cell_modify (name : string)
    (f : ValueCell UniformValue -> ValueCell UniformValue)
    (g : GlobalUniformValues) : GlobalUniformValues :=
  match g with
  | [] => []
  | (k, c) :: g' =>
      if String.eqb k name then (k, f c) :: g'
      else (k, c) :: cell_modify name f g'
  end.

Fixpoint cell_of (name : string) (g : GlobalUniformValues)
    : option (ValueCell UniformValue) :=
  match g with
  | [] => None
  | (k, c) :: g' => if String.eqb k name then Some c else cell_of name g'
  end.

(** [ValueCell.update(globalUniforms.name, v)] *)
Definition uniform_update (name : string) (v : UniformValue)
    (g : GlobalUniformValues) : GlobalUniformValues :=
  cell_modify name (fun c => ValueCell_update c v) g.

(** [!==] between the held value and a number or a boolean. *)
Definition differs (held new : UniformValue) : bool :=
  match held, new with
  | U_number x, U_number y => strict_ne x y
  | U_boolean a, U_boolean b => negb (Bool.eqb a b)
  | _, _ => true
  end.

(** [ValueCell.updateIfChanged(globalUniforms.name, v)] *)
Definition uniform_updateIfChanged (name : string) (v : UniformValue)
    (g : GlobalUniformValues) : GlobalUniformValues :=
  cell_modify name (fun c => ValueCell_updateIfChanged differs c v) g.

(** Modelled from the spec: [arrayMapUpsert] of mol-util/array is not part
    of the two files; it sets the entry of a key in a list of pairs and
    adds the entry when the key is new. *)
Fixpoint arrayMapUpsert {V} (xs : list (string * V)) (key : string) (value : V)
    : list (string * V) :=
  match xs with
  | [] => [(key, value)]
  | (k, v) :: xs' =>
      if String.eqb k key then (k, value) :: xs'
      else (k, v) :: arrayMapUpsert xs' key value
  end.

(** *** The variables the closures share *)
Record Ctx : Type := mkCtx {
  (** [ctx.extensions.fragDepth] *)
  fragDepth : bool;
  p : RendererProps;
  style : Style;
  clip : Clip;
  viewport : Viewport;
  bgColor : Vec3;
  transparentBackground : bool;
  sharedTexturesList : list (string * Texture);
  globalUniforms : GlobalUniformValues;
  globalUniformsNeedUpdate : bool;
  (** [state.currentProgramId], [state.currentRenderItemId] *)
  currentProgramId : Z;
  currentRenderItemId : Z
}.

Definition set_p (c : Ctx) (v : RendererProps) : Ctx :=
  mkCtx (fragDepth c) v (style c) (clip c) (viewport c) (bgColor c)
    (transparentBackground c) (sharedTexturesList c) (globalUniforms c)
    (globalUniformsNeedUpdate c) (currentProgramId c) (currentRenderItemId c).
Definition set_style (c : Ctx) (v : Style) : Ctx :=
  mkCtx (fragDepth c) (p c) v (clip c) (viewport c) (bgColor c)
    (transparentBackground c) (sharedTexturesList c) (globalUniforms c)
    (globalUniformsNeedUpdate c) (currentProgramId c) (currentRenderItemId c).
Definition set_clip (c : Ctx) (v : Clip) : Ctx :=
  mkCtx (fragDepth c) (p c) (style c) v (viewport c) (bgColor c)
    (transparentBackground c) (sharedTexturesList c) (globalUniforms c)
    (globalUniformsNeedUpdate c) (currentProgramId c) (currentRenderItemId c).
Definition set_viewport (c : Ctx) (v : Viewport) : Ctx :=
  mkCtx (fragDepth c) (p c) (style c) (clip c) v (bgColor c)
    (transparentBackground c) (sharedTexturesList c) (globalUniforms c)
    (globalUniformsNeedUpdate c) (currentProgramId c) (currentRenderItemId c).
Definition set_bgColor (c : Ctx) (v : Vec3) : Ctx :=
  mkCtx (fragDepth c) (p c) (style c) (clip c) (viewport c) v
    (transparentBackground c) (sharedTexturesList c) (globalUniforms c)
    (globalUniformsNeedUpdate c) (currentProgramId c) (currentRenderItemId c).
Definition set_transparentBackground (c : Ctx) (v : bool) : Ctx :=
  mkCtx (fragDepth c) (p c) (style c) (clip c) (viewport c) (bgColor c)
    v (sharedTexturesList c) (globalUniforms c)
    (globalUniformsNeedUpdate c) (currentProgramId c) (currentRenderItemId c).
Definition set_sharedTexturesList (c : Ctx) (v : list (string * Texture)) : Ctx :=
  mkCtx (fragDepth c) (p c) (style c) (clip c) (viewport c) (bgColor c)
    (transparentBackground c) v (globalUniforms c)
    (globalUniformsNeedUpdate c) (currentProgramId c) (currentRenderItemId c).
Definition set_globalUniforms (c : Ctx) (v : GlobalUniformValues) : Ctx :=
  mkCtx (fragDepth c) (p c) (style c) (clip c) (viewport c) (bgColor c)
    (transparentBackground c) (sharedTexturesList c) v
    (globalUniformsNeedUpdate c) (currentProgramId c) (currentRenderItemId c).
Definition set_globalUniformsNeedUpdate (c : Ctx) (v : bool) : Ctx :=
  mkCtx (fragDepth c) (p c) (style c) (clip c) (viewport c) (bgColor c)
    (transparentBackground c) (sharedTexturesList c) (globalUniforms c)
    v (currentProgramId c) (currentRenderItemId c).
Definition set_currentProgramId (c : Ctx) (v : Z) : Ctx :=
  mkCtx (fragDepth c) (p c) (style c) (clip c) (viewport c) (bgColor c)
    (transparentBackground c) (sharedTexturesList c) (globalUniforms c)
    (globalUniformsNeedUpdate c) v (currentRenderItemId c).
Definition set_currentRenderItemId (c : Ctx) (v : Z) : Ctx :=
  mkCtx (fragDepth c) (p c) (style c) (clip c) (viewport c) (bgColor c)
    (transparentBackground c) (sharedTexturesList c) (globalUniforms c)
    (globalUniformsNeedUpdate c) (currentProgramId c) v.

(** *** Commands: the shared variables are threaded through, the calls
    on the collaborators are collected *)
Definition M (A : Type) : Type := Ctx -> A * Ctx * list Event.

Definition ret {A} (a : A) : M A := fun c => (a, c, []).

Definition bind {A B} (m : M A) (k : A -> M B) : M B :=
  fun c =>
    let '(a, c1, t1) := m c in
    let '(b, c2, t2) := k a c1 in
    (b, c2, t1 ++ t2).

Definition emit (e : Event) : M unit := fun c => (tt, c, [e]).
Definition gets {A} (f : Ctx -> A) : M A := fun c => (f c, c, []).
Definition modify (f : Ctx -> Ctx) : M unit := fun c => (tt, f c, []).

Notation "x <- m ;; k" := (bind m (fun x => k))
  (at level 61, m at next level, right associativity).
Notation "m ;; k" := (bind m (fun _ => k))
  (at level 61, right associativity).

Definition result {A} (r : A * Ctx * list Event) : A := fst (fst r).
Definition final {A} (r : A * Ctx * list Event) : Ctx := snd (fst r).
Definition trace {A} (r : A * Ctx * list Event) : list Event := snd r.

(** [Renderer.create(ctx, props)].  [p] is the merged configuration
    [PD.merge(RendererParams, PD.getDefaultValues(RendererParams), props)];
    the viewport starts empty and no program is bound. *)
Definition create (ctx_fragDepth : bool) (pixelRatio : number)
    (drawingBufferWidth drawingBufferHeight : Z) (p : RendererProps) : Ctx :=
  let style := getStyle (Config.style p) in
  let clip := getClip (Config.clip p) None in
  let viewport := mkViewport 0 0 0 0 in
  let bgColor := Color_toVec3Normalized (backgroundColor p) in
  let cell v := ValueCell_create v in
  mkCtx ctx_fragDepth p style clip viewport bgColor false
    [("tDepth", NullTexture)]
    [ ("uModel", cell (U_mat4 Mat4_identity));
      ("uView", cell (U_mat4 Mat4_zero));
      ("uInvView", cell (U_mat4 Mat4_zero));
      ("uModelView", cell (U_mat4 Mat4_zero));
      ("uInvModelView", cell (U_mat4 Mat4_zero));
      ("uInvProjection", cell (U_mat4 Mat4_zero));
      ("uProjection", cell (U_mat4 Mat4_zero));
      ("uModelViewProjection", cell (U_mat4 Mat4_zero));
      ("uInvModelViewProjection", cell (U_mat4 Mat4_zero));
      ("uIsOrtho", cell (U_number 1));
      ("uViewOffset", cell (U_vec2 0 0));
      ("uPixelRatio", cell (U_number pixelRatio));
      ("uViewportHeight", cell (U_int (vp_height viewport)));
      ("uViewport", cell (U_viewport viewport));
      ("uDrawingBufferSize", cell (U_size drawingBufferWidth drawingBufferHeight));
      ("uCameraPosition", cell (U_vec3 (Vec3_create 0 0 0)));
      ("uCameraDir", cell (U_vec3 (Vec3_create 0 0 0)));
      ("uNear", cell (U_number 1));
      ("uFar", cell (U_number 10000));
      ("uFogNear", cell (U_number 1));
      ("uFogFar", cell (U_number 10000));
      ("uFogColor", cell (U_vec3 bgColor));
      ("uRenderWboit", cell (U_boolean false));
      ("uTransparentBackground", cell (U_boolean false));
      ("uClipObjectType", cell (U_clipTypes (clip_type (clip_objects clip))));
      ("uClipObjectPosition", cell (U_vec3s (clip_position (clip_objects clip))));
      ("uClipObjectRotation", cell (U_quats (clip_rotation (clip_objects clip))));
      ("uClipObjectScale", cell (U_vec3s (clip_scale (clip_objects clip))));
      ("uLightIntensity", cell (U_number (lightIntensity style)));
      ("uAmbientIntensity", cell (U_number (ambientIntensity style)));
      ("uMetalness", cell (U_number (metalness style)));
      ("uRoughness", cell (U_number (roughness style)));
      ("uReflectivity", cell (U_number (reflectivity style)));
      ("uPickingAlphaThreshold", cell (U_number (pickingAlphaThreshold p)));
      ("uInteriorDarkening", cell (U_number (interiorDarkening p)));
      ("uInteriorColorFlag", cell (U_boolean (interiorColorFlag p)));
      ("uInteriorColor", cell (U_vec3 (Color_toVec3Normalized (interiorColor p))));
      ("uHighlightColor", cell (U_vec3 (Color_toVec3Normalized (highlightColor p))));
      ("uSelectColor", cell (U_vec3 (Color_toVec3Normalized (selectColor p)))) ]%float
    true (-1) (-1).

(** [variant[0] === 'p'] *)
Definition startsWith_p (variant : string) : bool :=
  match variant with
  | String c _ => Ascii.eqb c "p"%char
  | EmptyString => false
  end.

(** [ValueCell.update(r.values.dClipObjectCount, n)] and
    [ValueCell.update(r.values.dClipVariant, s)] *)
Definition update_dClipObjectCount (r : GraphicsRenderable) (n : nat)
    : GraphicsRenderable :=
  with_values r
    (with_dClipObjectCount (values r)
       (ValueCell_update (dClipObjectCount (values r)) n)).

Definition update_dClipVariant (r : GraphicsRenderable) (s : string)
    : GraphicsRenderable :=
  with_values r
    (with_dClipVariant (values r)
       (ValueCell_update (dClipVariant (values r)) s)).

(** The clip defines of [r] brought in line with the current clip
    settings; the flag is [definesNeedUpdate]. *)
Definition resolveClipDefines (clip : Clip) (r : GraphicsRenderable)
    : GraphicsRenderable * bool :=
  if noClip (state r) then
    if negb (Nat.eqb (cell_value (dClipObjectCount (values r))) 0)
    then (update_dClipObjectCount r 0, true)
    else (r, false)
  else
    let '(r1, n1) :=
      if negb (Nat.eqb (cell_value (dClipObjectCount (values r)))
                 (count (clip_objects clip)))
      then (update_dClipObjectCount r (count (clip_objects clip)), true)
      else (r, false) in
    if negb (String.eqb (cell_value (dClipVariant (values r1)))
               (clip_variant clip))
    then (update_dClipVariant r1 (clip_variant clip), true)
    else (r1, n1).

(** The culling, winding and depth state [renderObject] sets before the
    draw call. *)
Definition drawState (fragDepth : bool) (r : GraphicsRenderable)
    (variant : string) : list Event :=
  let v := values r in
  match dRenderMode v with
  | Some mode =>
      [state_disable CULL_FACE; state_frontFace CCW] ++
      (if String.eqb variant "colorBlended" then
         if String.eqb mode "volume" || negb fragDepth
         then [state_disable DEPTH_TEST; state_depthMask false]
         else [state_enable DEPTH_TEST;
               state_depthMask (strict_eq (uAlpha v) 1%float)]
       else [])
  | None =>
      (match dDoubleSided v with
       | Some doubleSided =>
           if doubleSided || hasReflection v
           then [state_disable CULL_FACE]
           else [state_enable CULL_FACE]
       | None => [state_disable CULL_FACE]
       end) ++
      (match dFlipSided v with
       | Some true => [state_frontFace CW; state_cullFace FRONT]
       | Some false => [state_frontFace CCW; state_cullFace BACK]
       | None => [state_frontFace CCW; state_cullFace BACK]
       end)
  end.

Fixpoint emits (es : list Event) : M unit :=
  match es with
  | [] => ret tt
  | e :: es' => emit e ;; emits es'
  end.

(** [renderObject(r, variant)].  The drawable comes back as the call left
    it (its clip defines may have been rewritten).
    Modelled from the spec: [program.use()] belongs to mol-gl/webgl, which
    is not part of the two files; it binds the program and, as the design
    document says, the last-bound program id is tracked in the execution
    context, so [state.currentProgramId] becomes the program's id.  The
    draw call [r.render] uses the program bound here and leaves that id
    alone. *)
Definition renderObject (r : GraphicsRenderable) (variant : string)
    : M GraphicsRenderable :=
  emit (renderObject_call r variant) ;;
  if negb (visible (state r))
     || (negb (pickable (state r)) && startsWith_p variant)
  then ret r
  else
    clip <- gets clip ;;
    let '(r', definesNeedUpdate) := resolveClipDefines clip r in
    (if definesNeedUpdate then emit (renderable_update r') else ret tt) ;;
    let program := programOf r' variant in
    current <- gets currentProgramId ;;
    (if negb (Z.eqb current program) then
       modify (fun c => set_globalUniformsNeedUpdate c true) ;;
       emit (program_use program) ;;
       modify (fun c => set_currentProgramId c program)
     else ret tt) ;;
    needUpdate <- gets globalUniformsNeedUpdate ;;
    (if needUpdate then
       emit (program_setUniforms program) ;;
       modify (fun c => set_globalUniformsNeedUpdate c false)
     else ret tt) ;;
    fd <- gets fragDepth ;;
    emits (drawState fd r' variant) ;;
    textures <- gets sharedTexturesList ;;
    emit (renderable_render r' variant textures) ;;
    ret r'.

(** [updateInternal(group, camera, depthTexture, renderWboit)].  The
    matrices [modelView], [invModelView], [modelViewProjection] and
    [invModelViewProjection] are the very objects held by the cells of
    those names, so writing the cell is writing the variable. *)
Definition updateInternal (group : Group) (camera : ICamera)
    (depthTexture : option Texture) (renderWboit : bool) : M unit :=
  modify (fun c =>
    set_sharedTexturesList c
      (arrayMapUpsert (sharedTexturesList c) "tDepth"
         (match depthTexture with Some t => t | None => NullTexture end))) ;;
  let modelView := Mat4_mul (view group) (cam_view camera) in
  let modelViewProjection := Mat4_mul modelView (cam_projection camera) in
  modify (fun c =>
    set_globalUniforms c
      (uniform_updateIfChanged "uRenderWboit" (U_boolean renderWboit)
        (uniform_update "uInvModelViewProjection"
           (U_mat4 (Mat4_invert modelViewProjection))
        (uniform_update "uModelViewProjection" (U_mat4 modelViewProjection)
        (uniform_update "uInvModelView" (U_mat4 (Mat4_invert modelView))
        (uniform_update "uModelView" (U_mat4 modelView)
        (uniform_update "uModel" (U_mat4 (view group))
           (globalUniforms c)))))))) ;;
  emit (state_enable SCISSOR_TEST) ;;
  emit (state_colorMask true true true true) ;;
  v <- gets viewport ;;
  emit (gl_viewport v) ;;
  emit (gl_scissor v) ;;
  modify (fun c => set_globalUniformsNeedUpdate c true) ;;
  modify (fun c => set_currentRenderItemId c (-1)).

(** [for (let i = 0, il = renderables.length; i < il; ++i) { ... }]: the
    body runs on the drawables in index order. *)
Fixpoint forEach (body : GraphicsRenderable -> M GraphicsRenderable)
    (rs : list GraphicsRenderable) : M (list GraphicsRenderable) :=
  match rs with
  | [] => ret []
  | r :: rest =>
      r' <- body r ;;
      rest' <- forEach body rest ;;
      ret (r' :: rest')
  end.

(** The loop of every pass: [if (cond(r)) renderObject(r, variant)]. *)
Definition renderLoop (cond : GraphicsRenderable -> bool) (variant : string)
    (rs : list GraphicsRenderable) : M (list GraphicsRenderable) :=
  forEach (fun r => if cond r then renderObject r variant else ret r) rs.

Definition renderPick (group : Group) (camera : ICamera) (variant : string)
    (depthTexture : option Texture) : M Group :=
  emit (state_disable BLEND) ;;
  emit (state_enable DEPTH_TEST) ;;
  emit (state_depthMask true) ;;
  updateInternal group camera depthTexture false ;;
  rs <- renderLoop (fun r => negb (colorOnly (state r))) variant
          (renderables group) ;;
  ret (mkGroup (view group) rs).

Definition renderDepth (group : Group) (camera : ICamera)
    (depthTexture : option Texture) : M Group :=
  emit (state_disable BLEND) ;;
  emit (state_enable DEPTH_TEST) ;;
  emit (state_depthMask true) ;;
  updateInternal group camera depthTexture false ;;
  rs <- renderLoop (fun _ => true) "depth" (renderables group) ;;
  ret (mkGroup (view group) rs).

Definition renderBlendedOpaque (group : Group) (camera : ICamera)
    (depthTexture : option Texture) : M Group :=
  emit (state_disable BLEND) ;;
  emit (state_enable DEPTH_TEST) ;;
  emit (state_depthMask true) ;;
  updateInternal group camera depthTexture false ;;
  rs <- renderLoop (fun r => opaque (state r)) "colorBlended"
          (renderables group) ;;
  ret (mkGroup (view group) rs).

Definition renderBlendedTransparent (group : Group) (camera : ICamera)
    (depthTexture : option Texture) : M Group :=
  emit (state_enable DEPTH_TEST) ;;
  updateInternal group camera depthTexture false ;;
  tb <- gets transparentBackground ;;
  (if tb then emit (state_blendFunc ONE ONE_MINUS_SRC_ALPHA)
   else emit (state_blendFuncSeparate SRC_ALPHA ONE_MINUS_SRC_ALPHA
                ONE ONE_MINUS_SRC_ALPHA)) ;;
  emit (state_enable BLEND) ;;
  emit (state_depthMask true) ;;
  rs1 <- renderLoop
           (fun r => negb (opaque (state r)) && writeDepth (state r))
           "colorBlended" (renderables group) ;;
  emit (state_depthMask false) ;;
  rs2 <- renderLoop
           (fun r => negb (opaque (state r)) && negb (writeDepth (state r)))
           "colorBlended" rs1 ;;
  ret (mkGroup (view group) rs2).

Definition renderBlended (group : Group) (camera : ICamera)
    (depthTexture : option Texture) : M Group :=
  g1 <- renderBlendedOpaque group camera depthTexture ;;
  renderBlendedTransparent g1 camera depthTexture.

Definition renderBlendedVolume (group : Group) (camera : ICamera)
    (depthTexture : option Texture) : M Group :=
  emit (state_blendFunc ONE ONE_MINUS_SRC_ALPHA) ;;
  emit (state_enable BLEND) ;;
  updateInternal group camera depthTexture false ;;
  rs <- renderLoop (fun _ => true) "colorBlended" (renderables group) ;;
  ret (mkGroup (view group) rs).

(** [cell?.ref.value] of an optional boolean cell, read as a condition. *)
Definition truthy (cell : option bool) : bool :=
  match cell with
  | Some b => b
  | None => false
  end.

(** [r.values.dRenderMode?.ref.value === 'volume'] *)
Definition isVolume (r : GraphicsRenderable) : bool :=
  match dRenderMode (values r) with
  | Some mode => String.eqb mode "volume"
  | None => false
  end.

(** [!!r.values.uBackgroundColor] *)
Definition hasBackgroundColor (r : GraphicsRenderable) : bool :=
  match uBackgroundColor (values r) with
  | Some _ => true
  | None => false
  end.

(** [clamp(r.values.alpha.ref.value * r.state.alphaFactor, 0, 1)] *)
Definition wboitAlpha (r : GraphicsRenderable) : number :=
  clamp (PrimFloat.mul (alpha (values r)) (alphaFactor (state r))) 0%float 1%float.

(** The condition of the loop of [renderWboitOpaque]. *)
Definition isWboitOpaque (r : GraphicsRenderable) : bool :=
  strict_eq (wboitAlpha r) 1%float
  && strict_ne (transparencyAverage (values r)) 1%float
  && negb (isVolume r)
  && negb (truthy (dPointFilledCircle (values r)))
  && negb (truthy (dXrayShaded (values r))).

(** The condition of the loop of [renderWboitTransparent]. *)
Definition isWboitTransparent (r : GraphicsRenderable) : bool :=
  lt (wboitAlpha r) 1%float
  || gt (transparencyAverage (values r)) 0%float
  || isVolume r
  || truthy (dPointFilledCircle (values r))
  || hasBackgroundColor r
  || truthy (dXrayShaded (values r)).

Definition renderWboitOpaque (group : Group) (camera : ICamera)
    (depthTexture : option Texture) : M Group :=
  emit (state_disable BLEND) ;;
  emit (state_enable DEPTH_TEST) ;;
  emit (state_depthMask true) ;;
  updateInternal group camera depthTexture false ;;
  rs <- renderLoop isWboitOpaque "colorWboit" (renderables group) ;;
  ret (mkGroup (view group) rs).

Definition renderWboitTransparent (group : Group) (camera : ICamera)
    (depthTexture : option Texture) : M Group :=
  updateInternal group camera depthTexture true ;;
  rs <- renderLoop isWboitTransparent "colorWboit" (renderables group) ;;
  ret (mkGroup (view group) rs).

(** *** Configuration: [setProps], [props] and the small setters *)

Definition with_backgroundColor (q : RendererProps) (v : Color) :=
  mkProps v (pickingAlphaThreshold q) (interiorDarkening q)
    (interiorColorFlag q) (interiorColor q) (highlightColor q)
    (selectColor q) (Config.style q) (Config.clip q).
Definition with_pickingAlphaThreshold (q : RendererProps) (v : number) :=
  mkProps (backgroundColor q) v (interiorDarkening q)
    (interiorColorFlag q) (interiorColor q) (highlightColor q)
    (selectColor q) (Config.style q) (Config.clip q).
Definition with_interiorDarkening (q : RendererProps) (v : number) :=
  mkProps (backgroundColor q) (pickingAlphaThreshold q) v
    (interiorColorFlag q) (interiorColor q) (highlightColor q)
    (selectColor q) (Config.style q) (Config.clip q).
Definition with_interiorColorFlag (q : RendererProps) (v : bool) :=
  mkProps (backgroundColor q) (pickingAlphaThreshold q) (interiorDarkening q)
    v (interiorColor q) (highlightColor q)
    (selectColor q) (Config.style q) (Config.clip q).
Definition with_interiorColor (q : RendererProps) (v : Color) :=
  mkProps (backgroundColor q) (pickingAlphaThreshold q) (interiorDarkening q)
    (interiorColorFlag q) v (highlightColor q)
    (selectColor q) (Config.style q) (Config.clip q).
Definition with_highlightColor (q : RendererProps) (v : Color) :=
  mkProps (backgroundColor q) (pickingAlphaThreshold q) (interiorDarkening q)
    (interiorColorFlag q) (interiorColor q) v
    (selectColor q) (Config.style q) (Config.clip q).
Definition with_selectColor (q : RendererProps) (v : Color) :=
  mkProps (backgroundColor q) (pickingAlphaThreshold q) (interiorDarkening q)
    (interiorColorFlag q) (interiorColor q) (highlightColor q)
    v (Config.style q) (Config.clip q).
Definition with_style (q : RendererProps) (v : StyleProps) :=
  mkProps (backgroundColor q) (pickingAlphaThreshold q) (interiorDarkening q)
    (interiorColorFlag q) (interiorColor q) (highlightColor q)
    (selectColor q) v (Config.clip q).
Definition with_clip (q : RendererProps) (v : ClipProps) :=
  mkProps (backgroundColor q) (pickingAlphaThreshold q) (interiorDarkening q)
    (interiorColorFlag q) (interiorColor q) (highlightColor q)
    (selectColor q) (Config.style q) v.

(** Modelled from the spec: [deepEqual] of mol-util is not part of the two
    files; the design document has partial updates "diff against previous
    values": two configuration values are equal when they have the same
    shape and equal leaves, numbers being equal when [===] holds or both
    are NaN. *)
Definition number_deepEqual (a b : number) : bool :=
  strict_eq a b || (PrimFloat.is_nan a && PrimFloat.is_nan b).

Definition Vec3_deepEqual (a b : Vec3) : bool :=
  match a, b with
  | Vec3_create x y z, Vec3_create x' y' z' =>
      number_deepEqual x x' && number_deepEqual y y' && number_deepEqual z z'
  | Color_toVec3Normalized c, Color_toVec3Normalized c' => Z.eqb c c'
  | _, _ => false
  end.

Definition ClipObjectProps_deepEqual (a b : ClipObjectProps) : bool :=
  String.eqb (type a) (type b)
  && Vec3_deepEqual (position a) (position b)
  && Vec3_deepEqual (axis (rotation a)) (axis (rotation b))
  && number_deepEqual (angle (rotation a)) (angle (rotation b))
  && Vec3_deepEqual (scale a) (scale b).

Fixpoint list_deepEqual {A} (eq : A -> A -> bool) (a b : list A) : bool :=
  match a, b with
  | [], [] => true
  | x :: a', y :: b' => eq x y && list_deepEqual eq a' b'
  | _, _ => false
  end.

Definition deepEqual (a b : ClipProps) : bool :=
  String.eqb (variant a) (variant b)
  && list_deepEqual ClipObjectProps_deepEqual (objects a) (objects b).

(** [setProps(props)]: each field that is given and differs from the
    current one is stored in [p] and its uniforms are written.  One
    definition per [if] of the function, in its order. *)
Definition setProps_backgroundColor (props : PartialProps) (c : Ctx) : Ctx :=
  match backgroundColor_opt props with
  | Some v =>
      if negb (Z.eqb v (backgroundColor (p c))) then
        let c := set_p c (with_backgroundColor (p c) v) in
        let c := set_bgColor c (Color_toVec3Normalized (backgroundColor (p c))) in
        set_globalUniforms c
          (uniform_update "uFogColor" (U_vec3 (bgColor c)) (globalUniforms c))
      else c
  | None => c
  end.

Definition setProps_pickingAlphaThreshold (props : PartialProps) (c : Ctx) : Ctx :=
  match pickingAlphaThreshold_opt props with
  | Some v =>
      if strict_ne v (pickingAlphaThreshold (p c)) then
        let c := set_p c (with_pickingAlphaThreshold (p c) v) in
        set_globalUniforms c
          (uniform_update "uPickingAlphaThreshold"
             (U_number (pickingAlphaThreshold (p c))) (globalUniforms c))
      else c
  | None => c
  end.

Definition setProps_interiorDarkening (props : PartialProps) (c : Ctx) : Ctx :=
  match interiorDarkening_opt props with
  | Some v =>
      if strict_ne v (interiorDarkening (p c)) then
        let c := set_p c (with_interiorDarkening (p c) v) in
        set_globalUniforms c
          (uniform_update "uInteriorDarkening"
             (U_number (interiorDarkening (p c))) (globalUniforms c))
      else c
  | None => c
  end.

Definition setProps_interiorColorFlag (props : PartialProps) (c : Ctx) : Ctx :=
  match interiorColorFlag_opt props with
  | Some v =>
      if negb (Bool.eqb v (interiorColorFlag (p c))) then
        let c := set_p c (with_interiorColorFlag (p c) v) in
        set_globalUniforms c
          (uniform_update "uInteriorColorFlag"
             (U_boolean (interiorColorFlag (p c))) (globalUniforms c))
      else c
  | None => c
  end.

Definition setProps_interiorColor (props : PartialProps) (c : Ctx) : Ctx :=
  match interiorColor_opt props with
  | Some v =>
      if negb (Z.eqb v (interiorColor (p c))) then
        let c := set_p c (with_interiorColor (p c) v) in
        set_globalUniforms c
          (uniform_update "uInteriorColor"
             (U_vec3 (Color_toVec3Normalized (interiorColor (p c))))
             (globalUniforms c))
      else c
  | None => c
  end.

Definition setProps_highlightColor (props : PartialProps) (c : Ctx) : Ctx :=
  match highlightColor_opt props with
  | Some v =>
      if negb (Z.eqb v (highlightColor (p c))) then
        let c := set_p c (with_highlightColor (p c) v) in
        set_globalUniforms c
          (uniform_update "uHighlightColor"
             (U_vec3 (Color_toVec3Normalized (highlightColor (p c))))
             (globalUniforms c))
      else c
  | None => c
  end.

Definition setProps_selectColor (props : PartialProps) (c : Ctx) : Ctx :=
  match selectColor_opt props with
  | Some v =>
      if negb (Z.eqb v (selectColor (p c))) then
        let c := set_p c (with_selectColor (p c) v) in
        set_globalUniforms c
          (uniform_update "uSelectColor"
             (U_vec3 (Color_toVec3Normalized (selectColor (p c))))
             (globalUniforms c))
      else c
  | None => c
  end.

Definition setProps_style (props : PartialProps) (c : Ctx) : Ctx :=
  match style_opt props with
  | Some v =>
      let c := set_p c (with_style (p c) v) in
      let c := set_style c (getStyle v) in
      set_globalUniforms c
        (uniform_updateIfChanged "uReflectivity"
           (U_number (reflectivity (style c)))
        (uniform_updateIfChanged "uRoughness"
           (U_number (roughness (style c)))
        (uniform_updateIfChanged "uMetalness"
           (U_number (metalness (style c)))
        (uniform_updateIfChanged "uAmbientIntensity"
           (U_number (ambientIntensity (style c)))
        (uniform_updateIfChanged "uLightIntensity"
           (U_number (lightIntensity (style c)))
           (globalUniforms c))))))
  | None => c
  end.

Definition setProps_clip (props : PartialProps) (c : Ctx) : Ctx :=
  match clip_opt props with
  | Some v =>
      if negb (deepEqual v (Config.clip (p c))) then
        let c := set_p c (with_clip (p c) v) in
        let c := set_clip c (getClip v (Some (clip c))) in
        set_globalUniforms c
          (uniform_update "uClipObjectType"
             (U_clipTypes (clip_type (clip_objects (clip c))))
          (uniform_update "uClipObjectScale"
             (U_vec3s (clip_scale (clip_objects (clip c))))
          (uniform_update "uClipObjectRotation"
             (U_quats (clip_rotation (clip_objects (clip c))))
          (uniform_update "uClipObjectPosition"
             (U_vec3s (clip_position (clip_objects (clip c))))
             (globalUniforms c)))))
      else c
  | None => c
  end.

Definition setProps (props : PartialProps) (c : Ctx) : Ctx :=
  let c := setProps_backgroundColor props c in
  let c := setProps_pickingAlphaThreshold props c in
  let c := setProps_interiorDarkening props c in
  let c := setProps_interiorColorFlag props c in
  let c := setProps_interiorColor props c in
  let c := setProps_highlightColor props c in
  let c := setProps_selectColor props c in
  let c := setProps_style props c in
  setProps_clip props c.

(** [get props() { return p; }] *)
Definition props (c : Ctx) : RendererProps := p c.

Definition setViewport (x y width height : Z) : M unit :=
  emit (gl_viewport (mkViewport x y width height)) ;;
  emit (gl_scissor (mkViewport x y width height)) ;;
  v <- gets viewport ;;
  if negb (Z.eqb x (vp_x v)) || negb (Z.eqb y (vp_y v))
     || negb (Z.eqb width (vp_width v)) || negb (Z.eqb height (vp_height v))
  then
    modify (fun c => set_viewport c (mkViewport x y width height)) ;;
    modify (fun c =>
      set_globalUniforms c
        (uniform_update "uViewport" (U_viewport (mkViewport x y width height))
        (uniform_update "uViewportHeight" (U_int height) (globalUniforms c))))
  else ret tt.

Definition setTransparentBackground (value : bool) : M unit :=
  modify (fun c => set_transparentBackground c value).

End Renderer.
Import Renderer.

(** ** The draw pass (class [DrawPass]) *)
Module DrawPass.

(** Modelled from the spec: mol-gl/webgl/render-target is not part of the
    two files.  A render target "owns a color and/or depth buffer of
    explicit pixel dimensions; mutable in place via resize"; its texture
    has the dimensions of the target. *)
Record RenderTarget : Type := mkTarget {
  getWidth : Z;
  getHeight : Z
}.

Definition RenderTarget_setSize (t : RenderTarget) (width height : Z)
    : RenderTarget :=
  mkTarget width height.

(** A depth texture of its own ([resources.texture('image-depth', ...)]),
    with the size [define] gave it. *)
Record ImageTexture : Type := mkImage {
  image_width : Z;
  image_height : Z
}.

(** Modelled from the spec: the order-independent sub-pass ([WboitPass],
    ./wboit) is specified by its interface only: whether it is enabled,
    and a size that [setSize] sets. *)
Record WboitPass : Type := mkWboit {
  enabled : bool;
  wboit_width : Z;
  wboit_height : Z
}.

(** The fields of a [DrawPass].  [depthTexture] is [depthTarget.texture].
    [depthTargetPrimitives] and [depthTexturePrimitives] are one field
    here: with packed depth the target exists and the texture is the
    target's ([inl]), otherwise the target is [null] and the texture
    stands alone ([inr]); the same for the volumes.  [uTexSize] is the
    cell [depthMerge.values.uTexSize]. *)
Record DrawPass : Type := mkDrawPass {
  colorTarget : RenderTarget;
  packedDepth : bool;
  depthTarget : RenderTarget;
  depthPrimitives : RenderTarget + ImageTexture;
  depthVolumes : RenderTarget + ImageTexture;
  uTexSize : ValueCell (Z * Z);
  wboit : option WboitPass
}.

Definition depthTargetPrimitives (d : DrawPass) : option RenderTarget :=
  match depthPrimitives d with inl t => Some t | inr _ => None end.

Definition depthTargetVolumes (d : DrawPass) : option RenderTarget :=
  match depthVolumes d with inl t => Some t | inr _ => None end.

(** Width and height of [depthTexturePrimitives] and [depthTextureVolumes]. *)
Definition depthTexturePrimitives_size (d : DrawPass) : Z * Z :=
  match depthPrimitives d with
  | inl t => (getWidth t, getHeight t)
  | inr i => (image_width i, image_height i)
  end.

Definition depthTextureVolumes_size (d : DrawPass) : Z * Z :=
  match depthVolumes d with
  | inl t => (getWidth t, getHeight t)
  | inr i => (image_width i, image_height i)
  end.

(** [get wboitEnabled() { return !!this.wboit?.enabled; }] *)
Definition wboitEnabled (d : DrawPass) : bool :=
  match wboit d with
  | Some w => enabled w
  | None => false
  end.

(** [new DrawPass(webgl, width, height, enableWboit)].
    [ext_depthTexture] is [webgl.extensions.depthTexture] and
    [wboit_enabled] is what a new [WboitPass] on this device reports. *)
Definition new (ext_depthTexture wboit_enabled : bool) (width height : Z)
    (enableWboit : bool) : DrawPass :=
  let packed := negb ext_depthTexture in
  mkDrawPass (mkTarget width height) packed (mkTarget width height)
    (if packed then inl (mkTarget width height) else inr (mkImage width height))
    (if packed then inl (mkTarget width height) else inr (mkImage width height))
    (ValueCell_create (width, height))
    (if enableWboit then Some (mkWboit wboit_enabled width height) else None).

(** The names of the targets and textures of a draw pass. *)
Inductive TargetName : Type :=
| T_drawTarget | T_colorTarget | T_depthTarget
| T_depthTargetPrimitives | T_depthTargetVolumes.

Inductive TextureName : Type :=
| Tx_depthTexture | Tx_depthTexturePrimitives | Tx_depthTextureVolumes.

(** What a draw pass asks of its collaborators, in order. *)
Inductive Op : Type :=
| target_setSize (t : TargetName) (width height : Z)
| texture_define (t : TextureName) (width height : Z)
| wboit_setSize (width height : Z)
| target_bind (t : TargetName)
(** [texture.attachFramebuffer(target.framebuffer, 'depth')] *)
| texture_attachFramebuffer (t : TextureName) (framebufferOf : TargetName)
| webgl_unbindFramebuffer
| webgl (e : Event)
| depthMerge_update
| depthMerge_render
| wboit_bind
| wboit_render (viewport : Viewport)
| helper_debug_syncVisibility
| helper_camera_update (camera : ICamera)
| renderer_clear (toBackgroundColor : bool)
| renderer_clearDepth
| renderer_update (camera : ICamera)
| renderer_setViewport (x y width height : Z)
| renderer_setTransparentBackground (value : bool)
| renderer_setDrawingBufferSize (width height : Z)
| renderer_renderDepth (g : Group) (camera : ICamera) (depthTexture : option TextureName)
| renderer_renderBlended (g : Group) (camera : ICamera) (depthTexture : option TextureName)
| renderer_renderBlendedOpaque (g : Group) (camera : ICamera) (depthTexture : option TextureName)
| renderer_renderBlendedTransparent (g : Group) (camera : ICamera) (depthTexture : option TextureName)
| renderer_renderBlendedVolume (g : Group) (camera : ICamera) (depthTexture : option TextureName)
| renderer_renderWboitOpaque (g : Group) (camera : ICamera) (depthTexture : option TextureName)
| renderer_renderWboitTransparent (g : Group) (camera : ICamera) (depthTexture : option TextureName).

(** [setSize(width, height)]: the pass after the call and the calls made. *)
Definition setSize (width height : Z) (d : DrawPass) : DrawPass * list Op :=
  let w := getWidth (colorTarget d) in
  let h := getHeight (colorTarget d) in
  if negb (Z.eqb width w) || negb (Z.eqb height h) then
    (mkDrawPass
       (RenderTarget_setSize (colorTarget d) width height)
       (packedDepth d)
       (RenderTarget_setSize (depthTarget d) width height)
       (match depthPrimitives d with
        | inl t => inl (RenderTarget_setSize t width height)
        | inr _ => inr (mkImage width height)
        end)
       (match depthVolumes d with
        | inl t => inl (RenderTarget_setSize t width height)
        | inr _ => inr (mkImage width height)
        end)
       (ValueCell_update (uTexSize d) (width, height))
       (match wboit d with
        | Some wb =>
            if enabled wb then Some (mkWboit (enabled wb) width height)
            else Some wb
        | None => None
        end),
     [target_setSize T_colorTarget width height;
      target_setSize T_depthTarget width height]
     ++ [match depthPrimitives d with
         | inl _ => target_setSize T_depthTargetPrimitives width height
         | inr _ => texture_define Tx_depthTexturePrimitives width height
         end]
     ++ [match depthVolumes d with
         | inl _ => target_setSize T_depthTargetVolumes width height
         | inr _ => texture_define Tx_depthTextureVolumes width height
         end]
     ++ (if wboitEnabled d then [wboit_setSize width height] else []))
  else (d, []).

(** [Scene]: the two groups a draw pass renders. *)
Record Scene : Type := mkScene {
  primitives : Group;
  volumes : Group
}.

(** [Helper]: the three overlays, each with its switch and its scene;
    [camera_camera] is [helper.camera.camera] as [helper.camera.update]
    leaves it. *)
Record Helper : Type := mkHelper {
  debug_isEnabled : bool;
  debug_scene : Group;
  handle_isEnabled : bool;
  handle_scene : Group;
  camera_isEnabled : bool;
  camera_scene : Group;
  camera_camera : ICamera
}.

(** [Camera | StereoCamera], told apart by [StereoCamera.is]. *)
Inductive CameraArg : Type :=
| mono (camera : ICamera)
| stereo (left right : ICamera).

(** The calls made, and the error thrown when the run ended in a throw. *)
Definition Outcome : Type := list Op * option string.

Definition done (ops : list Op) : Outcome := (ops, None).
Definition throw (message : string) : Outcome := ([], Some message).

(** Sequencing: nothing after a throw runs, and nothing catches it. *)
Definition andThen (a b : Outcome) : Outcome :=
  match snd a with
  | Some e => a
  | None => (fst a ++ fst b, snd b)
  end.

Definition _depthMerge (d : DrawPass) (camera : ICamera) : list Op :=
  [ depthMerge_update;
    target_bind T_depthTarget;
    webgl (state_disable BLEND);
    webgl (state_disable DEPTH_TEST);
    webgl (state_disable CULL_FACE);
    webgl (state_depthMask false);
    webgl (state_clearColor 1 1 1 1)%float;
    webgl (gl_clear true false);
    depthMerge_render ].

Definition _renderWboit (d : DrawPass) (camera : ICamera) (scene : Scene)
    (toDrawingBuffer : bool) : Outcome :=
  match wboit d with
  | Some (mkWboit true _ _) =>
      let renderTarget := if toDrawingBuffer then T_drawTarget else T_colorTarget in
      done
        ([ target_bind renderTarget;
           renderer_clear true;
           (* render opaque primitives *)
           texture_attachFramebuffer Tx_depthTexturePrimitives renderTarget;
           target_bind renderTarget;
           renderer_renderWboitOpaque (primitives scene) camera None;
           (* render opaque volumes *)
           texture_attachFramebuffer Tx_depthTextureVolumes renderTarget;
           target_bind renderTarget;
           renderer_clearDepth;
           renderer_renderWboitOpaque (volumes scene) camera
             (Some Tx_depthTexturePrimitives) ]
         (* merge depth of opaque primitives and volumes *)
         ++ _depthMerge d camera
         (* render transparent primitives and volumes *)
         ++ [ wboit_bind;
              renderer_renderWboitTransparent (primitives scene) camera
                (Some Tx_depthTexture);
              renderer_renderWboitTransparent (volumes scene) camera
                (Some Tx_depthTexture);
              (* evaluate wboit *)
              texture_attachFramebuffer Tx_depthTexturePrimitives renderTarget;
              target_bind renderTarget;
              wboit_render (cam_viewport camera) ])
  | _ => throw "expected wboit to be enabled"
  end.

Definition _renderBlended (d : DrawPass) (camera : ICamera) (scene : Scene)
    (toDrawingBuffer : bool) : list Op :=
  (if toDrawingBuffer then [webgl_unbindFramebuffer]
   else
     [target_bind T_colorTarget]
     ++ (if negb (packedDepth d)
         then [texture_attachFramebuffer Tx_depthTexturePrimitives T_colorTarget]
         else []))
  ++ [ renderer_clear true;
       renderer_renderBlendedOpaque (primitives scene) camera None ]
  (* depth pass of the primitives *)
  ++ (if negb toDrawingBuffer then
        match depthTargetPrimitives d with
        | Some _ =>
            [ target_bind T_depthTargetPrimitives;
              renderer_clear false;
              renderer_renderDepth (primitives scene) camera None;
              target_bind T_colorTarget ]
        | None => []
        end
      else [])
  (* direct-volume rendering *)
  ++ (if negb toDrawingBuffer then
        (if negb (packedDepth d)
         then [ texture_attachFramebuffer Tx_depthTextureVolumes T_colorTarget;
                renderer_clearDepth ]
         else [])
        ++ [ renderer_renderBlendedVolume (volumes scene) camera
               (Some Tx_depthTexturePrimitives) ]
        ++ match depthTargetVolumes d with
           | Some _ =>
               [ target_bind T_depthTargetVolumes;
                 renderer_clear false;
                 renderer_renderDepth (volumes scene) camera
                   (Some Tx_depthTexturePrimitives);
                 target_bind T_colorTarget ]
           | None => []
           end
        ++ (if negb (packedDepth d)
            then [texture_attachFramebuffer Tx_depthTexturePrimitives T_colorTarget]
            else [])
      else [])
  ++ [ renderer_renderBlendedTransparent (primitives scene) camera None ]
  (* merge depths from primitive and volume rendering *)
  ++ (if negb toDrawingBuffer
      then _depthMerge d camera ++ [target_bind T_colorTarget]
      else []).

Definition _render (d : DrawPass) (camera : ICamera) (scene : Scene)
    (helper : Helper) (toDrawingBuffer : bool) : Outcome :=
  let v := cam_viewport camera in
  andThen
    (done [ renderer_setViewport (vp_x v) (vp_y v) (vp_width v) (vp_height v);
            renderer_update camera ])
  (andThen
    (if wboitEnabled d
     then _renderWboit d camera scene toDrawingBuffer
     else done (_renderBlended d camera scene toDrawingBuffer))
    (done
      ((if debug_isEnabled helper
        then [ helper_debug_syncVisibility;
               renderer_renderBlended (debug_scene helper) camera None ]
        else [])
       ++ (if handle_isEnabled helper
           then [ renderer_renderBlended (handle_scene helper) camera None ]
           else [])
       ++ (if camera_isEnabled helper
           then [ helper_camera_update camera;
                  renderer_update (camera_camera helper);
                  renderer_renderBlended (camera_scene helper)
                    (camera_camera helper) None ]
           else [])
       ++ [ webgl gl_flush ]))).

Definition render (d : DrawPass) (camera : CameraArg) (scene : Scene)
    (helper : Helper) (toDrawingBuffer transparentBackground : bool)
    : Outcome :=
  andThen
    (done [ renderer_setTransparentBackground transparentBackground;
            renderer_setDrawingBufferSize (getWidth (colorTarget d))
              (getHeight (colorTarget d)) ])
    (match camera with
     | stereo cl cr =>
         andThen (_render d cl scene helper toDrawingBuffer)
                 (_render d cr scene helper toDrawingBuffer)
     | mono camera => _render d camera scene helper toDrawingBuffer
     end).

End DrawPass.
Import DrawPass.

(** ** Reading a trace *)
Module Observe.

(** The calls [renderObject(r, variant)] of a trace, in order. *)
Fixpoint calls (t : list Event) : list (GraphicsRenderable * string) :=
  match t with
  | [] => []
  | renderObject_call r variant :: t' => (r, variant) :: calls t'
  | _ :: t' => calls t'
  end.

(** The draw calls [r.render(variant, _)] of a trace, in order. *)
Fixpoint draws (t : list Event) : list (GraphicsRenderable * string) :=
  match t with
  | [] => []
  | renderable_render r variant _ :: t' => (r, variant) :: draws t'
  | _ :: t' => draws t'
  end.

(** The programs that received the global uniforms
    ([program.setUniforms(globalUniformList)]), in order. *)
Fixpoint uploads (t : list Event) : list Z :=
  match t with
  | [] => []
  | program_setUniforms program :: t' => program :: uploads t'
  | _ :: t' => uploads t'
  end.

(** The values passed to [state.depthMask], in order. *)
Fixpoint depthMasks (t : list Event) : list bool :=
  match t with
  | [] => []
  | state_depthMask flag :: t' => flag :: depthMasks t'
  | _ :: t' => depthMasks t'
  end.

(** The program each draw call of a trace runs with. *)
Definition drawnPrograms (t : list Event) : list Z :=
  map (fun d => programOf (fst d) (snd d)) (draws t).

(** The first program of every maximal run of equal consecutive ids,
    [prev] being the id just before the list. *)
Fixpoint runs_after (prev : Z) (ps : list Z) : list Z :=
  match ps with
  | [] => []
  | q :: rest =>
      if Z.eqb prev q then runs_after q rest else q :: runs_after q rest
  end.

Definition runs (ps : list Z) : list Z :=
  match ps with
  | [] => []
  | q :: rest => q :: runs_after q rest
  end.

(** [renderObject] goes past its first test: the drawable is visible and,
    for a pick variant, pickable. *)
Definition passesVisibility (r : GraphicsRenderable) (variant : string) : bool :=
  negb (negb (visible (state r))
        || (negb (pickable (state r)) && startsWith_p variant)).

(** The drawable as [renderObject] leaves it under the clip settings of [c]. *)
Definition resolved (c : Ctx) (r : GraphicsRenderable) : GraphicsRenderable :=
  fst (resolveClipDefines (Renderer.clip c) r).

(** Two contexts that differ at most in the bound program and in
    [globalUniformsNeedUpdate]. *)
Definition sameSettings (c c' : Ctx) : Prop :=
  fragDepth c' = fragDepth c
  /\ p c' = p c
  /\ Renderer.style c' = Renderer.style c
  /\ Renderer.clip c' = Renderer.clip c
  /\ viewport c' = viewport c
  /\ bgColor c' = bgColor c
  /\ transparentBackground c' = transparentBackground c
  /\ sharedTexturesList c' = sharedTexturesList c
  /\ globalUniforms c' = globalUniforms c
  /\ currentRenderItemId c' = currentRenderItemId c.

(** What a pass may draw: selected by its condition and let through by
    [renderObject]. *)
Definition drawnBy (cond : GraphicsRenderable -> bool) (variant : string)
    (r : GraphicsRenderable) : bool :=
  cond r && passesVisibility r variant.

(** One turn of the loop of a pass. *)
Definition turn (cond : GraphicsRenderable -> bool) (variant : string)
    (r : GraphicsRenderable) : M GraphicsRenderable :=
  if cond r then renderObject r variant else ret r.

(** The uploads a sequence of draws causes, from a context on. *)
Definition uploadsFrom (c : Ctx) (ps : list Z) : list Z :=
  if globalUniformsNeedUpdate c then runs ps
  else runs_after (currentProgramId c) ps.

(** The blend function [renderBlendedTransparent] selects. *)
Definition blendSetup (c : Ctx) : Event :=
  if transparentBackground c
  then state_blendFunc ONE ONE_MINUS_SRC_ALPHA
  else state_blendFuncSeparate SRC_ALPHA ONE_MINUS_SRC_ALPHA
         ONE ONE_MINUS_SRC_ALPHA.

(** The passes of the renderer, each a call of [updateInternal] followed
    by its loops. *)
Inductive Pass : Type :=
| pick (variant : string)
| depth
| blendedOpaque
| blendedTransparent
| blendedVolume
| wboitOpaque
| wboitTransparent.

Definition runPass (pass : Pass) (g : Group) (camera : ICamera)
    (depthTexture : option Texture) : M Group :=
  match pass with
  | pick variant => renderPick g camera variant depthTexture
  | depth => renderDepth g camera depthTexture
  | blendedOpaque => renderBlendedOpaque g camera depthTexture
  | blendedTransparent => renderBlendedTransparent g camera depthTexture
  | blendedVolume => renderBlendedVolume g camera depthTexture
  | wboitOpaque => renderWboitOpaque g camera depthTexture
  | wboitTransparent => renderWboitTransparent g camera depthTexture
  end.

(** The conditions of the two loops of [renderBlendedTransparent]. *)
Definition writing (r : GraphicsRenderable) : bool :=
  negb (opaque (state r)) && writeDepth (state r).

Definition nonWriting (r : GraphicsRenderable) : bool :=
  negb (opaque (state r)) && negb (writeDepth (state r)).

(** A stretch of a trace with no call of [renderObject], no draw and no
    upload. *)
Definition quiet (t : list Event) : Prop :=
  calls t = [] /\ draws t = [] /\ uploads t = [].

(** The depth-mask calls the draws of a list of drawables make themselves. *)
Definition ownDepthMasks (c : Ctx) (variant : string)
    (rs : list GraphicsRenderable) : list bool :=
  flat_map
    (fun r => depthMasks (drawState (fragDepth c) (resolved c r) variant)) rs.

End Observe.
Import Observe.

(** ** The classification and upload rules as the design document words
    them *)
Module Stated.

(** "An object is WBOIT-opaque iff alpha == 1 AND its average transparency
    contribution is 0 AND it is not volumetric AND it is not a filled
    circular point AND it does not use x-ray shading." *)
Definition wboitOpaque_stated (r : GraphicsRenderable) : bool :=
  strict_eq (wboitAlpha r) 1%float
  && strict_eq (transparencyAverage (values r)) 0%float
  && negb (isVolume r)
  && negb (truthy (dPointFilledCircle (values r)))
  && negb (truthy (dXrayShaded (values r))).

(** "An object is WBOIT-transparent iff alpha < 1 OR average transparency
    > 0 OR it is volumetric OR it is a filled circular point OR it declares
    a custom background color override OR it uses x-ray shading." *)
Definition wboitTransparent_stated (r : GraphicsRenderable) : Prop :=
  lt (wboitAlpha r) 1%float = true
  \/ gt (transparencyAverage (values r)) 0%float = true
  \/ isVolume r = true
  \/ truthy (dPointFilledCircle (values r)) = true
  \/ uBackgroundColor (values r) <> None
  \/ truthy (dXrayShaded (values r)) = true.

(** "M uploads, not N": the number of distinct programs among the draws. *)
Definition distinctPrograms (t : list Event) : nat :=
  List.length (nodup Z.eq_dec (drawnPrograms t)).

End Stated.
Import Stated.

(** ** Notions the statements below use *)
Module Laws.

(** A render target reports the dimensions [(w, h)]. *)
Definition sized (w h : Z) (t : RenderTarget) : Prop :=
  getWidth t = w /\ getHeight t = h.

(** A draw pass after a sequence of [setSize] calls. *)
Definition resizes (sizes : list (Z * Z)) (d : DrawPass) : DrawPass :=
  fold_left (fun d wh => fst (setSize (fst wh) (snd wh) d)) sizes d.

(** All targets of a draw pass have the size of the color target, and the
    intermediate depth targets exist exactly under packed depth. *)
Definition targetsAgree (d : DrawPass) : Prop :=
  let w := getWidth (colorTarget d) in
  let h := getHeight (colorTarget d) in
  sized w h (depthTarget d)
  /\ (if packedDepth d
      then (exists t, depthPrimitives d = inl t /\ sized w h t)
           /\ (exists t, depthVolumes d = inl t /\ sized w h t)
      else depthTargetPrimitives d = None /\ depthTargetVolumes d = None).

(** A number that is not NaN. *)
Definition isNumber (x : number) : Prop := strict_eq x x = true.

(** A style whose five numbers are numbers. *)
Definition styleDefined (s : StyleProps) : Prop :=
  isNumber (lightIntensity (getStyle s))
  /\ isNumber (ambientIntensity (getStyle s))
  /\ isNumber (metalness (getStyle s))
  /\ isNumber (roughness (getStyle s))
  /\ isNumber (reflectivity (getStyle s)).

Definition partialDefined (q : PartialProps) : Prop :=
  match style_opt q with
  | Some s => styleDefined s
  | None => True
  end.

(** A renderer after a sequence of [setProps] calls. *)
Definition setPropsAll (qs : list PartialProps) (c : Ctx) : Ctx :=
  fold_left (fun c q => setProps q c) qs c.

(** Every field [q] gives equals the current one, by the comparison
    [setProps] makes for it ([===] for numbers and colours, [deepEqual]
    for the clip configuration; a style is compared as a value). *)
Definition unchangedBy (q : PartialProps) (pr : RendererProps) : Prop :=
  (forall v, backgroundColor_opt q = Some v -> v = backgroundColor pr)
  /\ (forall v, pickingAlphaThreshold_opt q = Some v ->
        strict_ne v (pickingAlphaThreshold pr) = false)
  /\ (forall v, interiorDarkening_opt q = Some v ->
        strict_ne v (interiorDarkening pr) = false)
  /\ (forall v, interiorColorFlag_opt q = Some v -> v = interiorColorFlag pr)
  /\ (forall v, interiorColor_opt q = Some v -> v = interiorColor pr)
  /\ (forall v, highlightColor_opt q = Some v -> v = highlightColor pr)
  /\ (forall v, selectColor_opt q = Some v -> v = selectColor pr)
  /\ (forall v, style_opt q = Some v -> v = Config.style pr)
  /\ (forall v, clip_opt q = Some v -> deepEqual v (Config.clip pr) = true).

(** The uniform cell [name] would not be written by
    [updateIfChanged(name, x)]. *)
Definition settled (name : string) (x : number) (g : GlobalUniformValues)
    : Prop :=
  uniform_updateIfChanged name (U_number x) g = g.

(** The closure variable [style] and the five style uniforms reflect
    [p.style]. *)
Definition styleInSync (c : Ctx) : Prop :=
  let s := getStyle (Config.style (p c)) in
  Renderer.style c = s
  /\ settled "uLightIntensity" (lightIntensity s) (globalUniforms c)
  /\ settled "uAmbientIntensity" (ambientIntensity s) (globalUniforms c)
  /\ settled "uMetalness" (metalness s) (globalUniforms c)
  /\ settled "uRoughness" (roughness s) (globalUniforms c)
  /\ settled "uReflectivity" (reflectivity s) (globalUniforms c).

(** Calls of a draw pass that render volumes, render depth only, or merge
    depth. *)
Definition isVolumeRendering (op : Op) : Prop :=
  match op with
  | renderer_renderBlendedVolume _ _ _ => True
  | _ => False
  end.

Definition isDepthOnlyPass (op : Op) : Prop :=
  match op with
  | renderer_renderDepth _ _ _ => True
  | _ => False
  end.

Definition isDepthMerge (op : Op) : Prop :=
  match op with
  | depthMerge_update | depthMerge_render => True
  | _ => False
  end.

End Laws.
Import Laws.

(** ** Sample data *)
Module Samples.

Definition sampleValues (a tAvg : number) (background : option Vec3)
    : RenderableValues :=
  mkValues a a tAvg None None None background None None false
    (ValueCell_create 0%nat) (ValueCell_create "instance").

(** A visible, pickable drawable with alpha factor 1 whose program is
    [program] whatever the defines. *)
Definition sampleDrawable (n : nat) (program : Z) (v : RenderableValues)
    : GraphicsRenderable :=
  mkRenderable n (mkState true true false true false false 1%float) v
    (fun _ _ _ => program).

Definition sampleProps : RendererProps :=
  mkProps 0%Z 0.5%float 0.5%float true 5000268%Z 16737945%Z 3407642%Z matte
    (mkClipProps "instance" []).

Definition sampleRenderer : Ctx := create true 1%float 800 600 sampleProps.

Definition sampleCamera : ICamera :=
  mkCamera (Mat4_given 0) (Mat4_given 1) (mkViewport 0 0 800 600).

(** Fully opaque, average transparency 0.5. *)
Definition halfTransparent : GraphicsRenderable :=
  sampleDrawable 1 7 (sampleValues 1 0.5 None)%float.

(** Fully opaque, no transparency, with a background colour override. *)
Definition withBackground : GraphicsRenderable :=
  sampleDrawable 2 7 (sampleValues 1 0 (Some (Vec3_create 1 1 1)))%float.

(** Fully opaque and plain. *)
Definition plain : GraphicsRenderable :=
  sampleDrawable 3 7 (sampleValues 1 0 None)%float.

(** Three plain drawables whose programs alternate 1, 2, 1. *)
Definition interleaved : Group :=
  mkGroup Mat4_identity
    [ sampleDrawable 1 1 (sampleValues 1 0 None)%float;
      sampleDrawable 2 2 (sampleValues 1 0 None)%float;
      sampleDrawable 3 1 (sampleValues 1 0 None)%float ].

(** Volumetric, fully opaque. *)
Definition volumetric : GraphicsRenderable :=
  sampleDrawable 4 7
    (mkValues 1 1 0 (Some "volume") None None None None None false
       (ValueCell_create 0%nat) (ValueCell_create "instance"))%float.

(** Not opaque, alpha 0.5, not writing depth. *)
Definition translucent : GraphicsRenderable :=
  mkRenderable 5 (mkState true true false false false false 1%float)
    (sampleValues 0.5 0 None)%float (fun _ _ _ => 8%Z).

(** One opaque and one transparent drawable. *)
Definition mixed : Group := mkGroup Mat4_identity [plain; translucent].

End Samples.
Import Samples.


(** ** Further readings of a trace and notions for the statements on the
    rest of the two files *)
Module Further.

(** The calls [r.update()] of a trace, in order. *)
Fixpoint relinks (t : list Event) : list GraphicsRenderable :=
  match t with
  | [] => []
  | renderable_update r :: t' => r :: relinks t'
  | _ :: t' => relinks t'
  end.

(** The programs bound by [program.use()], in order. *)
Fixpoint binds (t : list Event) : list Z :=
  match t with
  | [] => []
  | program_use program :: t' => program :: binds t'
  | _ :: t' => binds t'
  end.

(** The shared textures each draw call of a trace was given, in order. *)
Fixpoint drawTextures (t : list Event) : list (list (string * Texture)) :=
  match t with
  | [] => []
  | renderable_render _ _ textures :: t' => textures :: drawTextures t'
  | _ :: t' => drawTextures t'
  end.

(** The rectangles passed to [gl.viewport] and to [gl.scissor], in order. *)
Fixpoint viewports (t : list Event) : list Viewport :=
  match t with
  | [] => []
  | gl_viewport v :: t' => v :: viewports t'
  | _ :: t' => viewports t'
  end.

Fixpoint scissors (t : list Event) : list Viewport :=
  match t with
  | [] => []
  | gl_scissor v :: t' => v :: scissors t'
  | _ :: t' => scissors t'
  end.

(** A stretch of a trace that relinks nothing, binds no program, draws
    nothing and sets no viewport. *)
Definition silent (t : list Event) : Prop :=
  relinks t = [] /\ binds t = [] /\ drawTextures t = []
  /\ viewports t = [] /\ scissors t = [].

(** [definesNeedUpdate] of [renderObject] for a drawable. *)
Definition needsRelink (c : Ctx) (r : GraphicsRenderable) : bool :=
  snd (resolveClipDefines (Renderer.clip c) r).

(** What a pass leaves alone: the configuration, the style, the clip
    settings, the viewport, the background and the depth capability. *)
Definition sameConfiguration (c c' : Ctx) : Prop :=
  fragDepth c' = fragDepth c
  /\ p c' = p c
  /\ Renderer.style c' = Renderer.style c
  /\ Renderer.clip c' = Renderer.clip c
  /\ viewport c' = viewport c
  /\ bgColor c' = bgColor c
  /\ transparentBackground c' = transparentBackground c.

(** The six uniform cells [updateInternal] writes for a group, a camera
    and a pass kind. *)
Definition matrixWrites (g : Group) (cam : ICamera) (renderWboit : bool)
    (u : GlobalUniformValues) : GlobalUniformValues :=
  let modelView := Mat4_mul (view g) (cam_view cam) in
  let modelViewProjection := Mat4_mul modelView (cam_projection cam) in
  uniform_updateIfChanged "uRenderWboit" (U_boolean renderWboit)
    (uniform_update "uInvModelViewProjection"
       (U_mat4 (Mat4_invert modelViewProjection))
    (uniform_update "uModelViewProjection" (U_mat4 modelViewProjection)
    (uniform_update "uInvModelView" (U_mat4 (Mat4_invert modelView))
    (uniform_update "uModelView" (U_mat4 modelView)
    (uniform_update "uModel" (U_mat4 (view g)) u))))).

(** The [renderWboit] argument a pass gives to [updateInternal]. *)
Definition renderWboitOf (pass : Pass) : bool :=
  match pass with
  | wboitTransparent => true
  | _ => false
  end.

(** [depthTexture || nullDepthTexture] *)
Definition orNull (depthTexture : option Texture) : Texture :=
  match depthTexture with
  | Some t => t
  | None => NullTexture
  end.

(** What holds of the trace [t] of a pass started in [c] and of the
    context [c'] it leaves. *)
Definition passLaw (c : Ctx) (g : Group) (cam : ICamera)
    (tex : option Texture) (renderWboit : bool) (t : list Event) (c' : Ctx)
    : Prop :=
  let textures := arrayMapUpsert (sharedTexturesList c) "tDepth" (orNull tex) in
  binds t = runs_after (currentProgramId c) (drawnPrograms t)
  /\ currentProgramId c' = last (drawnPrograms t) (currentProgramId c)
  /\ viewports t = [viewport c]
  /\ scissors t = [viewport c]
  /\ drawTextures t = repeat textures (List.length (draws t))
  /\ sharedTexturesList c' = textures
  /\ sameConfiguration c c'
  /\ globalUniforms c' = matrixWrites g cam renderWboit (globalUniforms c)
  /\ globalUniformsNeedUpdate c' =
       match draws t with
       | [] => true
       | _ => false
       end.

(** The calls of a trace that set blending: the capability and the
    blend function. *)
Fixpoint blending (t : list Event) : list Event :=
  match t with
  | [] => []
  | state_enable BLEND :: t' => state_enable BLEND :: blending t'
  | state_disable BLEND :: t' => state_disable BLEND :: blending t'
  | state_blendFunc s d :: t' => state_blendFunc s d :: blending t'
  | state_blendFuncSeparate s d sa da :: t' =>
      state_blendFuncSeparate s d sa da :: blending t'
  | _ :: t' => blending t'
  end.

(** The closure variable [clip] reflects [p.clip]: as many objects, the
    same variant. *)
Definition clipInSync (c : Ctx) : Prop :=
  count (clip_objects (Renderer.clip c)) =
    List.length (objects (Config.clip (p c)))
  /\ clip_variant (Renderer.clip c) = variant (Config.clip (p c)).

(** The entry of a key in a list of pairs, as [arrayMapUpsert] finds it. *)
Fixpoint entryOf {V} (key : string) (xs : list (string * V)) : option V :=
  match xs with
  | [] => None
  | (k, v) :: xs' => if String.eqb k key then Some v else entryOf key xs'
  end.

(** The clip defines of a drawable agree with the clip settings of [c]:
    the count is 0 for a drawable that opts out of clipping, and the
    count and variant of the settings otherwise. *)
Definition definesFollow (c : Ctx) (r : GraphicsRenderable) : Prop :=
  if noClip (state r)
  then cell_value (dClipObjectCount (values r)) = 0%nat
  else cell_value (dClipObjectCount (values r)) =
         count (clip_objects (Renderer.clip c))
       /\ cell_value (dClipVariant (values r)) = clip_variant (Renderer.clip c).

(** The condition under which [renderPick] draws a drawable. *)
Definition picked (variant : string) (r : GraphicsRenderable) : bool :=
  negb (colorOnly (state r))
  && visible (state r)
  && (pickable (state r) || negb (startsWith_p variant)).

(** Writing the entries of [objs], each turned into a slot by [f], into an
    array from index [i] on: one of the four arrays of [getClip]. *)
Fixpoint fillFrom {A B} (hole : A) (f : B -> A) (objs : list B) (i : nat)
    (a : list A) : list A :=
  match objs with
  | [] => a
  | o :: rest => fillFrom hole f rest (S i) (array_set hole a i (f o))
  end.

(** The arrays [getClip] starts from. *)
Definition arraysOf (clip : option Clip) : ClipObjects :=
  match clip with
  | Some c => clip_objects c
  | None => freshClipObjects
  end.

(** The renderer states that arise: created, then configured, given a
    viewport and a background mode, and used for passes, in any order.
    Styles are given with numbers that are numbers. *)
Inductive reachable : Ctx -> Prop :=
| reach_create fd ratio w h p0 :
    styleDefined (Config.style p0) -> reachable (create fd ratio w h p0)
| reach_setProps q c :
    partialDefined q -> reachable c -> reachable (setProps q c)
| reach_setViewport x y w h c :
    reachable c -> reachable (final (setViewport x y w h c))
| reach_setTransparentBackground b c :
    reachable c -> reachable (final (setTransparentBackground b c))
| reach_pass pass g cam tex c :
    reachable c -> reachable (final (runPass pass g cam tex c)).

(** The draw passes that arise: constructed, then resized. *)
Inductive constructed : DrawPass -> Prop :=
| made ext wb w h e : constructed (new ext wb w h e)
| resized w h d : constructed d -> constructed (fst (setSize w h d)).

(** Every size a draw pass keeps is the size of its color target: the
    depth textures, the depth-merge uniform and the enabled
    order-independent sub-pass. *)
Definition sizesAgree (d : DrawPass) : Prop :=
  let s := (getWidth (colorTarget d), getHeight (colorTarget d)) in
  depthTexturePrimitives_size d = s
  /\ depthTextureVolumes_size d = s
  /\ cell_value (uTexSize d) = s
  /\ match wboit d with
     | Some wb => enabled wb = true -> (wboit_width wb, wboit_height wb) = s
     | None => True
     end.

(** The camera a call on the renderer renders with, if it renders. *)
Definition renderCamera (op : Op) : option ICamera :=
  match op with
  | renderer_renderDepth _ cam _
  | renderer_renderBlended _ cam _
  | renderer_renderBlendedOpaque _ cam _
  | renderer_renderBlendedTransparent _ cam _
  | renderer_renderBlendedVolume _ cam _
  | renderer_renderWboitOpaque _ cam _
  | renderer_renderWboitTransparent _ cam _ => Some cam
  | _ => None
  end.

(** Every rendering call of a sequence uses the camera of the latest
    [renderer.update] before it; [current] is the camera updated last
    before the sequence. *)
Fixpoint updatedBeforeUse (current : option ICamera) (ops : list Op) : Prop :=
  match ops with
  | [] => True
  | renderer_update cam :: rest => updatedBeforeUse (Some cam) rest
  | op :: rest =>
      match renderCamera op with
      | Some cam => current = Some cam /\ updatedBeforeUse current rest
      | None => updatedBeforeUse current rest
      end
  end.

(** The camera updated last in a sequence of calls. *)
Fixpoint lastUpdated (current : option ICamera) (ops : list Op)
    : option ICamera :=
  match ops with
  | [] => current
  | renderer_update cam :: rest => lastUpdated (Some cam) rest
  | _ :: rest => lastUpdated current rest
  end.

(** The targets bound by a sequence of calls, in order. *)
Fixpoint bound (ops : list Op) : list TargetName :=
  match ops with
  | [] => []
  | target_bind t :: rest => t :: bound rest
  | _ :: rest => bound rest
  end.

(** The groups rendered depth-only, and how often depth is merged. *)
Fixpoint depthPasses (ops : list Op) : list Group :=
  match ops with
  | [] => []
  | renderer_renderDepth g _ _ :: rest => g :: depthPasses rest
  | _ :: rest => depthPasses rest
  end.

Fixpoint depthMerges (ops : list Op) : nat :=
  match ops with
  | [] => 0
  | depthMerge_render :: rest => S (depthMerges rest)
  | _ :: rest => depthMerges rest
  end.

(** Whether a sequence of calls unbinds the framebuffer. *)
Fixpoint unbinds (ops : list Op) : nat :=
  match ops with
  | [] => 0
  | webgl_unbindFramebuffer :: rest => S (unbinds rest)
  | _ :: rest => unbinds rest
  end.

(** *** The fields of the configuration *)

(** The nine fields [setProps] looks at, in its order. *)
Inductive Field : Type :=
| backgroundColor_field
| pickingAlphaThreshold_field
| interiorDarkening_field
| interiorColorFlag_field
| interiorColor_field
| highlightColor_field
| selectColor_field
| style_field
| clip_field.

Definition Field_eq_dec (f g : Field) : {f = g} + {f <> g}.
Proof. decide equality. Defined.

Definition setProps_order : list Field :=
  [ backgroundColor_field; pickingAlphaThreshold_field;
    interiorDarkening_field; interiorColorFlag_field; interiorColor_field;
    highlightColor_field; selectColor_field; style_field; clip_field ].

(** The [if] of [setProps] for a field. *)
Definition setProps_step (f : Field) : PartialProps -> Ctx -> Ctx :=
  match f with
  | backgroundColor_field => setProps_backgroundColor
  | pickingAlphaThreshold_field => setProps_pickingAlphaThreshold
  | interiorDarkening_field => setProps_interiorDarkening
  | interiorColorFlag_field => setProps_interiorColorFlag
  | interiorColor_field => setProps_interiorColor
  | highlightColor_field => setProps_highlightColor
  | selectColor_field => setProps_selectColor
  | style_field => setProps_style
  | clip_field => setProps_clip
  end.

(** The uniform cells the [if] of a field writes. *)
Definition dependentCells (f : Field) : list string :=
  match f with
  | backgroundColor_field => ["uFogColor"]
  | pickingAlphaThreshold_field => ["uPickingAlphaThreshold"]
  | interiorDarkening_field => ["uInteriorDarkening"]
  | interiorColorFlag_field => ["uInteriorColorFlag"]
  | interiorColor_field => ["uInteriorColor"]
  | highlightColor_field => ["uHighlightColor"]
  | selectColor_field => ["uSelectColor"]
  | style_field =>
      ["uLightIntensity"; "uAmbientIntensity"; "uMetalness"; "uRoughness";
       "uReflectivity"]
  | clip_field =>
      ["uClipObjectPosition"; "uClipObjectRotation"; "uClipObjectScale";
       "uClipObjectType"]
  end.

(** What [q] gives for the field [f], if it gives anything, equals the
    current value, by the comparison [setProps] makes for that field;
    the other fields of [q] are free. *)
Definition repeated (f : Field) (q : PartialProps) (pr : RendererProps)
    : Prop :=
  match f with
  | backgroundColor_field =>
      forall v, backgroundColor_opt q = Some v -> v = backgroundColor pr
  | pickingAlphaThreshold_field =>
      forall v, pickingAlphaThreshold_opt q = Some v ->
        strict_ne v (pickingAlphaThreshold pr) = false
  | interiorDarkening_field =>
      forall v, interiorDarkening_opt q = Some v ->
        strict_ne v (interiorDarkening pr) = false
  | interiorColorFlag_field =>
      forall v, interiorColorFlag_opt q = Some v -> v = interiorColorFlag pr
  | interiorColor_field =>
      forall v, interiorColor_opt q = Some v -> v = interiorColor pr
  | highlightColor_field =>
      forall v, highlightColor_opt q = Some v -> v = highlightColor pr
  | selectColor_field =>
      forall v, selectColor_opt q = Some v -> v = selectColor pr
  | style_field =>
      forall v, style_opt q = Some v -> v = Config.style pr
  | clip_field =>
      forall v, clip_opt q = Some v -> deepEqual v (Config.clip pr) = true
  end.

(** *** Where calls sit relative to the draws *)

(** The draw calls of a trace, each with the depth mask in force when it
    is issued: the argument of the latest [state.depthMask] before it, or
    [mask] when there is none. *)
Fixpoint drawsUnderMask (mask : option bool) (t : list Event)
    : list (GraphicsRenderable * string * option bool) :=
  match t with
  | [] => []
  | state_depthMask b :: t' => drawsUnderMask (Some b) t'
  | renderable_render r v _ :: t' => (r, v, mask) :: drawsUnderMask mask t'
  | _ :: t' => drawsUnderMask mask t'
  end.

(** The depth mask in force after a trace. *)
Fixpoint maskAfter (mask : option bool) (t : list Event) : option bool :=
  match t with
  | [] => mask
  | state_depthMask b :: t' => maskAfter (Some b) t'
  | _ :: t' => maskAfter mask t'
  end.

(** A trace up to its first draw call, and from its first draw call on. *)
Fixpoint beforeFirstDraw (t : list Event) : list Event :=
  match t with
  | [] => []
  | renderable_render _ _ _ :: _ => []
  | e :: t' => e :: beforeFirstDraw t'
  end.

Fixpoint fromFirstDraw (t : list Event) : list Event :=
  match t with
  | [] => []
  | renderable_render r v textures :: t' =>
      renderable_render r v textures :: t'
  | _ :: t' => fromFirstDraw t'
  end.

End Further.
Import Further.

(** ** More sample data *)
Module MoreSamples.

(** A hidden drawable, and a group that holds nothing else. *)
Definition hidden : GraphicsRenderable :=
  mkRenderable 6 (mkState false true false true false false 1%float)
    (sampleValues 1 0 None)%float (fun _ _ _ => 9%Z).

Definition unseen : Group := mkGroup Mat4_identity [hidden; hidden].

(** The sample renderer given two clip objects, a viewport, and used for
    a depth pass. *)
Definition twoPlanes : ClipProps :=
  mkClipProps "pixel"
    [ mkClipObjectProps "plane" (Vec3_create 0 0 0)
        (mkRotation (Vec3_create 1 0 0) 0) (Vec3_create 1 1 1);
      mkClipObjectProps "sphere" (Vec3_create 1 2 3)
        (mkRotation (Vec3_create 0 1 0) 90) (Vec3_create 2 2 2) ]%float.

Definition usedRenderer : Ctx :=
  final (runPass depth mixed sampleCamera None
    (final (setViewport 0 0 400 300
      (setProps (mkPartial None None None None None None None None
                   (Some twoPlanes)) sampleRenderer)))).

(** Not opaque, alpha 0.5, writing depth; and a group that lists a
    transparent drawable that does not write depth before one that does. *)
Definition glass : GraphicsRenderable :=
  mkRenderable 7 (mkState true true false false true false 1%float)
    (sampleValues 0.5 0 None)%float (fun _ _ _ => 8%Z).

Definition layered : Group :=
  mkGroup Mat4_identity [translucent; glass; plain].

End MoreSamples.
Import MoreSamples.

(** * Proofs *)

(** ** The renderer: one object, one loop, one pass *)

Lemma run_emits es c : emits es c = (tt, c, es).
Proof.
  induction es as [|e es IH]; [reflexivity|].
  simpl. unfold bind, emit. rewrite IH. reflexivity.
Qed.

Lemma renderObject_skipped r variant c :
  passesVisibility r variant = false ->
  renderObject r variant c = (r, c, [renderObject_call r variant]).
Proof.
  unfold passesVisibility, renderObject, bind, emit. intros H.
  apply negb_false_iff in H. rewrite H. reflexivity.
Qed.

Ltac step :=
  cbv beta iota zeta delta [currentProgramId globalUniformsNeedUpdate
    fragDepth sharedTexturesList Renderer.clip set_globalUniformsNeedUpdate
    set_currentProgramId p Renderer.style viewport bgColor
    transparentBackground globalUniforms currentRenderItemId negb orb fst snd].

Lemma renderObject_drawn r variant c :
  passesVisibility r variant = true ->
  let r' := resolved c r in
  let program := programOf r' variant in
  let switch := negb (Z.eqb (currentProgramId c) program) in
  renderObject r variant c =
    (r',
     set_globalUniformsNeedUpdate (set_currentProgramId c program) false,
     [renderObject_call r variant]
     ++ (if snd (resolveClipDefines (Renderer.clip c) r) then [renderable_update r'] else [])
     ++ (if switch then [program_use program] else [])
     ++ (if switch || globalUniformsNeedUpdate c then [program_setUniforms program] else [])
     ++ drawState (fragDepth c) r' variant
     ++ [renderable_render r' variant (sharedTexturesList c)]).
Proof.
  unfold passesVisibility, resolved. intros H. apply negb_true_iff in H.
  unfold renderObject, bind, emit, gets, modify, ret. rewrite H.
  destruct (resolveClipDefines (Renderer.clip c) r) as [r' upd] eqn:E. simpl fst. simpl snd.
  destruct c as [fd pp st cl vp bg tb tex gu need cur item].
  cbv beta iota zeta delta [currentProgramId globalUniformsNeedUpdate fragDepth
    sharedTexturesList Renderer.clip set_globalUniformsNeedUpdate
    set_currentProgramId p Renderer.style viewport bgColor
    transparentBackground globalUniforms currentRenderItemId] in *.
  clear E.
  destruct upd; step;
  (destruct (Z.eqb cur (programOf r' variant)) eqn:EP; step;
   [apply Z.eqb_eq in EP; subst cur; destruct need; step|];
   rewrite run_emits; reflexivity).
Qed.

Lemma calls_app t1 t2 : calls (t1 ++ t2) = calls t1 ++ calls t2.
Proof.
  induction t1 as [|e t1 IH]; [reflexivity|].
  destruct e; simpl; rewrite IH; reflexivity.
Qed.

Lemma draws_app t1 t2 : draws (t1 ++ t2) = draws t1 ++ draws t2.
Proof.
  induction t1 as [|e t1 IH]; [reflexivity|].
  destruct e; simpl; rewrite IH; reflexivity.
Qed.

Lemma uploads_app t1 t2 : uploads (t1 ++ t2) = uploads t1 ++ uploads t2.
Proof.
  induction t1 as [|e t1 IH]; [reflexivity|].
  destruct e; simpl; rewrite IH; reflexivity.
Qed.

Lemma depthMasks_app t1 t2 :
  depthMasks (t1 ++ t2) = depthMasks t1 ++ depthMasks t2.
Proof.
  induction t1 as [|e t1 IH]; [reflexivity|].
  destruct e; simpl; rewrite IH; reflexivity.
Qed.

Lemma drawnPrograms_app t1 t2 :
  drawnPrograms (t1 ++ t2) = drawnPrograms t1 ++ drawnPrograms t2.
Proof. unfold drawnPrograms. rewrite draws_app, map_app. reflexivity. Qed.

(** The state calls before a draw hold no call, draw or upload. *)
Lemma drawState_quiet fd r variant :
  calls (drawState fd r variant) = []
  /\ draws (drawState fd r variant) = []
  /\ uploads (drawState fd r variant) = [].
Proof.
  unfold drawState.
  destruct (dRenderMode (values r)) as [mode|].
  - destruct (String.eqb variant "colorBlended");
      [destruct (String.eqb mode "volume" || negb fd)|]; repeat split.
  - destruct (dDoubleSided (values r)) as [ds|];
      [destruct (ds || hasReflection (values r))|];
      destruct (dFlipSided (values r)) as [[]|]; repeat split.
Qed.

(** A drawable that is not a direct volume never has the depth mask
    changed by its own draw. *)
Lemma drawState_depthMask fd r variant :
  dRenderMode (values r) = None ->
  depthMasks (drawState fd r variant) = [].
Proof.
  unfold drawState. intros ->.
  destruct (dDoubleSided (values r)) as [ds|];
    [destruct (ds || hasReflection (values r))|];
    destruct (dFlipSided (values r)) as [[]|]; reflexivity.
Qed.

Lemma renderObject_calls r variant c :
  calls (trace (renderObject r variant c)) = [(r, variant)].
Proof.
  destruct (passesVisibility r variant) eqn:V.
  - rewrite (renderObject_drawn r variant c V). unfold trace. cbn [snd].
    destruct (drawState_quiet (fragDepth c) (resolved c r) variant) as (Q & _ & _).
    cbn [app calls]. rewrite !calls_app, Q.
    destruct (snd (resolveClipDefines (Renderer.clip c) r));
      destruct (negb _); destruct (globalUniformsNeedUpdate c); reflexivity.
  - rewrite (renderObject_skipped r variant c V). reflexivity.
Qed.

Lemma renderObject_draws r variant c :
  draws (trace (renderObject r variant c)) =
    if passesVisibility r variant then [(resolved c r, variant)] else [].
Proof.
  destruct (passesVisibility r variant) eqn:V.
  - rewrite (renderObject_drawn r variant c V). unfold trace. cbn [snd].
    destruct (drawState_quiet (fragDepth c) (resolved c r) variant) as (_ & Q & _).
    cbn [app draws]. rewrite !draws_app, Q.
    destruct (snd (resolveClipDefines (Renderer.clip c) r));
      destruct (negb _); destruct (globalUniformsNeedUpdate c); reflexivity.
  - rewrite (renderObject_skipped r variant c V). reflexivity.
Qed.

Lemma renderObject_uploads r variant c :
  uploads (trace (renderObject r variant c)) =
    if passesVisibility r variant
    then
      if negb (Z.eqb (currentProgramId c) (programOf (resolved c r) variant))
         || globalUniformsNeedUpdate c
      then [programOf (resolved c r) variant] else []
    else [].
Proof.
  destruct (passesVisibility r variant) eqn:V.
  - rewrite (renderObject_drawn r variant c V). unfold trace. cbn [snd].
    destruct (drawState_quiet (fragDepth c) (resolved c r) variant) as (_ & _ & Q).
    cbn [app uploads]. rewrite !uploads_app, Q.
    destruct (snd (resolveClipDefines (Renderer.clip c) r));
      destruct (negb _); destruct (globalUniformsNeedUpdate c); reflexivity.
  - rewrite (renderObject_skipped r variant c V). reflexivity.
Qed.

Lemma sameSettings_refl c : sameSettings c c.
Proof. repeat split. Qed.

Lemma sameSettings_trans c1 c2 c3 :
  sameSettings c1 c2 -> sameSettings c2 c3 -> sameSettings c1 c3.
Proof.
  unfold sameSettings. intros H1 H2.
  decompose [and] H1. decompose [and] H2. repeat split; congruence.
Qed.

Lemma renderObject_final r variant c :
  let c' := final (renderObject r variant c) in
  sameSettings c c'
  /\ globalUniformsNeedUpdate c' =
       (if passesVisibility r variant then false else globalUniformsNeedUpdate c)
  /\ currentProgramId c' =
       (if passesVisibility r variant
        then programOf (resolved c r) variant else currentProgramId c).
Proof.
  destruct (passesVisibility r variant) eqn:V; cbv zeta.
  - rewrite (renderObject_drawn r variant c V). unfold final. cbn [fst snd].
    destruct c; repeat split.
  - rewrite (renderObject_skipped r variant c V). unfold final. cbn [fst snd].
    repeat split.
Qed.

Lemma renderObject_result r variant c :
  result (renderObject r variant c) =
    if passesVisibility r variant then resolved c r else r.
Proof.
  destruct (passesVisibility r variant) eqn:V.
  - rewrite (renderObject_drawn r variant c V). reflexivity.
  - rewrite (renderObject_skipped r variant c V). reflexivity.
Qed.

Lemma run_bind {A B} (m : M A) (k : A -> M B) c :
  bind m k c =
    (result (k (result (m c)) (final (m c))),
     final (k (result (m c)) (final (m c))),
     trace (m c) ++ trace (k (result (m c)) (final (m c)))).
Proof.
  unfold bind, result, final, trace.
  destruct (m c) as [[a c1] t1]. cbn [fst snd].
  destruct (k a c1) as [[b c2] t2]. reflexivity.
Qed.

Lemma resolved_ext c c' r :
  Renderer.clip c' = Renderer.clip c -> resolved c' r = resolved c r.
Proof. unfold resolved. intros ->. reflexivity. Qed.

Lemma sameSettings_clip c c' :
  sameSettings c c' -> Renderer.clip c' = Renderer.clip c.
Proof. unfold sameSettings. intros H. decompose [and] H. assumption. Qed.

(** One turn of the loop, then the rest from the context it leaves. *)
Lemma renderLoop_cons cond variant r rs c :
  let c1 := final (turn cond variant r c) in
  result (renderLoop cond variant (r :: rs) c) =
    result (turn cond variant r c) :: result (renderLoop cond variant rs c1)
  /\ final (renderLoop cond variant (r :: rs) c) =
       final (renderLoop cond variant rs c1)
  /\ trace (renderLoop cond variant (r :: rs) c) =
       trace (turn cond variant r c) ++ trace (renderLoop cond variant rs c1).
Proof.
  cbv zeta. unfold renderLoop. cbn [forEach].
  fold (turn cond variant r). rewrite run_bind, run_bind.
  unfold result, final, trace, ret. cbn [fst snd]. rewrite app_nil_r.
  repeat split.
Qed.

Lemma last_cons {A} (a d : A) l : last (a :: l) d = last l a.
Proof.
  revert a d. induction l as [|b l IH]; intros a d; [reflexivity|].
  change (last (a :: b :: l) d) with (last (b :: l) d).
  rewrite (IH b d), (IH b a). reflexivity.
Qed.

Lemma renderLoop_spec cond variant rs : forall c,
  let out := renderLoop cond variant rs c in
  result out =
    map (fun r => if drawnBy cond variant r then resolved c r else r) rs
  /\ calls (trace out) = map (fun r => (r, variant)) (filter cond rs)
  /\ draws (trace out) =
       map (fun r => (resolved c r, variant)) (filter (drawnBy cond variant) rs)
  /\ uploads (trace out) = uploadsFrom c (drawnPrograms (trace out))
  /\ sameSettings c (final out)
  /\ globalUniformsNeedUpdate (final out) =
       match draws (trace out) with
       | [] => globalUniformsNeedUpdate c
       | _ => false
       end
  /\ currentProgramId (final out) =
       last (drawnPrograms (trace out)) (currentProgramId c).
Proof.
  induction rs as [|r rs IH]; intros c; cbv zeta.
  - cbn. unfold uploadsFrom. destruct (globalUniformsNeedUpdate c);
      repeat split.
  - destruct (renderLoop_cons cond variant r rs c) as (E1 & E2 & E3).
    rewrite E1, E2, E3. clear E1 E2 E3.
    set (body := turn cond variant r).
    set (c1 := final (body c)).
    assert (Hbody :
      result (body c) = (if drawnBy cond variant r then resolved c r else r)
      /\ calls (trace (body c)) = (if cond r then [(r, variant)] else [])
      /\ draws (trace (body c)) =
           (if drawnBy cond variant r then [(resolved c r, variant)] else [])
      /\ uploads (trace (body c)) =
           (if drawnBy cond variant r
            then if negb (Z.eqb (currentProgramId c)
                            (programOf (resolved c r) variant))
                    || globalUniformsNeedUpdate c
                 then [programOf (resolved c r) variant] else []
            else [])
      /\ sameSettings c c1
      /\ globalUniformsNeedUpdate c1 =
           (if drawnBy cond variant r then false else globalUniformsNeedUpdate c)
      /\ currentProgramId c1 =
           (if drawnBy cond variant r
            then programOf (resolved c r) variant else currentProgramId c)).
    { unfold c1, body, turn, drawnBy. destruct (cond r); cbn [andb].
      - rewrite renderObject_result, renderObject_calls, renderObject_draws,
          renderObject_uploads.
        destruct (renderObject_final r variant c) as (S1 & S2 & S3).
        repeat (split; [reflexivity|]).
        split; [exact S1|]. split; [exact S2|exact S3].
      - repeat (split; [reflexivity|]).
        split; [apply sameSettings_refl|]. split; reflexivity. }
    destruct Hbody as (B1 & B2 & B3 & B4 & B5 & B6 & B7).
    specialize (IH c1). cbv zeta in IH.
    destruct IH as (I1 & I2 & I3 & I4 & I5 & I6 & I7).
    pose proof (sameSettings_clip _ _ B5) as Hclip.
    assert (DP : drawnPrograms (trace (body c)) =
                 if drawnBy cond variant r
                 then [programOf (resolved c r) variant] else []).
    { unfold drawnPrograms. rewrite B3.
      destruct (drawnBy cond variant r); reflexivity. }
    rewrite calls_app, draws_app, uploads_app, drawnPrograms_app.
    split; [|split; [|split; [|split; [|split; [|split]]]]].
    + rewrite B1, I1. cbn [map]. f_equal. apply map_ext. intros a.
      rewrite (resolved_ext c c1 a Hclip). reflexivity.
    + rewrite B2, I2. cbn [filter]. destruct (cond r); reflexivity.
    + rewrite B3, I3. cbn [filter].
      rewrite (map_ext _ _
        (fun a => f_equal (fun x => (x, variant)) (resolved_ext c c1 a Hclip))).
      destruct (drawnBy cond variant r); reflexivity.
    + rewrite B4, I4, DP. unfold uploadsFrom. rewrite B6, B7.
      destruct (drawnBy cond variant r); cbn [app].
      * destruct (globalUniformsNeedUpdate c); cbn [runs runs_after].
        -- rewrite orb_true_r. reflexivity.
        -- rewrite orb_false_r.
           destruct (Z.eqb (currentProgramId c)
                       (programOf (resolved c r) variant)); reflexivity.
      * reflexivity.
    + eapply sameSettings_trans; eassumption.
    + rewrite I6, B3, B6. destruct (drawnBy cond variant r); cbn [app].
      * destruct (draws (trace (renderLoop cond variant rs c1))); reflexivity.
      * reflexivity.
    + rewrite I7, DP, B7. destruct (drawnBy cond variant r); cbn [app].
      * symmetry. apply last_cons.
      * reflexivity.
Qed.

(** Runs a command on a context given by its fields: the shared variables
    are computed, the calls left in order. *)
Ltac run_ctx :=
  cbv beta iota zeta delta
    [bind emit modify gets ret result final trace fst snd
     set_p set_style set_clip set_viewport set_bgColor
     set_transparentBackground set_sharedTexturesList set_globalUniforms
     set_globalUniformsNeedUpdate set_currentProgramId set_currentRenderItemId
     fragDepth p Renderer.style Renderer.clip viewport bgColor
     transparentBackground sharedTexturesList globalUniforms
     globalUniformsNeedUpdate currentProgramId currentRenderItemId];
  cbn [app].

Ltac run_pass :=
  run_ctx;
  match goal with
  | |- context [renderLoop ?a ?b ?c ?d] =>
      destruct (renderLoop a b c d) as [[? ?] ?]
  end;
  cbn [app]; rewrite ?app_nil_r.

(** The calls [updateInternal] makes, and what it leaves of the context. *)
Lemma updateInternal_spec g cam tex wb c :
  let out := updateInternal g cam tex wb c in
  trace out =
    [state_enable SCISSOR_TEST; state_colorMask true true true true;
     gl_viewport (viewport c); gl_scissor (viewport c)]
  /\ globalUniformsNeedUpdate (final out) = true
  /\ currentProgramId (final out) = currentProgramId c
  /\ Renderer.clip (final out) = Renderer.clip c
  /\ fragDepth (final out) = fragDepth c
  /\ transparentBackground (final out) = transparentBackground c
  /\ p (final out) = p c.
Proof.
  destruct c. cbv zeta. unfold updateInternal. run_ctx. repeat split.
Qed.

Lemma renderDepth_run g cam tex c :
  let U := updateInternal g cam tex false c in
  let L := renderLoop (fun _ => true) "depth" (renderables g) (final U) in
  renderDepth g cam tex c =
    (mkGroup (view g) (result L), final L,
     [state_disable BLEND; state_enable DEPTH_TEST; state_depthMask true]
     ++ trace U ++ trace L).
Proof.
  destruct c. cbv zeta. unfold renderDepth, updateInternal. run_pass. reflexivity.
Qed.

Lemma renderPick_run g cam variant tex c :
  let U := updateInternal g cam tex false c in
  let L := renderLoop (fun r => negb (colorOnly (state r))) variant
             (renderables g) (final U) in
  renderPick g cam variant tex c =
    (mkGroup (view g) (result L), final L,
     [state_disable BLEND; state_enable DEPTH_TEST; state_depthMask true]
     ++ trace U ++ trace L).
Proof.
  destruct c. cbv zeta. unfold renderPick, updateInternal. run_pass. reflexivity.
Qed.

Lemma renderBlendedOpaque_run g cam tex c :
  let U := updateInternal g cam tex false c in
  let L := renderLoop (fun r => opaque (state r)) "colorBlended"
             (renderables g) (final U) in
  renderBlendedOpaque g cam tex c =
    (mkGroup (view g) (result L), final L,
     [state_disable BLEND; state_enable DEPTH_TEST; state_depthMask true]
     ++ trace U ++ trace L).
Proof.
  destruct c. cbv zeta. unfold renderBlendedOpaque, updateInternal. run_pass. reflexivity.
Qed.

Lemma renderBlendedVolume_run g cam tex c :
  let U := updateInternal g cam tex false c in
  let L := renderLoop (fun _ => true) "colorBlended"
             (renderables g) (final U) in
  renderBlendedVolume g cam tex c =
    (mkGroup (view g) (result L), final L,
     [state_blendFunc ONE ONE_MINUS_SRC_ALPHA; state_enable BLEND]
     ++ trace U ++ trace L).
Proof.
  destruct c. cbv zeta. unfold renderBlendedVolume, updateInternal. run_pass. reflexivity.
Qed.

Lemma renderWboitOpaque_run g cam tex c :
  let U := updateInternal g cam tex false c in
  let L := renderLoop isWboitOpaque "colorWboit" (renderables g) (final U) in
  renderWboitOpaque g cam tex c =
    (mkGroup (view g) (result L), final L,
     [state_disable BLEND; state_enable DEPTH_TEST; state_depthMask true]
     ++ trace U ++ trace L).
Proof.
  destruct c. cbv zeta. unfold renderWboitOpaque, updateInternal. run_pass. reflexivity.
Qed.

Lemma renderWboitTransparent_run g cam tex c :
  let U := updateInternal g cam tex true c in
  let L := renderLoop isWboitTransparent "colorWboit" (renderables g)
             (final U) in
  renderWboitTransparent g cam tex c =
    (mkGroup (view g) (result L), final L, trace U ++ trace L).
Proof.
  destruct c. cbv zeta. unfold renderWboitTransparent, updateInternal. run_pass. reflexivity.
Qed.

Lemma renderBlendedTransparent_run g cam tex c :
  let U := updateInternal g cam tex false c in
  let L1 := renderLoop
              (fun r => negb (opaque (state r)) && writeDepth (state r))
              "colorBlended" (renderables g) (final U) in
  let L2 := renderLoop
              (fun r => negb (opaque (state r)) && negb (writeDepth (state r)))
              "colorBlended" (result L1) (final L1) in
  renderBlendedTransparent g cam tex c =
    (mkGroup (view g) (result L2), final L2,
     [state_enable DEPTH_TEST] ++ trace U
     ++ [blendSetup c; state_enable BLEND; state_depthMask true]
     ++ trace L1 ++ [state_depthMask false] ++ trace L2).
Proof.
  destruct c as [fd pp st cl vp bg tb txs gu need cur item]. cbv zeta.
  unfold renderBlendedTransparent, blendSetup, updateInternal.
  destruct tb; run_pass; run_pass; reflexivity.
Qed.

Lemma trace_eq {A} (x : A * Ctx * list Event) a c t :
  x = (a, c, t) -> trace x = t.
Proof. intros ->. reflexivity. Qed.

Lemma result_eq {A} (x : A * Ctx * list Event) a c t :
  x = (a, c, t) -> result x = a.
Proof. intros ->. reflexivity. Qed.

Lemma final_eq {A} (x : A * Ctx * list Event) a c t :
  x = (a, c, t) -> final x = c.
Proof. intros ->. reflexivity. Qed.

(** *** Runs of equal consecutive programs *)

Lemma runs_after_app a l1 l2 :
  runs_after a (l1 ++ l2) = runs_after a l1 ++ runs_after (last l1 a) l2.
Proof.
  revert a. induction l1 as [|q l1 IH]; intros a; [reflexivity|].
  rewrite last_cons. cbn [app runs_after]. rewrite IH.
  destruct (Z.eqb a q); reflexivity.
Qed.

Lemma runs_app l1 l2 d :
  runs (l1 ++ l2) =
    runs l1 ++ match l1 with
               | [] => runs l2
               | _ => runs_after (last l1 d) l2
               end.
Proof.
  destruct l1 as [|q l1]; [reflexivity|].
  cbn [app runs]. rewrite runs_after_app, last_cons. reflexivity.
Qed.

Lemma runs_after_length a ps :
  (List.length (runs_after a ps) <= List.length ps)%nat.
Proof.
  revert a. induction ps as [|q ps IH]; intros a; cbn [runs_after]; [lia|].
  specialize (IH q). destruct (Z.eqb a q); cbn [List.length]; lia.
Qed.

Lemma runs_length ps : (List.length (runs ps) <= List.length ps)%nat.
Proof.
  destruct ps as [|q ps]; cbn [runs List.length]; [lia|].
  pose proof (runs_after_length q ps). lia.
Qed.

Lemma runs_after_covers a ps x :
  In x ps -> x = a \/ In x (runs_after a ps).
Proof.
  revert a. induction ps as [|q ps IH]; intros a H; [contradiction|].
  cbn [runs_after]. destruct H as [->|H].
  - destruct (Z.eqb a x) eqn:E.
    + left. symmetry. apply Z.eqb_eq. exact E.
    + right. left. reflexivity.
  - destruct (IH q H) as [->|H'].
    + destruct (Z.eqb a q) eqn:E.
      * left. symmetry. apply Z.eqb_eq. exact E.
      * right. left. reflexivity.
    + destruct (Z.eqb a q); [right; exact H'|right; right; exact H'].
Qed.

Lemma runs_covers ps x : In x ps -> In x (runs ps).
Proof.
  destruct ps as [|q ps]; [contradiction|]. intros [->|H].
  - left. reflexivity.
  - cbn [runs]. destruct (runs_after_covers q ps x H) as [->|H'].
    + left. reflexivity.
    + right. exact H'.
Qed.

Lemma runs_after_sub a ps x : In x (runs_after a ps) -> In x ps.
Proof.
  revert a. induction ps as [|q ps IH]; intros a H; [contradiction|].
  cbn [runs_after] in H. destruct (Z.eqb a q).
  - right. exact (IH q H).
  - destruct H as [->|H]; [left; reflexivity|right; exact (IH q H)].
Qed.

Lemma runs_sub ps x : In x (runs ps) -> In x ps.
Proof.
  destruct ps as [|q ps]; [contradiction|]. intros [->|H].
  - left. reflexivity.
  - right. exact (runs_after_sub q ps x H).
Qed.

(** Between the number of distinct programs and the number of draws; and
    exactly the number of distinct programs when no program comes back
    after another one was bound. *)
Lemma runs_bounds ps :
  (List.length (nodup Z.eq_dec ps) <= List.length (runs ps)
                                   <= List.length ps)%nat
  /\ (NoDup (runs ps) ->
      List.length (runs ps) = List.length (nodup Z.eq_dec ps)).
Proof.
  assert (L : (List.length (nodup Z.eq_dec ps) <= List.length (runs ps))%nat).
  { apply NoDup_incl_length; [apply NoDup_nodup|].
    intros x H. apply runs_covers. apply nodup_In in H. exact H. }
  split; [split; [exact L|apply runs_length]|].
  intros ND. apply Nat.le_antisymm; [|exact L].
  apply NoDup_incl_length; [exact ND|].
  intros x H. apply nodup_In. apply runs_sub. exact H.
Qed.

Lemma updateInternal_quiet g cam tex wb c :
  quiet (trace (updateInternal g cam tex wb c)).
Proof.
  destruct (updateInternal_spec g cam tex wb c) as (T & _). rewrite T.
  repeat split.
Qed.

Lemma drawnPrograms_nil t : draws t = [] -> drawnPrograms t = [].
Proof. unfold drawnPrograms. intros ->. reflexivity. Qed.

(** A loop entered with [globalUniformsNeedUpdate] set uploads once per
    run. *)
Lemma renderLoop_uploads cond variant rs c :
  globalUniformsNeedUpdate c = true ->
  let t := trace (renderLoop cond variant rs c) in
  uploads t = runs (drawnPrograms t).
Proof.
  intros N. cbv zeta.
  destruct (renderLoop_spec cond variant rs c) as (_ & _ & _ & U & _).
  rewrite U. unfold uploadsFrom. rewrite N. reflexivity.
Qed.

Lemma single_loop_uploads pre g cam tex wb cond variant c :
  quiet pre ->
  let U := updateInternal g cam tex wb c in
  let t := pre ++ trace U
           ++ trace (renderLoop cond variant (renderables g) (final U)) in
  uploads t = runs (drawnPrograms t).
Proof.
  intros (_ & Qd & Qu). cbv zeta.
  destruct (updateInternal_quiet g cam tex wb c) as (_ & Ud & Uu).
  destruct (updateInternal_spec g cam tex wb c) as (_ & N & _).
  rewrite !uploads_app, !drawnPrograms_app, Qu, Uu.
  rewrite (drawnPrograms_nil _ Qd), (drawnPrograms_nil _ Ud).
  cbn [app]. apply renderLoop_uploads. exact N.
Qed.

Lemma pass_uploads pass g cam tex c :
  let t := trace (runPass pass g cam tex c) in
  uploads t = runs (drawnPrograms t).
Proof.
  cbv zeta. destruct pass as [v| | | | | |]; cbn [runPass].
  - rewrite (trace_eq _ _ _ _ (renderPick_run g cam v tex c)).
    apply single_loop_uploads. repeat split.
  - rewrite (trace_eq _ _ _ _ (renderDepth_run g cam tex c)).
    apply single_loop_uploads. repeat split.
  - rewrite (trace_eq _ _ _ _ (renderBlendedOpaque_run g cam tex c)).
    apply single_loop_uploads. repeat split.
  - rewrite (trace_eq _ _ _ _ (renderBlendedTransparent_run g cam tex c)).
    set (U := updateInternal g cam tex false c).
    set (L1 := renderLoop _ _ _ (final U)).
    set (L2 := renderLoop _ _ _ (final L1)).
    destruct (updateInternal_quiet g cam tex false c) as (_ & Ud & Uu).
    destruct (updateInternal_spec g cam tex false c) as (_ & N & _).
    fold U in Ud, Uu, N.
    destruct (renderLoop_spec
      (fun r => negb (opaque (state r)) && writeDepth (state r))
      "colorBlended" (renderables g) (final U)) as (_ & _ & _ & U1 & _ & N1 & P1).
    fold L1 in U1, N1, P1.
    destruct (renderLoop_spec
      (fun r => negb (opaque (state r)) && negb (writeDepth (state r)))
      "colorBlended" (result L1) (final L1)) as (_ & _ & _ & U2 & _).
    fold L2 in U2.
    assert (B : uploads [blendSetup c; state_enable BLEND; state_depthMask true] = []
                /\ drawnPrograms [blendSetup c; state_enable BLEND; state_depthMask true] = []).
    { unfold blendSetup. destruct (transparentBackground c); split; reflexivity. }
    destruct B as (B1 & B2).
    rewrite !uploads_app, !drawnPrograms_app, Uu, U1, U2, B1, B2.
    rewrite (drawnPrograms_nil _ Ud).
    cbn [app uploads drawnPrograms draws map].
    unfold uploadsFrom. rewrite N1, P1, N.
    rewrite (runs_app _ _ (currentProgramId (final U))).
    unfold drawnPrograms.
    destruct (draws (trace L1)); reflexivity.
  - rewrite (trace_eq _ _ _ _ (renderBlendedVolume_run g cam tex c)).
    apply single_loop_uploads. repeat split.
  - rewrite (trace_eq _ _ _ _ (renderWboitOpaque_run g cam tex c)).
    apply single_loop_uploads. repeat split.
  - rewrite (trace_eq _ _ _ _ (renderWboitTransparent_run g cam tex c)).
    apply (single_loop_uploads [] g cam tex true). repeat split.
Qed.

(** *** What [renderObject] leaves of a drawable *)

Lemma resolved_state c r : state (resolved c r) = state r.
Proof.
  unfold resolved, resolveClipDefines.
  destruct (noClip (state r)).
  - destruct (negb _); reflexivity.
  - destruct (negb (Nat.eqb _ _)); cbn [fst snd];
      destruct (negb (String.eqb _ _)); reflexivity.
Qed.

Lemma resolved_values c r :
  let v := values r in
  let v' := values (resolved c r) in
  alpha v' = alpha v /\ uAlpha v' = uAlpha v
  /\ transparencyAverage v' = transparencyAverage v
  /\ dRenderMode v' = dRenderMode v
  /\ dPointFilledCircle v' = dPointFilledCircle v
  /\ dXrayShaded v' = dXrayShaded v
  /\ uBackgroundColor v' = uBackgroundColor v.
Proof.
  cbv zeta. unfold resolved, resolveClipDefines.
  destruct (noClip (state r)).
  - destruct (negb _); repeat split.
  - destruct (negb (Nat.eqb _ _)); cbn [fst snd];
      destruct (negb (String.eqb _ _)); repeat split.
Qed.

Lemma passesVisibility_state r r' variant :
  state r' = state r -> passesVisibility r' variant = passesVisibility r variant.
Proof. unfold passesVisibility. intros ->. reflexivity. Qed.

Lemma passesVisibility_color r :
  passesVisibility r "colorBlended" = visible (state r).
Proof.
  unfold passesVisibility. cbn [startsWith_p].
  change (Ascii.eqb "c" "p") with false.
  rewrite andb_false_r, orb_false_r, negb_involutive. reflexivity.
Qed.

Lemma passesVisibility_wboit r :
  passesVisibility r "colorWboit" = visible (state r).
Proof.
  unfold passesVisibility. cbn [startsWith_p].
  change (Ascii.eqb "c" "p") with false.
  rewrite andb_false_r, orb_false_r, negb_involutive. reflexivity.
Qed.

Lemma filter_map_untouched {A} (sel : A -> bool) (f : A -> A) l :
  (forall a, sel (f a) = sel a) ->
  (forall a, sel a = true -> f a = a) ->
  filter sel (map f l) = filter sel l.
Proof.
  intros Hs Hf. induction l as [|a l IH]; [reflexivity|].
  cbn [map filter]. rewrite Hs, IH.
  destruct (sel a) eqn:E; [rewrite (Hf a E)|]; reflexivity.
Qed.

(** The depth-mask calls of a loop are those of its draws. *)
Lemma renderObject_depthMasks r variant c :
  depthMasks (trace (renderObject r variant c)) =
    if passesVisibility r variant
    then depthMasks (drawState (fragDepth c) (resolved c r) variant)
    else [].
Proof.
  destruct (passesVisibility r variant) eqn:V.
  - rewrite (renderObject_drawn r variant c V). unfold trace. cbn [snd].
    cbn [app depthMasks]. rewrite !depthMasks_app.
    destruct (snd (resolveClipDefines (Renderer.clip c) r));
      destruct (negb _); destruct (globalUniformsNeedUpdate c);
      cbn [depthMasks app]; rewrite ?app_nil_r; reflexivity.
  - rewrite (renderObject_skipped r variant c V). reflexivity.
Qed.

Lemma ownDepthMasks_ext c c' variant rs :
  sameSettings c c' ->
  ownDepthMasks c' variant rs = ownDepthMasks c variant rs.
Proof.
  intros S. pose proof (sameSettings_clip _ _ S) as Hc.
  assert (Hf : fragDepth c' = fragDepth c) by (destruct S as (F & _); exact F).
  unfold ownDepthMasks. apply flat_map_ext. intros r.
  rewrite Hf, (resolved_ext c c' r Hc). reflexivity.
Qed.

Lemma renderLoop_depthMasks cond variant rs : forall c,
  depthMasks (trace (renderLoop cond variant rs c)) =
    ownDepthMasks c variant (filter (drawnBy cond variant) rs).
Proof.
  induction rs as [|r rs IH]; intros c; [reflexivity|].
  destruct (renderLoop_cons cond variant r rs c) as (_ & _ & E3).
  rewrite E3, depthMasks_app, IH. clear E3.
  assert (S : sameSettings c (final (turn cond variant r c))).
  { unfold turn. destruct (cond r).
    - destruct (renderObject_final r variant c) as (S & _). exact S.
    - apply sameSettings_refl. }
  rewrite (ownDepthMasks_ext _ _ variant _ S).
  cbn [filter]. unfold drawnBy at 2, turn.
  destruct (cond r); cbn [andb].
  - rewrite renderObject_depthMasks.
    destruct (passesVisibility r variant); [|reflexivity].
    unfold ownDepthMasks. cbn [flat_map]. reflexivity.
  - reflexivity.
Qed.

(** *** Calls and draws of the passes *)

Lemma drawnBy_state cond variant r r' :
  (forall a b, state a = state b -> cond a = cond b) ->
  state r' = state r -> drawnBy cond variant r' = drawnBy cond variant r.
Proof.
  intros Hc Hs. unfold drawnBy.
  rewrite (Hc r' r Hs), (passesVisibility_state r r' variant Hs). reflexivity.
Qed.

Lemma loop_after_updateInternal g cam tex wb cond variant rs c :
  let U := updateInternal g cam tex wb c in
  let L := renderLoop cond variant rs (final U) in
  calls (trace L) = map (fun r => (r, variant)) (filter cond rs)
  /\ draws (trace L) =
       map (fun r => (resolved c r, variant)) (filter (drawnBy cond variant) rs)
  /\ depthMasks (trace L) =
       ownDepthMasks c variant (filter (drawnBy cond variant) rs)
  /\ result L =
       map (fun r => if drawnBy cond variant r then resolved c r else r) rs
  /\ Renderer.clip (final L) = Renderer.clip c
  /\ fragDepth (final L) = fragDepth c.
Proof.
  cbv zeta.
  destruct (updateInternal_spec g cam tex wb c) as (_ & _ & _ & Hc & Hf & _).
  set (cU := final (updateInternal g cam tex wb c)) in *.
  destruct (renderLoop_spec cond variant rs cU) as (R & C & D & _ & S & _).
  rewrite R, C, D, renderLoop_depthMasks.
  split; [reflexivity|]. split.
  { apply map_ext. intros r. rewrite (resolved_ext c cU r Hc). reflexivity. }
  split.
  { unfold ownDepthMasks. apply flat_map_ext. intros r.
    rewrite Hf, (resolved_ext c cU r Hc). reflexivity. }
  split.
  { apply map_ext. intros r. rewrite (resolved_ext c cU r Hc). reflexivity. }
  split.
  - rewrite (sameSettings_clip _ _ S). exact Hc.
  - destruct S as (F & _). rewrite F. exact Hf.
Qed.

Lemma renderBlendedTransparent_parts g cam tex c :
  let U := updateInternal g cam tex false c in
  let L1 := renderLoop writing "colorBlended" (renderables g) (final U) in
  let L2 := renderLoop nonWriting "colorBlended" (result L1) (final L1) in
  let rs := renderables g in
  calls (trace L1) = map (fun r => (r, "colorBlended")) (filter writing rs)
  /\ calls (trace L2) = map (fun r => (r, "colorBlended")) (filter nonWriting rs)
  /\ draws (trace L1) =
       map (fun r => (resolved c r, "colorBlended"))
         (filter (drawnBy writing "colorBlended") rs)
  /\ draws (trace L2) =
       map (fun r => (resolved c r, "colorBlended"))
         (filter (drawnBy nonWriting "colorBlended") rs)
  /\ depthMasks (trace L1) =
       ownDepthMasks c "colorBlended" (filter (drawnBy writing "colorBlended") rs)
  /\ depthMasks (trace L2) =
       ownDepthMasks c "colorBlended"
         (filter (drawnBy nonWriting "colorBlended") rs).
Proof.
  cbv zeta.
  destruct (loop_after_updateInternal g cam tex false writing "colorBlended"
              (renderables g) c) as (C1 & D1 & M1 & R1 & Hc & Hf).
  set (L1 := renderLoop writing "colorBlended" (renderables g)
               (final (updateInternal g cam tex false c))) in *.
  destruct (renderLoop_spec nonWriting "colorBlended" (result L1) (final L1))
    as (_ & C2 & D2 & _).
  rewrite C1, D1, M1, C2, D2, renderLoop_depthMasks, R1.
  set (f := fun r => if drawnBy writing "colorBlended" r then resolved c r else r).
  assert (Fs : forall a, state (f a) = state a).
  { intros a. unfold f. destruct (drawnBy writing "colorBlended" a);
      [apply resolved_state|reflexivity]. }
  assert (Fn : forall a, nonWriting a = true -> f a = a).
  { intros a H. unfold f, drawnBy, writing. unfold nonWriting in H.
    destruct (opaque (state a)), (writeDepth (state a)); try discriminate H;
      reflexivity. }
  assert (E1 : filter nonWriting (map f (renderables g)) =
               filter nonWriting (renderables g)).
  { apply filter_map_untouched; [|exact Fn].
    intros a. unfold nonWriting. rewrite Fs. reflexivity. }
  assert (E2 : filter (drawnBy nonWriting "colorBlended") (map f (renderables g)) =
               filter (drawnBy nonWriting "colorBlended") (renderables g)).
  { apply filter_map_untouched.
    - intros a. apply drawnBy_state; [|apply Fs].
      intros x y H. unfold nonWriting. rewrite H. reflexivity.
    - intros a H. apply Fn. unfold drawnBy in H.
      apply andb_true_iff in H. tauto. }
  rewrite E1, E2.
  repeat (split; [reflexivity|]).
  split.
  { apply map_ext. intros r. rewrite (resolved_ext c (final L1) r Hc). reflexivity. }
  split; [reflexivity|].
  unfold ownDepthMasks. apply flat_map_ext. intros r.
  rewrite Hf, (resolved_ext c (final L1) r Hc). reflexivity.
Qed.

Lemma drawnBy_color_filter cond rs :
  filter (drawnBy cond "colorBlended") rs =
  filter (fun r => cond r && visible (state r)) rs.
Proof.
  apply filter_ext. intros r. unfold drawnBy.
  rewrite passesVisibility_color. reflexivity.
Qed.

(** C5.  [renderBlendedTransparent] sets the depth mask to true, draws the
    visible non-opaque drawables that write depth, sets the depth mask to
    false and then draws the visible non-opaque drawables that do not:
    every draw of the first kind precedes every draw of the second.
    Nothing before the first sub-pass draws or touches the depth mask, and
    inside a sub-pass the depth mask is only touched by the state a drawn
    drawable sets for itself. *)
Theorem C5_depth_writing_transparent_first : forall g cam tex c,
  exists pre first second,
    trace (renderBlendedTransparent g cam tex c) =
      pre ++ [state_depthMask true] ++ first
          ++ [state_depthMask false] ++ second
    /\ draws pre = [] /\ depthMasks pre = []
    /\ draws first =
         map (fun r => (resolved c r, "colorBlended"))
           (filter (fun r => writing r && visible (state r)) (renderables g))
    /\ draws second =
         map (fun r => (resolved c r, "colorBlended"))
           (filter (fun r => nonWriting r && visible (state r)) (renderables g))
    /\ depthMasks first =
         ownDepthMasks c "colorBlended"
           (filter (fun r => writing r && visible (state r)) (renderables g))
    /\ depthMasks second =
         ownDepthMasks c "colorBlended"
           (filter (fun r => nonWriting r && visible (state r)) (renderables g)).
Proof.
  intros g cam tex c.
  pose proof (renderBlendedTransparent_run g cam tex c) as R. cbv zeta in R.
  pose proof (renderBlendedTransparent_parts g cam tex c) as P. cbv zeta in P.
  destruct P as (_ & _ & D1 & D2 & M1 & M2).
  rewrite !drawnBy_color_filter in D1, D2, M1, M2.
  destruct (updateInternal_spec g cam tex false c) as (T & _).
  destruct (updateInternal_quiet g cam tex false c) as (_ & Ud & _).
  set (U := updateInternal g cam tex false c) in *.
  set (L1 := renderLoop writing "colorBlended" (renderables g) (final U)) in *.
  set (L2 := renderLoop nonWriting "colorBlended" (result L1) (final L1)) in *.
  exists ([state_enable DEPTH_TEST] ++ trace U
          ++ [blendSetup c; state_enable BLEND]),
         (trace L1), (trace L2).
  split.
  { rewrite (trace_eq _ _ _ _ R). rewrite <- !app_assoc. reflexivity. }
  split.
  { rewrite !draws_app, Ud. unfold blendSetup.
    destruct (transparentBackground c); reflexivity. }
  split.
  { rewrite !depthMasks_app, T. unfold blendSetup.
    destruct (transparentBackground c); reflexivity. }
  repeat split; assumption.
Qed.

Lemma in_filter_map_state {A} (sel : GraphicsRenderable -> bool)
    (f : GraphicsRenderable -> GraphicsRenderable) (variant : A) rs d :
  (forall r, state (f r) = state r) ->
  In d (map (fun r => (f r, variant)) (filter sel rs)) ->
  exists r, sel r = true /\ state (fst d) = state r.
Proof.
  intros Hs H. apply in_map_iff in H. destruct H as (r & <- & H).
  apply filter_In in H. exists r. split; [tauto|]. apply Hs.
Qed.

(** C9.  In the simple blended path the opaque phase hands to
    [renderObject], and draws, only drawables whose opaque flag is true,
    the transparent phase only drawables whose opaque flag is false; so no
    draw of a group is issued in both phases of [renderBlended]. *)
Theorem C9_blended_phases_partition : forall g cam tex c,
  let O := renderBlendedOpaque g cam tex c in
  let T := renderBlendedTransparent (result O) cam tex (final O) in
  trace (renderBlended g cam tex c) = trace O ++ trace T
  /\ draws (trace O) =
       map (fun r => (resolved c r, "colorBlended"))
         (filter (fun r => opaque (state r) && visible (state r)) (renderables g))
  /\ draws (trace T) =
       map (fun r => (resolved c r, "colorBlended"))
         (filter (fun r => writing r && visible (state r)) (renderables g))
       ++ map (fun r => (resolved c r, "colorBlended"))
         (filter (fun r => nonWriting r && visible (state r)) (renderables g))
  /\ (forall d, In d (calls (trace O)) -> opaque (state (fst d)) = true)
  /\ (forall d, In d (calls (trace T)) -> opaque (state (fst d)) = false)
  /\ (forall d, In d (draws (trace O)) -> opaque (state (fst d)) = true)
  /\ (forall d, In d (draws (trace T)) -> opaque (state (fst d)) = false)
  /\ (forall d, ~ (In d (draws (trace O)) /\ In d (draws (trace T)))).
Proof.
  intros g cam tex c. cbv zeta.
  set (O := renderBlendedOpaque g cam tex c).
  set (T := renderBlendedTransparent (result O) cam tex (final O)).
  (* the opaque phase *)
  pose proof (renderBlendedOpaque_run g cam tex c) as RO. cbv zeta in RO.
  destruct (loop_after_updateInternal g cam tex false
              (fun r => opaque (state r)) "colorBlended" (renderables g) c)
    as (CO & DO & _ & RsO & HcO & _).
  destruct (updateInternal_quiet g cam tex false c) as (UcO & UdO & _).
  assert (EO : calls (trace O) =
               map (fun r => (r, "colorBlended"))
                 (filter (fun r => opaque (state r)) (renderables g))
               /\ draws (trace O) =
               map (fun r => (resolved c r, "colorBlended"))
                 (filter (fun r => opaque (state r) && visible (state r))
                    (renderables g))).
  { unfold O. rewrite (trace_eq _ _ _ _ RO).
    rewrite !calls_app, !draws_app, UcO, UdO, CO, DO, drawnBy_color_filter.
    split; reflexivity. }
  destruct EO as (EOc & EOd).
  assert (ResO : result O =
            mkGroup (view g)
              (map (fun r => if drawnBy (fun r => opaque (state r)) "colorBlended" r
                             then resolved c r else r) (renderables g))
          /\ Renderer.clip (final O) = Renderer.clip c).
  { unfold O. rewrite (result_eq _ _ _ _ RO), (final_eq _ _ _ _ RO).
    rewrite RsO. split; [reflexivity|exact HcO]. }
  destruct ResO as (ResO & ClipO).
  (* the transparent phase, on the group the opaque phase left *)
  pose proof (renderBlendedTransparent_run (result O) cam tex (final O)) as RT.
  cbv zeta in RT.
  pose proof (renderBlendedTransparent_parts (result O) cam tex (final O)) as P.
  cbv zeta in P. destruct P as (C1 & C2 & D1 & D2 & _).
  destruct (updateInternal_quiet (result O) cam tex false (final O))
    as (UcT & UdT & _).
  set (f := fun r => if drawnBy (fun r => opaque (state r)) "colorBlended" r
                     then resolved c r else r) in *.
  assert (Fs : forall a, state (f a) = state a).
  { intros a. unfold f. destruct (drawnBy _ "colorBlended" a);
      [apply resolved_state|reflexivity]. }
  assert (Fn : forall a, opaque (state a) = false -> f a = a).
  { intros a H. unfold f, drawnBy. rewrite H. reflexivity. }
  assert (Untouched : forall sel,
            (forall a b, state a = state b -> sel a = sel b) ->
            (forall a, sel a = true -> opaque (state a) = false) ->
            filter sel (renderables (result O)) = filter sel (renderables g)).
  { intros sel Hst Hop. rewrite ResO. cbn [renderables].
    apply filter_map_untouched.
    - intros a. apply Hst. apply Fs.
    - intros a H. apply Fn. apply Hop. exact H. }
  assert (Ew : forall a b, state a = state b -> writing a = writing b).
  { intros a b H. unfold writing. rewrite H. reflexivity. }
  assert (En : forall a b, state a = state b -> nonWriting a = nonWriting b).
  { intros a b H. unfold nonWriting. rewrite H. reflexivity. }
  assert (Ow : forall a, writing a = true -> opaque (state a) = false).
  { intros a. unfold writing. destruct (opaque (state a)); [discriminate|reflexivity]. }
  assert (On : forall a, nonWriting a = true -> opaque (state a) = false).
  { intros a. unfold nonWriting. destruct (opaque (state a)); [discriminate|reflexivity]. }
  rewrite !drawnBy_color_filter in D1, D2.
  rewrite (Untouched writing Ew Ow) in C1.
  rewrite (Untouched nonWriting En On) in C2.
  rewrite (Untouched (fun r => writing r && visible (state r))) in D1;
    [|intros a b H; rewrite (Ew a b H), H; reflexivity
     |intros a H; apply andb_true_iff in H; apply Ow; tauto].
  rewrite (Untouched (fun r => nonWriting r && visible (state r))) in D2;
    [|intros a b H; rewrite (En a b H), H; reflexivity
     |intros a H; apply andb_true_iff in H; apply On; tauto].
  rewrite (map_ext _ _ (fun a => f_equal (fun x => (x, "colorBlended"))
                          (resolved_ext c (final O) a ClipO))) in D1, D2.
  assert (ET : calls (trace T) =
               map (fun r => (r, "colorBlended")) (filter writing (renderables g))
               ++ map (fun r => (r, "colorBlended")) (filter nonWriting (renderables g))
               /\ draws (trace T) =
               map (fun r => (resolved c r, "colorBlended"))
                 (filter (fun r => writing r && visible (state r)) (renderables g))
               ++ map (fun r => (resolved c r, "colorBlended"))
                 (filter (fun r => nonWriting r && visible (state r)) (renderables g))).
  { unfold T. rewrite (trace_eq _ _ _ _ RT).
    rewrite !calls_app, !draws_app, UcT, UdT.
    change (fun r => negb (opaque (state r)) && writeDepth (state r)) with writing.
    change (fun r => negb (opaque (state r)) && negb (writeDepth (state r)))
      with nonWriting.
    rewrite C1, C2, D1, D2. unfold blendSetup.
    destruct (transparentBackground (final O)); split; reflexivity. }
  destruct ET as (ETc & ETd).
  assert (InO : forall d, In d (draws (trace O)) -> opaque (state (fst d)) = true).
  { intros d H. rewrite EOd in H.
    apply (in_filter_map_state _ (resolved c)) in H; [|apply resolved_state].
    destruct H as (r & H & ->). apply andb_true_iff in H. tauto. }
  assert (InT : forall d, In d (draws (trace T)) -> opaque (state (fst d)) = false).
  { intros d H. rewrite ETd in H. apply in_app_or in H.
    destruct H as [H|H];
      apply (in_filter_map_state _ (resolved c)) in H;
      try apply resolved_state; destruct H as (r & H & ->);
      apply andb_true_iff in H; [apply Ow|apply On]; tauto. }
  split.
  { unfold renderBlended. rewrite run_bind. reflexivity. }
  split; [exact EOd|]. split; [exact ETd|].
  split.
  { intros d H. rewrite EOc in H. apply in_map_iff in H.
    destruct H as (r & <- & H). apply filter_In in H. tauto. }
  split.
  { intros d H. rewrite ETc in H. apply in_app_or in H.
    destruct H as [H|H]; apply in_map_iff in H; destruct H as (r & <- & H);
      apply filter_In in H; [apply Ow|apply On]; tauto. }
  split; [exact InO|]. split; [exact InT|].
  intros d (H1 & H2). pose proof (InO d H1) as A. pose proof (InT d H2) as B.
  rewrite A in B. discriminate B.
Qed.

(** *** Comparisons of JS numbers *)

Lemma strict_eq_not_lt x y : strict_eq x y = true -> lt x y = false.
Proof.
  unfold strict_eq, lt. rewrite eqb_spec, ltb_spec. unfold SFeqb, SFltb.
  destruct (SFcompare (Prim2SF x) (Prim2SF y)) as [[]|]; congruence.
Qed.

(** A number that is [=== 0] is not [=== 1] and not [> 0]. *)
Lemma strict_eq_zero x :
  strict_eq x 0%float = true ->
  strict_ne x 1%float = true /\ gt x 0%float = false.
Proof.
  unfold strict_eq, strict_ne, gt. rewrite !eqb_spec, ltb_spec.
  unfold SFeqb, SFltb.
  change (Prim2SF 0) with (S754_zero false).
  destruct (Prim2SF x) as [s|s| |s m e]; cbn [SFcompare].
  - intros _. split; [destruct s|]; reflexivity.
  - destruct s; discriminate.
  - discriminate.
  - destruct s; discriminate.
Qed.

(** *** The two classification conditions of the WBOIT path *)

Lemma isWboitOpaque_iff r :
  isWboitOpaque r = true <->
  strict_eq (wboitAlpha r) 1%float = true
  /\ strict_ne (transparencyAverage (values r)) 1%float = true
  /\ isVolume r = false
  /\ truthy (dPointFilledCircle (values r)) = false
  /\ truthy (dXrayShaded (values r)) = false.
Proof.
  unfold isWboitOpaque. rewrite !andb_true_iff, !negb_true_iff. tauto.
Qed.

Lemma hasBackgroundColor_iff r :
  hasBackgroundColor r = true <-> uBackgroundColor (values r) <> None.
Proof.
  unfold hasBackgroundColor. destruct (uBackgroundColor (values r)).
  - split; [discriminate|reflexivity].
  - split; [discriminate|]. intros H. contradiction H. reflexivity.
Qed.

Lemma isWboitTransparent_iff r :
  isWboitTransparent r = true <-> wboitTransparent_stated r.
Proof.
  unfold isWboitTransparent, wboitTransparent_stated.
  rewrite !orb_true_iff, hasBackgroundColor_iff. tauto.
Qed.

(** C1, as the code has it.  The two conditions overlap: a drawable meets
    both exactly when it meets the opaque one and has an average
    transparency above 0 or a background colour override.  A drawable with
    clamped alpha 1, average transparency 0, not volumetric, not a filled
    circular point, not x-ray shaded and without a background colour
    override meets the opaque condition and not the transparent one. *)
Theorem C1_wboit_conditions_overlap : forall r,
  (isWboitOpaque r = true /\ isWboitTransparent r = true <->
   isWboitOpaque r = true
   /\ (gt (transparencyAverage (values r)) 0%float = true
       \/ uBackgroundColor (values r) <> None))
  /\ (strict_eq (wboitAlpha r) 1%float = true ->
      strict_eq (transparencyAverage (values r)) 0%float = true ->
      isVolume r = false ->
      truthy (dPointFilledCircle (values r)) = false ->
      truthy (dXrayShaded (values r)) = false ->
      uBackgroundColor (values r) = None ->
      isWboitOpaque r = true /\ isWboitTransparent r = false).
Proof.
  intros r. split.
  - split.
    + intros (O & T). split; [exact O|].
      apply isWboitOpaque_iff in O. destruct O as (A & _ & V & P & X).
      apply isWboitTransparent_iff in T.
      destruct T as [T|[T|[T|[T|[T|T]]]]]; try congruence.
      * rewrite (strict_eq_not_lt _ _ A) in T. discriminate.
      * left. exact T.
      * right. exact T.
    + intros (O & H). split; [exact O|].
      apply isWboitTransparent_iff. unfold wboitTransparent_stated. tauto.
  - intros A Z V P X B.
    destruct (strict_eq_zero _ Z) as (N & G).
    split.
    + apply isWboitOpaque_iff. tauto.
    + unfold isWboitTransparent, hasBackgroundColor.
      rewrite (strict_eq_not_lt _ _ A), G, V, P, X, B. reflexivity.
Qed.

(** The plain sample drawable meets every premise of the second part. *)
Lemma C1_witness :
  isWboitOpaque plain = true /\ isWboitTransparent plain = false.
Proof.
  apply (proj2 (C1_wboit_conditions_overlap plain)); reflexivity.
Defined.

(** C1 as stated fails: a fully opaque drawable with average transparency
    0.5 meets both conditions, and so does a drawable with every listed
    property (clamped alpha 1, transparency 0, not volumetric, no filled
    circular point, no x-ray shading) that has a background colour. *)
Lemma C1_counterexample :
  (isWboitOpaque halfTransparent = true
   /\ isWboitTransparent halfTransparent = true)
  /\ (strict_eq (wboitAlpha withBackground) 1%float = true
      /\ strict_eq (transparencyAverage (values withBackground)) 0%float = true
      /\ isVolume withBackground = false
      /\ truthy (dPointFilledCircle (values withBackground)) = false
      /\ truthy (dXrayShaded (values withBackground)) = false
      /\ isWboitOpaque withBackground = true
      /\ isWboitTransparent withBackground = true).
Proof. vm_compute. repeat split. Qed.

Lemma single_loop_calls pre g cam tex wb cond variant c :
  quiet pre ->
  let U := updateInternal g cam tex wb c in
  let t := pre ++ trace U
           ++ trace (renderLoop cond variant (renderables g) (final U)) in
  calls t = map (fun r => (r, variant)) (filter cond (renderables g))
  /\ draws t =
       map (fun r => (resolved c r, variant))
         (filter (drawnBy cond variant) (renderables g)).
Proof.
  intros (Qc & Qd & _). cbv zeta.
  destruct (updateInternal_quiet g cam tex wb c) as (Uc & Ud & _).
  destruct (loop_after_updateInternal g cam tex wb cond variant (renderables g) c)
    as (C & D & _).
  rewrite !calls_app, !draws_app, Qc, Qd, Uc, Ud, C, D. split; reflexivity.
Qed.

Lemma drawnBy_wboit_filter cond rs :
  filter (drawnBy cond "colorWboit") rs =
  filter (fun r => cond r && visible (state r)) rs.
Proof.
  apply filter_ext. intros r. unfold drawnBy.
  rewrite passesVisibility_wboit. reflexivity.
Qed.

(** C2, as the code has it.  [renderWboitOpaque] hands to [renderObject],
    in order, exactly the drawables with clamped alpha 1, average
    transparency different from 1, not volumetric, not a filled circular
    point and not x-ray shaded; of these [renderObject] draws the visible
    ones. *)
Theorem C2_renderWboitOpaque_condition : forall g cam tex c,
  let t := trace (renderWboitOpaque g cam tex c) in
  calls t = map (fun r => (r, "colorWboit")) (filter isWboitOpaque (renderables g))
  /\ draws t =
       map (fun r => (resolved c r, "colorWboit"))
         (filter (fun r => isWboitOpaque r && visible (state r)) (renderables g))
  /\ (forall r,
        isWboitOpaque r = true <->
        strict_eq (wboitAlpha r) 1%float = true
        /\ strict_ne (transparencyAverage (values r)) 1%float = true
        /\ isVolume r = false
        /\ truthy (dPointFilledCircle (values r)) = false
        /\ truthy (dXrayShaded (values r)) = false).
Proof.
  intros g cam tex c. cbv zeta.
  rewrite (trace_eq _ _ _ _ (renderWboitOpaque_run g cam tex c)).
  destruct (single_loop_calls
    [state_disable BLEND; state_enable DEPTH_TEST; state_depthMask true]
    g cam tex false isWboitOpaque "colorWboit" c) as (C & D); [repeat split|].
  rewrite C, D, drawnBy_wboit_filter.
  split; [reflexivity|]. split; [reflexivity|]. exact isWboitOpaque_iff.
Qed.

(** C2 as stated fails: a visible drawable with clamped alpha 1 and
    average transparency 0.5 is handed to [renderObject] and drawn by
    [renderWboitOpaque], though its average transparency is not 0. *)
Lemma C2_counterexample :
  let g := mkGroup Mat4_identity [halfTransparent] in
  let t := trace (renderWboitOpaque g sampleCamera None sampleRenderer) in
  calls t = [(halfTransparent, "colorWboit")]
  /\ draws t = [(halfTransparent, "colorWboit")]
  /\ wboitOpaque_stated halfTransparent = false.
Proof. vm_compute. repeat split. Qed.

(** C3.  [renderWboitTransparent] hands to [renderObject], in order,
    exactly the drawables with clamped alpha below 1, or average
    transparency above 0, or volumetric, or a filled circular point, or
    with a background colour override, or x-ray shaded; of these
    [renderObject] draws the visible ones.  A volumetric drawable meets
    the condition whatever its alpha. *)
Theorem C3_renderWboitTransparent_condition : forall g cam tex c,
  let t := trace (renderWboitTransparent g cam tex c) in
  calls t =
    map (fun r => (r, "colorWboit")) (filter isWboitTransparent (renderables g))
  /\ draws t =
       map (fun r => (resolved c r, "colorWboit"))
         (filter (fun r => isWboitTransparent r && visible (state r))
            (renderables g))
  /\ (forall r, isWboitTransparent r = true <-> wboitTransparent_stated r)
  /\ (forall r, isVolume r = true -> isWboitTransparent r = true).
Proof.
  intros g cam tex c. cbv zeta.
  rewrite (trace_eq _ _ _ _ (renderWboitTransparent_run g cam tex c)).
  destruct (single_loop_calls []
    g cam tex true isWboitTransparent "colorWboit" c) as (C & D); [repeat split|].
  cbn [app] in C, D. rewrite C, D, drawnBy_wboit_filter.
  split; [reflexivity|]. split; [reflexivity|].
  split; [exact isWboitTransparent_iff|].
  intros r V. apply isWboitTransparent_iff. unfold wboitTransparent_stated. tauto.
Qed.

(** C4, as the code has it.  In every pass the global uniforms are
    uploaded at the first draw and at every draw whose program differs
    from the one bound by the draw before: once per maximal run of
    consecutive draws with the same program.  The number of uploads lies
    between the number of distinct programs and the number of draws, and
    equals the number of distinct programs when no program is bound again
    after another one. *)
Theorem C4_uploads_once_per_run : forall pass g cam tex c,
  let t := trace (runPass pass g cam tex c) in
  uploads t = runs (drawnPrograms t)
  /\ (distinctPrograms t <= List.length (uploads t) <= List.length (draws t))%nat
  /\ (NoDup (runs (drawnPrograms t)) ->
      List.length (uploads t) = distinctPrograms t).
Proof.
  intros pass g cam tex c. cbv zeta.
  pose proof (pass_uploads pass g cam tex c) as U. cbv zeta in U.
  rewrite U. split; [reflexivity|].
  destruct (runs_bounds (drawnPrograms (trace (runPass pass g cam tex c))))
    as (B & E).
  unfold distinctPrograms. split; [|exact E].
  assert (L : List.length (drawnPrograms (trace (runPass pass g cam tex c))) =
              List.length (draws (trace (runPass pass g cam tex c))))
    by (unfold drawnPrograms; apply length_map).
  rewrite <- L. exact B.
Qed.

(** C4 as stated fails: three draws whose programs alternate 1, 2, 1 share
    two programs and cause three uploads. *)
Lemma C4_counterexample :
  let t := trace (renderDepth interleaved sampleCamera None sampleRenderer) in
  drawnPrograms t = [1; 2; 1]%Z
  /\ uploads t = [1; 2; 1]%Z
  /\ distinctPrograms t = 2%nat.
Proof. vm_compute. repeat split. Qed.

(** Two draws with one program: the premise of the last part holds and
    one upload serves both. *)
Lemma C4_witness :
  let g := mkGroup Mat4_identity [plain; plain] in
  let t := trace (runPass depth g sampleCamera None sampleRenderer) in
  List.length (uploads t) = distinctPrograms t.
Proof.
  apply (proj2 (proj2 (C4_uploads_once_per_run depth
           (mkGroup Mat4_identity [plain; plain]) sampleCamera None
           sampleRenderer))).
  vm_compute. constructor; [intros []|constructor].
Defined.

(** *** The draw pass: sizes *)

Lemma new_targetsAgree ext wb w h e : targetsAgree (new ext wb w h e).
Proof.
  unfold targetsAgree, new, sized, depthTargetPrimitives, depthTargetVolumes.
  cbn. destruct ext; cbn; repeat split; eexists; repeat split.
Qed.

Lemma setSize_same d :
  setSize (getWidth (colorTarget d)) (getHeight (colorTarget d)) d = (d, []).
Proof. unfold setSize. rewrite !Z.eqb_refl. reflexivity. Qed.

Lemma setSize_targetsAgree w h d :
  targetsAgree d ->
  sized w h (colorTarget (fst (setSize w h d)))
  /\ targetsAgree (fst (setSize w h d)).
Proof.
  intros A. unfold setSize.
  destruct (Z.eqb w (getWidth (colorTarget d))) eqn:Ew;
    destruct (Z.eqb h (getHeight (colorTarget d))) eqn:Eh; cbn [negb orb fst].
  1: { apply Z.eqb_eq in Ew, Eh. subst. split; [split; reflexivity|exact A]. }
  all: unfold targetsAgree, sized, depthTargetPrimitives, depthTargetVolumes in *;
    cbn [colorTarget depthTarget packedDepth depthPrimitives depthVolumes
         RenderTarget_setSize getWidth getHeight];
    destruct A as (_ & A); destruct (packedDepth d);
    [ destruct A as ((tp & -> & _) & (tv & -> & _));
      repeat split; eexists; repeat split
    | destruct A as (Ap & Av);
      destruct (depthPrimitives d); [discriminate Ap|];
      destruct (depthVolumes d); [discriminate Av|]; repeat split ].
Qed.

Lemma resizes_targetsAgree sizes : forall d,
  targetsAgree d -> targetsAgree (resizes sizes d).
Proof.
  induction sizes as [|[w h] sizes IH]; intros d A; [exact A|].
  unfold resizes. cbn [fold_left fst snd]. apply IH.
  apply setSize_targetsAgree. exact A.
Qed.

(** C6.  After [setSize(w, h)] on a draw pass, however it was resized
    before, the color target and the depth target report [(w, h)], and so
    do the two intermediate depth targets, which exist whenever packed
    depth is in use.  A call with the dimensions the color target already
    has returns the pass as it was and makes no call; in particular a
    second identical call does nothing. *)
Theorem C6_setSize_dimensions : forall ext wb w0 h0 enableWboit sizes w h,
  let d := fst (setSize w h (resizes sizes (new ext wb w0 h0 enableWboit))) in
  sized w h (colorTarget d)
  /\ sized w h (depthTarget d)
  /\ match depthTargetPrimitives d with
     | Some t => sized w h t
     | None => packedDepth d = false
     end
  /\ match depthTargetVolumes d with
     | Some t => sized w h t
     | None => packedDepth d = false
     end
  /\ setSize w h d = (d, [])
  /\ (forall d', setSize (getWidth (colorTarget d')) (getHeight (colorTarget d')) d'
                 = (d', [])).
Proof.
  intros ext wb w0 h0 e sizes w h. cbv zeta.
  set (d0 := resizes sizes (new ext wb w0 h0 e)).
  assert (A0 : targetsAgree d0)
    by (apply resizes_targetsAgree, new_targetsAgree).
  destruct (setSize_targetsAgree w h d0 A0) as ((Cw & Ch) & A).
  set (d := fst (setSize w h d0)) in *.
  unfold targetsAgree in A. rewrite Cw, Ch in A.
  destruct A as (D & A).
  split; [split; assumption|]. split; [exact D|].
  unfold depthTargetPrimitives, depthTargetVolumes in *.
  split; [|split; [|split]].
  - destruct (packedDepth d).
    + destruct A as ((tp & -> & S) & _). exact S.
    + destruct A as (Ap & _). destruct (depthPrimitives d);
        [discriminate Ap|reflexivity].
  - destruct (packedDepth d).
    + destruct A as (_ & (tv & -> & S)). exact S.
    + destruct A as (_ & Av). destruct (depthVolumes d);
        [discriminate Av|reflexivity].
  - rewrite <- Cw at 1. rewrite <- Ch at 1. apply setSize_same.
  - exact setSize_same.
Qed.

(** *** The draw pass: the two render paths *)

Lemma andThen_throw a b e : snd a = Some e -> andThen a b = a.
Proof. unfold andThen. intros ->. reflexivity. Qed.

Lemma andThen_done ops b : snd (andThen (done ops) b) = snd b.
Proof. reflexivity. Qed.

Lemma _renderWboit_enabled d cam scene tdb :
  wboitEnabled d = true -> snd (_renderWboit d cam scene tdb) = None.
Proof.
  unfold wboitEnabled, _renderWboit.
  destruct (wboit d) as [[[] ww wh]|]; [reflexivity|discriminate|discriminate].
Qed.

Lemma _renderWboit_disabled d cam scene tdb :
  wboitEnabled d = false ->
  _renderWboit d cam scene tdb = throw "expected wboit to be enabled".
Proof.
  unfold wboitEnabled, _renderWboit.
  destruct (wboit d) as [[[] ww wh]|]; [discriminate|reflexivity|reflexivity].
Qed.

Lemma _render_completes d cam scene helper tdb :
  snd (_render d cam scene helper tdb) = None.
Proof.
  unfold _render. rewrite andThen_done.
  destruct (wboitEnabled d) eqn:E.
  - unfold andThen at 1. rewrite (_renderWboit_enabled d cam scene tdb E).
    reflexivity.
  - reflexivity.
Qed.

(** C8.  [_renderWboit] throws exactly when the order-independent sub-pass
    is absent or not enabled; it throws before making any call, and what
    follows it does not run.  [render] never ends in that throw: [_render]
    enters [_renderWboit] only when [wboitEnabled] holds. *)
Theorem C8_renderWboit_requires_enabled : forall d cam scene tdb,
  (snd (_renderWboit d cam scene tdb) = Some "expected wboit to be enabled"
   <-> wboit d = None \/ exists w, wboit d = Some w /\ enabled w = false)
  /\ (snd (_renderWboit d cam scene tdb) <> None ->
      forall rest,
        andThen (_renderWboit d cam scene tdb) rest =
        ([], Some "expected wboit to be enabled"))
  /\ (forall camera helper transparentBackground,
        snd (render d camera scene helper tdb transparentBackground) = None).
Proof.
  intros d cam scene tdb. split; [|split].
  - unfold _renderWboit. destruct (wboit d) as [[[] ww wh]|]; cbn.
    + split; [discriminate|]. intros [H|(w & H & E)]; [discriminate|].
      injection H as <-. discriminate E.
    + split; [|reflexivity]. intros _. right. eexists. split; reflexivity.
    + split; [|reflexivity]. intros _. left. reflexivity.
  - intros H rest. destruct (wboitEnabled d) eqn:E.
    + rewrite (_renderWboit_enabled d cam scene tdb E) in H. contradiction H.
      reflexivity.
    + rewrite (_renderWboit_disabled d cam scene tdb E). reflexivity.
  - intros camera helper tb. unfold render. rewrite andThen_done.
    destruct camera as [camera|cl cr].
    + apply _render_completes.
    + unfold andThen. rewrite !_render_completes. reflexivity.
Qed.

(** The sample pass built without the sub-pass throws at once. *)
Lemma C8_witness :
  andThen (_renderWboit (new true true 800 600 false) sampleCamera
             (mkScene interleaved interleaved) true)
          (done [webgl gl_flush]) =
  ([], Some "expected wboit to be enabled").
Proof.
  apply (proj1 (proj2 (C8_renderWboit_requires_enabled
           (new true true 800 600 false) sampleCamera
           (mkScene interleaved interleaved) true))).
  discriminate.
Defined.

(** C10.  When the simple blended path renders to the drawing buffer it
    unbinds the framebuffer, clears, renders the opaque primitives and
    then the transparent primitives, and nothing else: no volume
    rendering, no depth-only pass and no depth merge. *)
Theorem C10_blended_to_drawing_buffer : forall d cam scene,
  _renderBlended d cam scene true =
    [ webgl_unbindFramebuffer;
      renderer_clear true;
      renderer_renderBlendedOpaque (primitives scene) cam None;
      renderer_renderBlendedTransparent (primitives scene) cam None ]
  /\ Forall (fun op => ~ isVolumeRendering op
                       /\ ~ isDepthOnlyPass op
                       /\ ~ isDepthMerge op)
       (_renderBlended d cam scene true).
Proof.
  intros d cam scene.
  assert (E : _renderBlended d cam scene true =
              [ webgl_unbindFramebuffer;
                renderer_clear true;
                renderer_renderBlendedOpaque (primitives scene) cam None;
                renderer_renderBlendedTransparent (primitives scene) cam None ]).
  { unfold _renderBlended. cbn [negb app]. reflexivity. }
  split; [exact E|]. rewrite E.
  repeat constructor; intros H; exact H.
Qed.

(** *** Configuration *)

(** [setProps_backgroundColor] leaves the other fields of [p] alone. *)
Lemma setProps_backgroundColor_frame q c :
  let c' := setProps_backgroundColor q c in
  pickingAlphaThreshold (p c') = pickingAlphaThreshold (p c)
  /\ interiorDarkening (p c') = interiorDarkening (p c)
  /\ interiorColorFlag (p c') = interiorColorFlag (p c)
  /\ interiorColor (p c') = interiorColor (p c)
  /\ highlightColor (p c') = highlightColor (p c)
  /\ selectColor (p c') = selectColor (p c)
  /\ Config.style (p c') = Config.style (p c)
  /\ Config.clip (p c') = Config.clip (p c).
Proof.
  cbv zeta. unfold setProps_backgroundColor.
  destruct (backgroundColor_opt q) as [v|]; [|repeat split].
  match goal with |- context [if ?b then _ else _] => destruct b end;
    repeat split.
Qed.

(** [setProps_pickingAlphaThreshold] leaves the other fields of [p] alone. *)
Lemma setProps_pickingAlphaThreshold_frame q c :
  let c' := setProps_pickingAlphaThreshold q c in
  backgroundColor (p c') = backgroundColor (p c)
  /\ interiorDarkening (p c') = interiorDarkening (p c)
  /\ interiorColorFlag (p c') = interiorColorFlag (p c)
  /\ interiorColor (p c') = interiorColor (p c)
  /\ highlightColor (p c') = highlightColor (p c)
  /\ selectColor (p c') = selectColor (p c)
  /\ Config.style (p c') = Config.style (p c)
  /\ Config.clip (p c') = Config.clip (p c).
Proof.
  cbv zeta. unfold setProps_pickingAlphaThreshold.
  destruct (pickingAlphaThreshold_opt q) as [v|]; [|repeat split].
  match goal with |- context [if ?b then _ else _] => destruct b end;
    repeat split.
Qed.

(** [setProps_interiorDarkening] leaves the other fields of [p] alone. *)
Lemma setProps_interiorDarkening_frame q c :
  let c' := setProps_interiorDarkening q c in
  backgroundColor (p c') = backgroundColor (p c)
  /\ pickingAlphaThreshold (p c') = pickingAlphaThreshold (p c)
  /\ interiorColorFlag (p c') = interiorColorFlag (p c)
  /\ interiorColor (p c') = interiorColor (p c)
  /\ highlightColor (p c') = highlightColor (p c)
  /\ selectColor (p c') = selectColor (p c)
  /\ Config.style (p c') = Config.style (p c)
  /\ Config.clip (p c') = Config.clip (p c).
Proof.
  cbv zeta. unfold setProps_interiorDarkening.
  destruct (interiorDarkening_opt q) as [v|]; [|repeat split].
  match goal with |- context [if ?b then _ else _] => destruct b end;
    repeat split.
Qed.

(** [setProps_interiorColorFlag] leaves the other fields of [p] alone. *)
Lemma setProps_interiorColorFlag_frame q c :
  let c' := setProps_interiorColorFlag q c in
  backgroundColor (p c') = backgroundColor (p c)
  /\ pickingAlphaThreshold (p c') = pickingAlphaThreshold (p c)
  /\ interiorDarkening (p c') = interiorDarkening (p c)
  /\ interiorColor (p c') = interiorColor (p c)
  /\ highlightColor (p c') = highlightColor (p c)
  /\ selectColor (p c') = selectColor (p c)
  /\ Config.style (p c') = Config.style (p c)
  /\ Config.clip (p c') = Config.clip (p c).
Proof.
  cbv zeta. unfold setProps_interiorColorFlag.
  destruct (interiorColorFlag_opt q) as [v|]; [|repeat split].
  match goal with |- context [if ?b then _ else _] => destruct b end;
    repeat split.
Qed.

(** [setProps_interiorColor] leaves the other fields of [p] alone. *)
Lemma setProps_interiorColor_frame q c :
  let c' := setProps_interiorColor q c in
  backgroundColor (p c') = backgroundColor (p c)
  /\ pickingAlphaThreshold (p c') = pickingAlphaThreshold (p c)
  /\ interiorDarkening (p c') = interiorDarkening (p c)
  /\ interiorColorFlag (p c') = interiorColorFlag (p c)
  /\ highlightColor (p c') = highlightColor (p c)
  /\ selectColor (p c') = selectColor (p c)
  /\ Config.style (p c') = Config.style (p c)
  /\ Config.clip (p c') = Config.clip (p c).
Proof.
  cbv zeta. unfold setProps_interiorColor.
  destruct (interiorColor_opt q) as [v|]; [|repeat split].
  match goal with |- context [if ?b then _ else _] => destruct b end;
    repeat split.
Qed.

(** [setProps_highlightColor] leaves the other fields of [p] alone. *)
Lemma setProps_highlightColor_frame q c :
  let c' := setProps_highlightColor q c in
  backgroundColor (p c') = backgroundColor (p c)
  /\ pickingAlphaThreshold (p c') = pickingAlphaThreshold (p c)
  /\ interiorDarkening (p c') = interiorDarkening (p c)
  /\ interiorColorFlag (p c') = interiorColorFlag (p c)
  /\ interiorColor (p c') = interiorColor (p c)
  /\ selectColor (p c') = selectColor (p c)
  /\ Config.style (p c') = Config.style (p c)
  /\ Config.clip (p c') = Config.clip (p c).
Proof.
  cbv zeta. unfold setProps_highlightColor.
  destruct (highlightColor_opt q) as [v|]; [|repeat split].
  match goal with |- context [if ?b then _ else _] => destruct b end;
    repeat split.
Qed.

(** [setProps_selectColor] leaves the other fields of [p] alone. *)
Lemma setProps_selectColor_frame q c :
  let c' := setProps_selectColor q c in
  backgroundColor (p c') = backgroundColor (p c)
  /\ pickingAlphaThreshold (p c') = pickingAlphaThreshold (p c)
  /\ interiorDarkening (p c') = interiorDarkening (p c)
  /\ interiorColorFlag (p c') = interiorColorFlag (p c)
  /\ interiorColor (p c') = interiorColor (p c)
  /\ highlightColor (p c') = highlightColor (p c)
  /\ Config.style (p c') = Config.style (p c)
  /\ Config.clip (p c') = Config.clip (p c).
Proof.
  cbv zeta. unfold setProps_selectColor.
  destruct (selectColor_opt q) as [v|]; [|repeat split].
  match goal with |- context [if ?b then _ else _] => destruct b end;
    repeat split.
Qed.

(** [setProps_style] leaves the other fields of [p] alone. *)
Lemma setProps_style_frame q c :
  let c' := setProps_style q c in
  backgroundColor (p c') = backgroundColor (p c)
  /\ pickingAlphaThreshold (p c') = pickingAlphaThreshold (p c)
  /\ interiorDarkening (p c') = interiorDarkening (p c)
  /\ interiorColorFlag (p c') = interiorColorFlag (p c)
  /\ interiorColor (p c') = interiorColor (p c)
  /\ highlightColor (p c') = highlightColor (p c)
  /\ selectColor (p c') = selectColor (p c)
  /\ Config.clip (p c') = Config.clip (p c).
Proof.
  cbv zeta. unfold setProps_style.
  destruct (style_opt q) as [v|]; [|repeat split].
  repeat split.
Qed.

(** [setProps_clip] leaves the other fields of [p] alone. *)
Lemma setProps_clip_frame q c :
  let c' := setProps_clip q c in
  backgroundColor (p c') = backgroundColor (p c)
  /\ pickingAlphaThreshold (p c') = pickingAlphaThreshold (p c)
  /\ interiorDarkening (p c') = interiorDarkening (p c)
  /\ interiorColorFlag (p c') = interiorColorFlag (p c)
  /\ interiorColor (p c') = interiorColor (p c)
  /\ highlightColor (p c') = highlightColor (p c)
  /\ selectColor (p c') = selectColor (p c)
  /\ Config.style (p c') = Config.style (p c).
Proof.
  cbv zeta. unfold setProps_clip.
  destruct (clip_opt q) as [v|]; [|repeat split].
  match goal with |- context [if ?b then _ else _] => destruct b end;
    repeat split.
Qed.


(** What each step stores in its own field. *)
Lemma setProps_backgroundColor_own q c v :
  backgroundColor_opt q = Some v ->
  backgroundColor (p (setProps_backgroundColor q c)) = v.
Proof.
  unfold setProps_backgroundColor. intros ->.
  destruct (Z.eqb v (backgroundColor (p c))) eqn:E; cbn [negb].
  - symmetry. apply Z.eqb_eq. exact E.
  - reflexivity.
Qed.

Lemma setProps_pickingAlphaThreshold_own q c v :
  pickingAlphaThreshold_opt q = Some v ->
  strict_ne v (pickingAlphaThreshold (p c)) = true ->
  pickingAlphaThreshold (p (setProps_pickingAlphaThreshold q c)) = v.
Proof.
  unfold setProps_pickingAlphaThreshold. intros -> ->. reflexivity.
Qed.

Lemma setProps_interiorDarkening_own q c v :
  interiorDarkening_opt q = Some v ->
  strict_ne v (interiorDarkening (p c)) = true ->
  interiorDarkening (p (setProps_interiorDarkening q c)) = v.
Proof.
  unfold setProps_interiorDarkening. intros -> ->. reflexivity.
Qed.

Lemma setProps_interiorColorFlag_own q c v :
  interiorColorFlag_opt q = Some v ->
  interiorColorFlag (p (setProps_interiorColorFlag q c)) = v.
Proof.
  unfold setProps_interiorColorFlag. intros ->.
  destruct (Bool.eqb v (interiorColorFlag (p c))) eqn:E; cbn [negb].
  - symmetry. apply Bool.eqb_prop. exact E.
  - reflexivity.
Qed.

Lemma setProps_interiorColor_own q c v :
  interiorColor_opt q = Some v ->
  interiorColor (p (setProps_interiorColor q c)) = v.
Proof.
  unfold setProps_interiorColor. intros ->.
  destruct (Z.eqb v (interiorColor (p c))) eqn:E; cbn [negb].
  - symmetry. apply Z.eqb_eq. exact E.
  - reflexivity.
Qed.

Lemma setProps_highlightColor_own q c v :
  highlightColor_opt q = Some v ->
  highlightColor (p (setProps_highlightColor q c)) = v.
Proof.
  unfold setProps_highlightColor. intros ->.
  destruct (Z.eqb v (highlightColor (p c))) eqn:E; cbn [negb].
  - symmetry. apply Z.eqb_eq. exact E.
  - reflexivity.
Qed.

Lemma setProps_selectColor_own q c v :
  selectColor_opt q = Some v ->
  selectColor (p (setProps_selectColor q c)) = v.
Proof.
  unfold setProps_selectColor. intros ->.
  destruct (Z.eqb v (selectColor (p c))) eqn:E; cbn [negb].
  - symmetry. apply Z.eqb_eq. exact E.
  - reflexivity.
Qed.

Lemma setProps_style_own q c v :
  style_opt q = Some v -> Config.style (p (setProps_style q c)) = v.
Proof. unfold setProps_style. intros ->. reflexivity. Qed.

Lemma setProps_clip_own q c v :
  clip_opt q = Some v ->
  deepEqual v (Config.clip (p c)) = false ->
  Config.clip (p (setProps_clip q c)) = v.
Proof. unfold setProps_clip. intros -> ->. reflexivity. Qed.

(** Reading [props] after [setProps]: a colour, a flag or a style that was
    given is read back; a number that was given and is [!==] the old one
    is read back; a clip configuration that was given and is not
    [deepEqual] to the old one is read back. *)
Lemma setProps_roundtrip c q :
  let pr := props (setProps q c) in
  (forall v, backgroundColor_opt q = Some v -> backgroundColor pr = v)
  /\ (forall v, pickingAlphaThreshold_opt q = Some v ->
        strict_ne v (pickingAlphaThreshold (props c)) = true ->
        pickingAlphaThreshold pr = v)
  /\ (forall v, interiorDarkening_opt q = Some v ->
        strict_ne v (interiorDarkening (props c)) = true ->
        interiorDarkening pr = v)
  /\ (forall v, interiorColorFlag_opt q = Some v -> interiorColorFlag pr = v)
  /\ (forall v, interiorColor_opt q = Some v -> interiorColor pr = v)
  /\ (forall v, highlightColor_opt q = Some v -> highlightColor pr = v)
  /\ (forall v, selectColor_opt q = Some v -> selectColor pr = v)
  /\ (forall v, style_opt q = Some v -> Config.style pr = v)
  /\ (forall v, clip_opt q = Some v ->
        deepEqual v (Config.clip (props c)) = false ->
        Config.clip pr = v).
Proof.
  cbv zeta. unfold props, setProps. cbv zeta.
  set (c1 := setProps_backgroundColor q c).
  set (c2 := setProps_pickingAlphaThreshold q c1).
  set (c3 := setProps_interiorDarkening q c2).
  set (c4 := setProps_interiorColorFlag q c3).
  set (c5 := setProps_interiorColor q c4).
  set (c6 := setProps_highlightColor q c5).
  set (c7 := setProps_selectColor q c6).
  set (c8 := setProps_style q c7).
  set (c9 := setProps_clip q c8).
  pose proof (setProps_backgroundColor_frame q c) as F1.
  pose proof (setProps_pickingAlphaThreshold_frame q c1) as F2.
  pose proof (setProps_interiorDarkening_frame q c2) as F3.
  pose proof (setProps_interiorColorFlag_frame q c3) as F4.
  pose proof (setProps_interiorColor_frame q c4) as F5.
  pose proof (setProps_highlightColor_frame q c5) as F6.
  pose proof (setProps_selectColor_frame q c6) as F7.
  pose proof (setProps_style_frame q c7) as F8.
  pose proof (setProps_clip_frame q c8) as F9.
  cbv zeta in F1, F2, F3, F4, F5, F6, F7, F8, F9.
  fold c1 in F1. fold c2 in F2. fold c3 in F3. fold c4 in F4. fold c5 in F5.
  fold c6 in F6. fold c7 in F7. fold c8 in F8. fold c9 in F9.
  decompose [and] F1. decompose [and] F2. decompose [and] F3.
  decompose [and] F4. decompose [and] F5. decompose [and] F6.
  decompose [and] F7. decompose [and] F8. decompose [and] F9.
  clear F1 F2 F3 F4 F5 F6 F7 F8 F9.
  repeat split; intros v Hv.
  - pose proof (setProps_backgroundColor_own q c v Hv) as O. fold c1 in O.
    congruence.
  - intros Hn.
    pose proof (setProps_pickingAlphaThreshold_own q c1 v Hv) as O.
    fold c2 in O. rewrite <- O; [congruence|]. rewrite <- Hn. f_equal.
    congruence.
  - intros Hn.
    pose proof (setProps_interiorDarkening_own q c2 v Hv) as O.
    fold c3 in O. rewrite <- O; [congruence|]. rewrite <- Hn. f_equal.
    congruence.
  - pose proof (setProps_interiorColorFlag_own q c3 v Hv) as O. fold c4 in O.
    congruence.
  - pose proof (setProps_interiorColor_own q c4 v Hv) as O. fold c5 in O.
    congruence.
  - pose proof (setProps_highlightColor_own q c5 v Hv) as O. fold c6 in O.
    congruence.
  - pose proof (setProps_selectColor_own q c6 v Hv) as O. fold c7 in O.
    congruence.
  - pose proof (setProps_style_own q c7 v Hv) as O. fold c8 in O.
    congruence.
  - intros Hn.
    pose proof (setProps_clip_own q c8 v Hv) as O. fold c9 in O.
    apply O. rewrite <- Hn. f_equal. congruence.
Qed.

(** *** Uniform cells *)

Lemma cell_modify_commute n m f f' g :
  String.eqb n m = false ->
  cell_modify n f (cell_modify m f' g) = cell_modify m f' (cell_modify n f g).
Proof.
  intros D. induction g as [|[k c] g IH]; [reflexivity|].
  cbn [cell_modify].
  destruct (String.eqb k m) eqn:Em; destruct (String.eqb k n) eqn:En;
    cbn [cell_modify]; rewrite ?Em, ?En; try reflexivity.
  - apply String.eqb_eq in Em, En. subst. rewrite String.eqb_refl in D.
    discriminate D.
  - rewrite IH. reflexivity.
Qed.

(** A settled cell stays settled when another cell is written. *)
Lemma settled_other n x m f g :
  String.eqb n m = false -> settled n x g -> settled n x (cell_modify m f g).
Proof.
  unfold settled, uniform_updateIfChanged. intros D S.
  rewrite cell_modify_commute by exact D. rewrite S. reflexivity.
Qed.

Lemma updateIfChanged_again c x :
  isNumber x ->
  ValueCell_updateIfChanged differs
    (ValueCell_updateIfChanged differs c (U_number x)) (U_number x) =
  ValueCell_updateIfChanged differs c (U_number x).
Proof.
  unfold isNumber, strict_eq. intros N. unfold ValueCell_updateIfChanged.
  destruct (differs (cell_value c) (U_number x)) eqn:D.
  - unfold ValueCell_update at 1. cbn [cell_value differs].
    unfold strict_ne. rewrite N. reflexivity.
  - rewrite D. reflexivity.
Qed.

(** Writing a number with [updateIfChanged] settles its cell. *)
Lemma settled_after n x g :
  isNumber x -> settled n x (uniform_updateIfChanged n (U_number x) g).
Proof.
  unfold settled, uniform_updateIfChanged. intros N.
  induction g as [|[k c] g IH]; [reflexivity|].
  cbn [cell_modify]. destruct (String.eqb k n) eqn:E; cbn [cell_modify];
    rewrite E.
  - rewrite (updateIfChanged_again c x N). reflexivity.
  - rewrite IH. reflexivity.
Qed.

Ltac other_cells :=
  repeat first
    [ assumption
    | apply settled_other; [reflexivity|] ].

(** [styleInSync] is kept by the steps that do not set the style. *)
Lemma styleInSync_kept c c' :
  styleInSync c ->
  Config.style (p c') = Config.style (p c) ->
  Renderer.style c' = Renderer.style c ->
  (forall n x, In n ["uLightIntensity"; "uAmbientIntensity"; "uMetalness";
                     "uRoughness"; "uReflectivity"] ->
               settled n x (globalUniforms c) -> settled n x (globalUniforms c')) ->
  styleInSync c'.
Proof.
  unfold styleInSync. cbv zeta. intros (S0 & S1 & S2 & S3 & S4 & S5) Hp Hs K.
  rewrite Hp, Hs.
  split; [exact S0|].
  repeat split; apply K; try assumption; cbn; tauto.
Qed.

Ltac keeps_style :=
  intros S; eapply styleInSync_kept; [exact S|reflexivity|reflexivity|];
  cbn [globalUniforms set_globalUniforms set_p set_bgColor set_clip];
  intros n x Hn Hx;
  unfold uniform_update;
  cbn [In] in Hn;
  repeat (destruct Hn as [<-|Hn]; [other_cells|]); contradiction.

Lemma setProps_backgroundColor_sync q c :
  styleInSync c -> styleInSync (setProps_backgroundColor q c).
Proof.
  unfold setProps_backgroundColor.
  destruct (backgroundColor_opt q) as [v|]; [|intros S; exact S].
  destruct (negb _); [|intros S; exact S]. keeps_style.
Qed.

Lemma setProps_pickingAlphaThreshold_sync q c :
  styleInSync c -> styleInSync (setProps_pickingAlphaThreshold q c).
Proof.
  unfold setProps_pickingAlphaThreshold.
  destruct (pickingAlphaThreshold_opt q) as [v|]; [|intros S; exact S].
  destruct (strict_ne _ _); [|intros S; exact S]. keeps_style.
Qed.

Lemma setProps_interiorDarkening_sync q c :
  styleInSync c -> styleInSync (setProps_interiorDarkening q c).
Proof.
  unfold setProps_interiorDarkening.
  destruct (interiorDarkening_opt q) as [v|]; [|intros S; exact S].
  destruct (strict_ne _ _); [|intros S; exact S]. keeps_style.
Qed.

Lemma setProps_interiorColorFlag_sync q c :
  styleInSync c -> styleInSync (setProps_interiorColorFlag q c).
Proof.
  unfold setProps_interiorColorFlag.
  destruct (interiorColorFlag_opt q) as [v|]; [|intros S; exact S].
  destruct (negb _); [|intros S; exact S]. keeps_style.
Qed.

Lemma setProps_interiorColor_sync q c :
  styleInSync c -> styleInSync (setProps_interiorColor q c).
Proof.
  unfold setProps_interiorColor.
  destruct (interiorColor_opt q) as [v|]; [|intros S; exact S].
  destruct (negb _); [|intros S; exact S]. keeps_style.
Qed.

Lemma setProps_highlightColor_sync q c :
  styleInSync c -> styleInSync (setProps_highlightColor q c).
Proof.
  unfold setProps_highlightColor.
  destruct (highlightColor_opt q) as [v|]; [|intros S; exact S].
  destruct (negb _); [|intros S; exact S]. keeps_style.
Qed.

Lemma setProps_selectColor_sync q c :
  styleInSync c -> styleInSync (setProps_selectColor q c).
Proof.
  unfold setProps_selectColor.
  destruct (selectColor_opt q) as [v|]; [|intros S; exact S].
  destruct (negb _); [|intros S; exact S]. keeps_style.
Qed.

Lemma setProps_clip_sync q c :
  styleInSync c -> styleInSync (setProps_clip q c).
Proof.
  unfold setProps_clip.
  destruct (clip_opt q) as [v|]; [|intros S; exact S].
  destruct (negb _); [|intros S; exact S]. keeps_style.
Qed.

(** Setting a style whose numbers are numbers brings the closure variable
    and the five uniforms in line with it. *)
Lemma setProps_style_sync q c :
  partialDefined q -> styleInSync c -> styleInSync (setProps_style q c).
Proof.
  unfold partialDefined, setProps_style.
  destruct (style_opt q) as [v|]; [|intros _ S; exact S].
  intros (N1 & N2 & N3 & N4 & N5) _.
  unfold styleInSync. cbv zeta.
  cbn [p set_p set_style set_globalUniforms Renderer.style globalUniforms
       with_style Config.style].
  split; [reflexivity|].
  unfold uniform_updateIfChanged at 1 2 3 4 5.
  repeat split.
  - apply settled_other; [reflexivity|]. apply settled_other; [reflexivity|].
    apply settled_other; [reflexivity|]. apply settled_other; [reflexivity|].
    apply settled_after. exact N1.
  - apply settled_other; [reflexivity|]. apply settled_other; [reflexivity|].
    apply settled_other; [reflexivity|]. apply settled_after. exact N2.
  - apply settled_other; [reflexivity|]. apply settled_other; [reflexivity|].
    apply settled_after. exact N3.
  - apply settled_other; [reflexivity|]. apply settled_after. exact N4.
  - apply settled_after. exact N5.
Qed.

Lemma setProps_sync q c :
  partialDefined q -> styleInSync c -> styleInSync (setProps q c).
Proof.
  intros D S. unfold setProps. cbv zeta.
  apply setProps_clip_sync, setProps_style_sync; [exact D|].
  apply setProps_selectColor_sync, setProps_highlightColor_sync,
    setProps_interiorColor_sync, setProps_interiorColorFlag_sync,
    setProps_interiorDarkening_sync, setProps_pickingAlphaThreshold_sync,
    setProps_backgroundColor_sync. exact S.
Qed.

Lemma create_sync fd ratio w h p0 :
  styleDefined (Config.style p0) -> styleInSync (create fd ratio w h p0).
Proof.
  intros (N1 & N2 & N3 & N4 & N5).
  unfold isNumber, strict_eq in *.
  unfold styleInSync, settled, uniform_updateIfChanged. cbv zeta.
  unfold create. cbn [p Renderer.style globalUniforms].
  split; [reflexivity|].
  repeat split; cbn; unfold ValueCell_updateIfChanged; cbn;
    unfold strict_ne;
    rewrite ?N1, ?N2, ?N3, ?N4, ?N5; reflexivity.
Qed.

Lemma setPropsAll_sync qs : forall c,
  Forall partialDefined qs -> styleInSync c -> styleInSync (setPropsAll qs c).
Proof.
  induction qs as [|q qs IH]; intros c D S; [exact S|].
  unfold setPropsAll. cbn [fold_left]. inversion D as [|? ? Dq Dqs]; subst.
  apply IH; [exact Dqs|]. apply setProps_sync; assumption.
Qed.

(** A call that gives only values equal to the current ones leaves the
    renderer as it was. *)
Lemma setProps_unchanged c q :
  styleInSync c -> unchangedBy q (props c) -> setProps q c = c.
Proof.
  unfold unchangedBy, props.
  intros S (H1 & H2 & H3 & H4 & H5 & H6 & H7 & H8 & H9).
  assert (E1 : setProps_backgroundColor q c = c).
  { unfold setProps_backgroundColor.
    destruct (backgroundColor_opt q) as [v|]; [|reflexivity].
    rewrite (H1 v eq_refl), Z.eqb_refl. reflexivity. }
  assert (E2 : setProps_pickingAlphaThreshold q c = c).
  { unfold setProps_pickingAlphaThreshold.
    destruct (pickingAlphaThreshold_opt q) as [v|]; [|reflexivity].
    rewrite (H2 v eq_refl). reflexivity. }
  assert (E3 : setProps_interiorDarkening q c = c).
  { unfold setProps_interiorDarkening.
    destruct (interiorDarkening_opt q) as [v|]; [|reflexivity].
    rewrite (H3 v eq_refl). reflexivity. }
  assert (E4 : setProps_interiorColorFlag q c = c).
  { unfold setProps_interiorColorFlag.
    destruct (interiorColorFlag_opt q) as [v|]; [|reflexivity].
    rewrite (H4 v eq_refl), Bool.eqb_reflx. reflexivity. }
  assert (E5 : setProps_interiorColor q c = c).
  { unfold setProps_interiorColor.
    destruct (interiorColor_opt q) as [v|]; [|reflexivity].
    rewrite (H5 v eq_refl), Z.eqb_refl. reflexivity. }
  assert (E6 : setProps_highlightColor q c = c).
  { unfold setProps_highlightColor.
    destruct (highlightColor_opt q) as [v|]; [|reflexivity].
    rewrite (H6 v eq_refl), Z.eqb_refl. reflexivity. }
  assert (E7 : setProps_selectColor q c = c).
  { unfold setProps_selectColor.
    destruct (selectColor_opt q) as [v|]; [|reflexivity].
    rewrite (H7 v eq_refl), Z.eqb_refl. reflexivity. }
  assert (E8 : setProps_style q c = c).
  { unfold setProps_style.
    destruct (style_opt q) as [v|]; [|reflexivity].
    rewrite (H8 v eq_refl). clear - S.
    unfold styleInSync, settled in S. cbv zeta in S.
    destruct S as (S0 & S1 & S2 & S3 & S4 & S5).
    destruct c as [fd pp st cl vp bg tb txs gu need cur item].
    destruct pp as [f1 f2 f3 f4 f5 f6 f7 sty f9].
    cbn [p Renderer.style globalUniforms Config.style] in *.
    cbv beta iota zeta delta
      [set_p set_style set_globalUniforms with_style
       fragDepth p Renderer.style Renderer.clip viewport bgColor
       transparentBackground sharedTexturesList globalUniforms
       globalUniformsNeedUpdate currentProgramId currentRenderItemId
       backgroundColor pickingAlphaThreshold interiorDarkening
       interiorColorFlag interiorColor highlightColor selectColor
       Config.style Config.clip].
    rewrite S1, S2, S3, S4, S5, <- S0. reflexivity. }
  assert (E9 : setProps_clip q c = c).
  { unfold setProps_clip.
    destruct (clip_opt q) as [v|]; [|reflexivity].
    rewrite (H9 v eq_refl). reflexivity. }
  unfold setProps. cbv zeta. rewrite E1, E2, E3, E4, E5, E6, E7, E8, E9.
  reflexivity.
Qed.

(** *** One field at a time *)

Lemma cell_of_modify_other n m f g :
  String.eqb n m = false -> cell_of n (cell_modify m f g) = cell_of n g.
Proof.
  intros D. induction g as [|[k c] g IH]; [reflexivity|].
  cbn [cell_modify cell_of]. destruct (String.eqb k m) eqn:E; cbn [cell_of].
  - apply String.eqb_eq in E. subst k. rewrite String.eqb_sym, D. reflexivity.
  - rewrite IH. reflexivity.
Qed.

Ltac other_cell H :=
  repeat (rewrite cell_of_modify_other;
          [|apply String.eqb_neq; intros ->; apply H; cbn [In]; tauto]).

Ltac open_step :=
  repeat match goal with
         | |- context [match ?o with Some _ => _ | None => _ end] =>
             destruct o; [|reflexivity]
         | |- context [if ?b then _ else _] => destruct b; [|reflexivity]
         end;
  cbv beta iota zeta delta
    [set_p set_style set_clip set_bgColor set_globalUniforms
     fragDepth p Renderer.style Renderer.clip viewport bgColor
     transparentBackground sharedTexturesList globalUniforms
     globalUniformsNeedUpdate currentProgramId currentRenderItemId];
  unfold uniform_update, uniform_updateIfChanged.

(** The [if] of a field writes no cell but its own. *)
Lemma setProps_step_other f q c n :
  ~ In n (dependentCells f) ->
  cell_of n (globalUniforms (setProps_step f q c)) =
  cell_of n (globalUniforms c).
Proof.
  intros H. destruct c as [fd pp st cl vp bg tb txs gu need cur item].
  destruct f; cbn [setProps_step dependentCells] in *.
  - unfold setProps_backgroundColor. open_step. other_cell H. reflexivity.
  - unfold setProps_pickingAlphaThreshold. open_step. other_cell H.
    reflexivity.
  - unfold setProps_interiorDarkening. open_step. other_cell H. reflexivity.
  - unfold setProps_interiorColorFlag. open_step. other_cell H. reflexivity.
  - unfold setProps_interiorColor. open_step. other_cell H. reflexivity.
  - unfold setProps_highlightColor. open_step. other_cell H. reflexivity.
  - unfold setProps_selectColor. open_step. other_cell H. reflexivity.
  - unfold setProps_style. open_step. other_cell H. reflexivity.
  - unfold setProps_clip. open_step. other_cell H. reflexivity.
Qed.

(** The cells of two fields are different cells. *)
Lemma dependentCells_disjoint f g n :
  f <> g -> In n (dependentCells f) -> ~ In n (dependentCells g).
Proof.
  intros N. destruct f, g; try (contradiction N; reflexivity);
    cbn [dependentCells In]; intros Hf Hg;
    repeat (destruct Hf as [<-|Hf];
            [repeat (destruct Hg as [Hg|Hg]; [discriminate Hg|]); exact Hg|]);
    exact Hf.
Qed.

Ltac keeps_field F R :=
  cbv zeta in F; decompose [and] F; clear F;
  cbn [repeated] in *; intros v E;
  match goal with
  | H : _ = _ |- _ => rewrite H; exact (R v E)
  end.

(** The [if] of a field leaves the other fields of [p] as they are. *)
Lemma setProps_step_frame f g q c :
  f <> g -> repeated g q (p c) -> repeated g q (p (setProps_step f q c)).
Proof.
  intros N R. destruct f; cbn [setProps_step].
  - pose proof (setProps_backgroundColor_frame q c) as F.
    destruct g; try (contradiction N; reflexivity); keeps_field F R.
  - pose proof (setProps_pickingAlphaThreshold_frame q c) as F.
    destruct g; try (contradiction N; reflexivity); keeps_field F R.
  - pose proof (setProps_interiorDarkening_frame q c) as F.
    destruct g; try (contradiction N; reflexivity); keeps_field F R.
  - pose proof (setProps_interiorColorFlag_frame q c) as F.
    destruct g; try (contradiction N; reflexivity); keeps_field F R.
  - pose proof (setProps_interiorColor_frame q c) as F.
    destruct g; try (contradiction N; reflexivity); keeps_field F R.
  - pose proof (setProps_highlightColor_frame q c) as F.
    destruct g; try (contradiction N; reflexivity); keeps_field F R.
  - pose proof (setProps_selectColor_frame q c) as F.
    destruct g; try (contradiction N; reflexivity); keeps_field F R.
  - pose proof (setProps_style_frame q c) as F.
    destruct g; try (contradiction N; reflexivity); keeps_field F R.
  - pose proof (setProps_clip_frame q c) as F.
    destruct g; try (contradiction N; reflexivity); keeps_field F R.
Qed.

(** The [if] of a field given the value the field has does nothing. *)
Lemma setProps_step_repeated f q c :
  (f = style_field -> styleInSync c) ->
  repeated f q (p c) -> setProps_step f q c = c.
Proof.
  intros S R. destruct f; cbn [setProps_step repeated] in *.
  - unfold setProps_backgroundColor.
    destruct (backgroundColor_opt q) as [v|]; [|reflexivity].
    rewrite (R v eq_refl), Z.eqb_refl. reflexivity.
  - unfold setProps_pickingAlphaThreshold.
    destruct (pickingAlphaThreshold_opt q) as [v|]; [|reflexivity].
    rewrite (R v eq_refl). reflexivity.
  - unfold setProps_interiorDarkening.
    destruct (interiorDarkening_opt q) as [v|]; [|reflexivity].
    rewrite (R v eq_refl). reflexivity.
  - unfold setProps_interiorColorFlag.
    destruct (interiorColorFlag_opt q) as [v|]; [|reflexivity].
    rewrite (R v eq_refl), Bool.eqb_reflx. reflexivity.
  - unfold setProps_interiorColor.
    destruct (interiorColor_opt q) as [v|]; [|reflexivity].
    rewrite (R v eq_refl), Z.eqb_refl. reflexivity.
  - unfold setProps_highlightColor.
    destruct (highlightColor_opt q) as [v|]; [|reflexivity].
    rewrite (R v eq_refl), Z.eqb_refl. reflexivity.
  - unfold setProps_selectColor.
    destruct (selectColor_opt q) as [v|]; [|reflexivity].
    rewrite (R v eq_refl), Z.eqb_refl. reflexivity.
  - specialize (S eq_refl). unfold setProps_style.
    destruct (style_opt q) as [v|]; [|reflexivity].
    rewrite (R v eq_refl). clear - S.
    unfold styleInSync, settled in S. cbv zeta in S.
    destruct S as (S0 & S1 & S2 & S3 & S4 & S5).
    destruct c as [fd pp st cl vp bg tb txs gu need cur item].
    destruct pp as [f1 f2 f3 f4 f5 f6 f7 sty f9].
    cbn [p Renderer.style globalUniforms Config.style] in *.
    cbv beta iota zeta delta
      [set_p set_style set_globalUniforms with_style
       fragDepth p Renderer.style Renderer.clip viewport bgColor
       transparentBackground sharedTexturesList globalUniforms
       globalUniformsNeedUpdate currentProgramId currentRenderItemId
       backgroundColor pickingAlphaThreshold interiorDarkening
       interiorColorFlag interiorColor highlightColor selectColor
       Config.style Config.clip].
    rewrite S1, S2, S3, S4, S5, <- S0. reflexivity.
  - unfold setProps_clip.
    destruct (clip_opt q) as [v|]; [|reflexivity].
    rewrite (R v eq_refl). reflexivity.
Qed.

Lemma setProps_step_sync f q c :
  f <> style_field -> styleInSync c -> styleInSync (setProps_step f q c).
Proof.
  intros N S. destruct f; cbn [setProps_step];
    try (contradiction N; reflexivity).
  - apply setProps_backgroundColor_sync. exact S.
  - apply setProps_pickingAlphaThreshold_sync. exact S.
  - apply setProps_interiorDarkening_sync. exact S.
  - apply setProps_interiorColorFlag_sync. exact S.
  - apply setProps_interiorColor_sync. exact S.
  - apply setProps_highlightColor_sync. exact S.
  - apply setProps_selectColor_sync. exact S.
  - apply setProps_clip_sync. exact S.
Qed.

(** Through any sequence of different fields' [if]s the cells of a field
    that is given the value it has keep value and version. *)
Lemma setProps_steps_repeated f q n :
  In n (dependentCells f) ->
  forall fs c,
    NoDup fs ->
    repeated f q (p c) ->
    (f = style_field -> In f fs -> styleInSync c) ->
    cell_of n
      (globalUniforms (fold_left (fun c g => setProps_step g q c) fs c)) =
    cell_of n (globalUniforms c).
Proof.
  intros Hn. induction fs as [|g rest IH]; intros c ND R S; [reflexivity|].
  inversion ND as [|? ? Hg ND']; subst. cbn [fold_left].
  destruct (Field_eq_dec g f) as [->|N].
  - rewrite (setProps_step_repeated f q c);
      [|intros E; apply S; [exact E|left; reflexivity]|exact R].
    apply IH; [exact ND'|exact R|].
    intros _ I. contradiction (Hg I).
  - rewrite IH.
    + apply setProps_step_other.
      apply (dependentCells_disjoint f g n); [congruence|exact Hn].
    + exact ND'.
    + apply setProps_step_frame; [exact N|exact R].
    + intros E I. apply setProps_step_sync; [congruence|].
      apply S; [exact E|right; exact I].
Qed.

Lemma setProps_as_steps q c :
  setProps q c = fold_left (fun c g => setProps_step g q c) setProps_order c.
Proof.
  unfold setProps, setProps_order. cbv zeta.
  cbn [fold_left setProps_step]. reflexivity.
Qed.

Lemma setProps_order_NoDup : NoDup setProps_order.
Proof.
  unfold setProps_order.
  repeat (constructor;
          [cbn [In]; intros H;
           repeat (destruct H as [H|H]; [discriminate H|]); exact H|]).
  constructor.
Qed.

(** A field given the value it has: none of its cells is written,
    whatever the call does to the other fields. *)
Lemma setProps_repeated_field c q f n :
  (f = style_field -> styleInSync c) ->
  repeated f q (props c) ->
  In n (dependentCells f) ->
  cell_of n (globalUniforms (setProps q c)) = cell_of n (globalUniforms c).
Proof.
  intros S R Hn. rewrite setProps_as_steps.
  apply (setProps_steps_repeated f q n Hn setProps_order c
           setProps_order_NoDup R).
  intros E _. exact (S E).
Qed.

(** C7.  Reading [props] after [setProps] gives back what was set: a
    colour, a flag or a style always, a number when it is [!==] the old
    one and a clip configuration when it is not [deepEqual] to the old one
    (otherwise the old, equal, value stays).  A field given the value it
    has is skipped whatever the same call does to the other fields: none
    of the uniform cells that depend on it is written, value and version
    stay.  A call whose values all equal the current ones returns the
    renderer as it was.  For the style, which is compared through its
    five uniforms, this rests on those uniforms reflecting [p.style],
    which holds from [Renderer.create] on through every [setProps] as
    long as the numbers of the styles are not NaN. *)
Theorem C7_setProps_roundtrip_and_noop :
  (forall c q,
     let pr := props (setProps q c) in
     (forall v, backgroundColor_opt q = Some v -> backgroundColor pr = v)
     /\ (forall v, pickingAlphaThreshold_opt q = Some v ->
           strict_ne v (pickingAlphaThreshold (props c)) = true ->
           pickingAlphaThreshold pr = v)
     /\ (forall v, interiorDarkening_opt q = Some v ->
           strict_ne v (interiorDarkening (props c)) = true ->
           interiorDarkening pr = v)
     /\ (forall v, interiorColorFlag_opt q = Some v -> interiorColorFlag pr = v)
     /\ (forall v, interiorColor_opt q = Some v -> interiorColor pr = v)
     /\ (forall v, highlightColor_opt q = Some v -> highlightColor pr = v)
     /\ (forall v, selectColor_opt q = Some v -> selectColor pr = v)
     /\ (forall v, style_opt q = Some v -> Config.style pr = v)
     /\ (forall v, clip_opt q = Some v ->
           deepEqual v (Config.clip (props c)) = false ->
           Config.clip pr = v))
  /\ (forall c q,
        styleInSync c -> unchangedBy q (props c) ->
        setProps q c = c
        /\ globalUniforms (setProps q c) = globalUniforms c)
  /\ (forall fd ratio w h p0 qs,
        styleDefined (Config.style p0) -> Forall partialDefined qs ->
        styleInSync (setPropsAll qs (create fd ratio w h p0)))
  /\ (forall c q f n,
        (f = style_field -> styleInSync c) ->
        repeated f q (props c) ->
        In n (dependentCells f) ->
        cell_of n (globalUniforms (setProps q c)) =
        cell_of n (globalUniforms c)).
Proof.
  split; [exact setProps_roundtrip|]. split; [|split].
  - intros c q S U. rewrite (setProps_unchanged c q S U). split; reflexivity.
  - intros fd ratio w h p0 qs D Ds.
    apply setPropsAll_sync; [exact Ds|]. apply create_sync. exact D.
  - exact setProps_repeated_field.
Qed.

(** Setting every field of the sample renderer to the value it has, after
    two earlier changes, is a no-op; and a call that repeats the
    background colour and the style while it changes the picking
    threshold and the select colour writes neither the fog colour cell
    nor the roughness cell. *)
Lemma C7_witness :
  let c := setPropsAll
             [ mkPartial (Some 255%Z) None None None None None None
                 (Some glossy) None;
               mkPartial None (Some 0.25%float) None None None None None
                 None None ]
             sampleRenderer in
  let q := mkPartial (Some 255%Z) (Some 0.25%float) (Some 0.5%float)
             (Some true) (Some 5000268%Z) (Some 16737945%Z) (Some 3407642%Z)
             (Some glossy) (Some (mkClipProps "instance" [])) in
  let q' := mkPartial (Some 255%Z) (Some 0.75%float) None None None None
              (Some 1%Z) (Some glossy) None in
  (setProps q c = c /\ globalUniforms (setProps q c) = globalUniforms c)
  /\ cell_of "uFogColor" (globalUniforms (setProps q' c)) =
     cell_of "uFogColor" (globalUniforms c)
  /\ cell_of "uRoughness" (globalUniforms (setProps q' c)) =
     cell_of "uRoughness" (globalUniforms c).
Proof.
  cbv zeta.
  assert (S : styleInSync
    (setPropsAll
       [ mkPartial (Some 255%Z) None None None None None None
           (Some glossy) None;
         mkPartial None (Some 0.25%float) None None None None None
           None None ]
       sampleRenderer)).
  { apply (proj1 (proj2 (proj2 C7_setProps_roundtrip_and_noop))).
    - repeat split.
    - repeat constructor. }
  split; [|split].
  - apply (proj1 (proj2 C7_setProps_roundtrip_and_noop)); [exact S|].
    unfold unchangedBy.
    repeat split; intros v E; injection E as <-; vm_compute; reflexivity.
  - apply (proj2 (proj2 (proj2 C7_setProps_roundtrip_and_noop))
             _ _ backgroundColor_field).
    + discriminate.
    + intros v E. injection E as <-. vm_compute. reflexivity.
    + left. reflexivity.
  - apply (proj2 (proj2 (proj2 C7_setProps_roundtrip_and_noop))
             _ _ style_field).
    + intros _. exact S.
    + intros v E. injection E as <-. vm_compute. reflexivity.
    + right. right. right. left. reflexivity.
Defined.

(** The volumetric sample is handed to the transparent phase though its
    alpha is 1. *)
Lemma C3_witness :
  strict_eq (wboitAlpha volumetric) 1%float = true
  /\ isWboitTransparent volumetric = true.
Proof.
  split; [reflexivity|].
  apply (proj2 (proj2 (proj2 (C3_renderWboitTransparent_condition
           (mkGroup Mat4_identity [volumetric]) sampleCamera None
           sampleRenderer)))).
  reflexivity.
Defined.

(** One opaque and one transparent drawable: the first is drawn in the
    opaque phase, the second in the transparent phase, and the flag of a
    draw of the opaque phase is true. *)
Lemma C9_witness :
  let O := renderBlendedOpaque mixed sampleCamera None sampleRenderer in
  let T := renderBlendedTransparent (result O) sampleCamera None (final O) in
  draws (trace O) = [(plain, "colorBlended")]
  /\ draws (trace T) = [(translucent, "colorBlended")]
  /\ opaque (state (fst (plain, "colorBlended"))) = true.
Proof.
  cbv zeta. split; [vm_compute; reflexivity|]. split; [vm_compute; reflexivity|].
  apply (proj1 (proj2 (proj2 (proj2 (proj2 (proj2
           (C9_blended_phases_partition mixed sampleCamera None
              sampleRenderer))))))).
  vm_compute. left. reflexivity.
Defined.

Lemma drawsUnderMask_app t1 : forall m t2,
  drawsUnderMask m (t1 ++ t2) =
  drawsUnderMask m t1 ++ drawsUnderMask (maskAfter m t1) t2.
Proof.
  induction t1 as [|e t1 IH]; intros m t2; [reflexivity|].
  destruct e; cbn [app drawsUnderMask maskAfter]; rewrite IH; reflexivity.
Qed.

(** Where the depth mask is not touched, the draws run under the mask
    found, and the mask stays. *)
Lemma drawsUnderMask_steady t : forall m,
  depthMasks t = [] ->
  drawsUnderMask m t = map (fun d => (d, m)) (draws t)
  /\ maskAfter m t = m.
Proof.
  induction t as [|e t IH]; intros m H; [split; reflexivity|].
  destruct e; cbn [depthMasks drawsUnderMask maskAfter draws map] in *;
    try discriminate H;
    destruct (IH m H) as (D & M); rewrite D, M; split; reflexivity.
Qed.

(** In a group without direct volumes [renderBlendedTransparent] touches
    the depth mask twice, with true and then with false, and the two
    calls sit where the draws need them: every draw of a visible
    transparent drawable that writes depth is issued while the mask is
    true, every draw of one that does not is issued while it is false,
    the former all before the latter, and nothing else is drawn. *)
Theorem depthMask_true_then_false : forall g cam tex c,
  (forall r, In r (renderables g) -> dRenderMode (values r) = None) ->
  let t := trace (renderBlendedTransparent g cam tex c) in
  depthMasks t = [true; false]
  /\ drawsUnderMask None t =
       map (fun r => (resolved c r, "colorBlended", Some true))
         (filter (fun r => writing r && visible (state r)) (renderables g))
       ++ map (fun r => (resolved c r, "colorBlended", Some false))
         (filter (fun r => nonWriting r && visible (state r)) (renderables g)).
Proof.
  intros g cam tex c NV. cbv zeta.
  assert (Own : forall sel,
            ownDepthMasks c "colorBlended" (filter sel (renderables g)) = []).
  { intros sel. unfold ownDepthMasks.
    induction (renderables g) as [|r rs IH]; [reflexivity|].
    cbn [filter]. destruct (sel r); cbn [flat_map].
    - rewrite drawState_depthMask.
      + apply IH. intros a H. apply NV. right. exact H.
      + destruct (resolved_values c r) as (_ & _ & _ & M & _). rewrite M.
        apply NV. left. reflexivity.
    - apply IH. intros a H. apply NV. right. exact H. }
  pose proof (renderBlendedTransparent_run g cam tex c) as R. cbv zeta in R.
  pose proof (renderBlendedTransparent_parts g cam tex c) as P. cbv zeta in P.
  destruct P as (_ & _ & D1 & D2 & M1 & M2).
  destruct (updateInternal_spec g cam tex false c) as (T & _).
  rewrite (trace_eq _ _ _ _ R).
  change (fun r => negb (opaque (state r)) && writeDepth (state r)) with writing.
  change (fun r => negb (opaque (state r)) && negb (writeDepth (state r)))
    with nonWriting.
  rewrite Own in M1, M2. rewrite drawnBy_color_filter in D1, D2.
  set (U := updateInternal g cam tex false c) in *.
  set (L1 := renderLoop writing "colorBlended" (renderables g) (final U)) in *.
  set (L2 := renderLoop nonWriting "colorBlended" (result L1) (final L1)) in *.
  destruct (drawsUnderMask_steady (trace L1) (Some true) M1) as (S1 & A1).
  destruct (drawsUnderMask_steady (trace L2) (Some false) M2) as (S2 & _).
  split.
  - rewrite !depthMasks_app, M1, M2, T. unfold blendSetup.
    destruct (transparentBackground c); reflexivity.
  - rewrite T. unfold blendSetup.
    assert (E : forall first,
      drawsUnderMask None
        ([state_enable DEPTH_TEST]
         ++ [state_enable SCISSOR_TEST; state_colorMask true true true true;
             gl_viewport (viewport c); gl_scissor (viewport c)]
         ++ [first; state_enable BLEND; state_depthMask true]
         ++ trace L1 ++ [state_depthMask false] ++ trace L2)
      = match first with
        | state_depthMask b =>
            drawsUnderMask (Some true)
              (trace L1 ++ [state_depthMask false] ++ trace L2)
        | renderable_render r v _ =>
            (r, v, None)
            :: drawsUnderMask (Some true)
                 (trace L1 ++ [state_depthMask false] ++ trace L2)
        | _ => drawsUnderMask (Some true)
                 (trace L1 ++ [state_depthMask false] ++ trace L2)
        end).
    { intros first. destruct first; reflexivity. }
    rewrite E. clear E.
    assert (Rest : drawsUnderMask (Some true)
                     (trace L1 ++ [state_depthMask false] ++ trace L2)
                   = map (fun d => (d, Some true)) (draws (trace L1))
                     ++ map (fun d => (d, Some false)) (draws (trace L2))).
    { rewrite drawsUnderMask_app, S1, A1.
      cbn [app drawsUnderMask]. rewrite S2. reflexivity. }
    rewrite Rest, D1, D2, !map_map.
    destruct (transparentBackground c); reflexivity.
Qed.

(** The layered sample group lists a transparent drawable that does not
    write depth before one that does: the one that writes depth is drawn
    first, with the mask true, the other after it, with the mask false. *)
Lemma depthMask_true_then_false_witness :
  let t := trace (renderBlendedTransparent layered sampleCamera None
                    sampleRenderer) in
  depthMasks t = [true; false]
  /\ drawsUnderMask None t =
       [ (resolved sampleRenderer glass, "colorBlended", Some true);
         (resolved sampleRenderer translucent, "colorBlended", Some false) ].
Proof.
  apply (depthMask_true_then_false layered sampleCamera None
           sampleRenderer).
  intros r [<-|[<-|[<-|[]]]]; reflexivity.
Defined.

(** A stereo camera makes [render] run the single-eye sequence twice,
    first with the left camera, then with the right, after setting the
    transparent-background flag and the drawing-buffer size once; a plain
    camera makes it run once. *)
Theorem render_stereo_twice : forall d cl cr camera scene helper tdb tb,
  let setup :=
    [ renderer_setTransparentBackground tb;
      renderer_setDrawingBufferSize (getWidth (colorTarget d))
        (getHeight (colorTarget d)) ] in
  fst (render d (stereo cl cr) scene helper tdb tb) =
    setup ++ fst (_render d cl scene helper tdb)
          ++ fst (_render d cr scene helper tdb)
  /\ fst (render d (mono camera) scene helper tdb tb) =
       setup ++ fst (_render d camera scene helper tdb).
Proof.
  intros d cl cr camera scene helper tdb tb. cbv zeta.
  unfold render, andThen, done. cbn [fst snd].
  rewrite !_render_completes. split; reflexivity.
Qed.

(** * The rest of the renderer and of the draw pass *)

(** ** Relinking, binding and uploading *)

Lemma relinks_app t1 t2 : relinks (t1 ++ t2) = relinks t1 ++ relinks t2.
Proof.
  induction t1 as [|e t1 IH]; [reflexivity|].
  destruct e; simpl; rewrite IH; reflexivity.
Qed.

Lemma binds_app t1 t2 : binds (t1 ++ t2) = binds t1 ++ binds t2.
Proof.
  induction t1 as [|e t1 IH]; [reflexivity|].
  destruct e; simpl; rewrite IH; reflexivity.
Qed.

Lemma drawTextures_app t1 t2 :
  drawTextures (t1 ++ t2) = drawTextures t1 ++ drawTextures t2.
Proof.
  induction t1 as [|e t1 IH]; [reflexivity|].
  destruct e; simpl; rewrite IH; reflexivity.
Qed.

Lemma viewports_app t1 t2 : viewports (t1 ++ t2) = viewports t1 ++ viewports t2.
Proof.
  induction t1 as [|e t1 IH]; [reflexivity|].
  destruct e; simpl; rewrite IH; reflexivity.
Qed.

Lemma scissors_app t1 t2 : scissors (t1 ++ t2) = scissors t1 ++ scissors t2.
Proof.
  induction t1 as [|e t1 IH]; [reflexivity|].
  destruct e; simpl; rewrite IH; reflexivity.
Qed.

Lemma drawState_silent fd r variant :
  relinks (drawState fd r variant) = []
  /\ binds (drawState fd r variant) = []
  /\ drawTextures (drawState fd r variant) = []
  /\ viewports (drawState fd r variant) = []
  /\ scissors (drawState fd r variant) = [].
Proof.
  unfold drawState.
  destruct (dRenderMode (values r)) as [mode|].
  - destruct (String.eqb variant "colorBlended");
      [destruct (String.eqb mode "volume" || negb fd)|]; repeat split.
  - destruct (dDoubleSided (values r)) as [ds|];
      [destruct (ds || hasReflection (values r))|];
      destruct (dFlipSided (values r)) as [[]|]; repeat split.
Qed.

(** The clip defines after [resolveClipDefines] follow the settings, the
    flag tells whether they did not before, and defines that follow are
    left alone. *)
Lemma resolveClipDefines_follow c r :
  definesFollow c (fst (resolveClipDefines (Renderer.clip c) r)).
Proof.
  unfold definesFollow, resolveClipDefines.
  destruct (noClip (state r)) eqn:N.
  - destruct (Nat.eqb (cell_value (dClipObjectCount (values r))) 0) eqn:E;
      cbn [negb fst state update_dClipObjectCount with_values]; rewrite N.
    + apply Nat.eqb_eq. exact E.
    + reflexivity.
  - destruct (Nat.eqb (cell_value (dClipObjectCount (values r)))
                (count (clip_objects (Renderer.clip c)))) eqn:E;
      cbn [negb fst snd].
    + destruct (String.eqb (cell_value (dClipVariant (values r)))
                  (clip_variant (Renderer.clip c))) eqn:V;
        cbn [negb fst state update_dClipVariant with_values]; rewrite N.
      * split; [apply Nat.eqb_eq; exact E|apply String.eqb_eq; exact V].
      * split; [apply Nat.eqb_eq; exact E|reflexivity].
    + destruct (String.eqb
                  (cell_value (dClipVariant
                     (values (update_dClipObjectCount r
                        (count (clip_objects (Renderer.clip c)))))))
                  (clip_variant (Renderer.clip c))) eqn:V;
        cbn [negb fst state update_dClipVariant update_dClipObjectCount
             with_values]; rewrite N.
      * split; [reflexivity|]. apply String.eqb_eq. exact V.
      * split; reflexivity.
Qed.

Lemma resolveClipDefines_fixed c r :
  definesFollow c r -> resolveClipDefines (Renderer.clip c) r = (r, false).
Proof.
  unfold definesFollow, resolveClipDefines.
  destruct (noClip (state r)).
  - intros ->. reflexivity.
  - intros (E1 & E2). rewrite E1, Nat.eqb_refl. cbn [negb].
    rewrite E2, String.eqb_refl. reflexivity.
Qed.


Lemma definesFollow_ext c c' r :
  Renderer.clip c' = Renderer.clip c -> definesFollow c r -> definesFollow c' r.
Proof. unfold definesFollow. intros ->. exact (fun H => H). Qed.



(** ** What the pick, depth and volume passes draw *)

Lemma drawnBy_picked variant rs :
  filter (drawnBy (fun r => negb (colorOnly (state r))) variant) rs =
  filter (picked variant) rs.
Proof.
  apply filter_ext. intros r. unfold drawnBy, picked, passesVisibility.
  destruct (colorOnly (state r)), (visible (state r)), (pickable (state r)),
    (startsWith_p variant); reflexivity.
Qed.

Lemma drawnBy_all variant rs :
  startsWith_p variant = false ->
  filter (drawnBy (fun _ => true) variant) rs =
  filter (fun r => visible (state r)) rs.
Proof.
  intros P. apply filter_ext. intros r. unfold drawnBy, passesVisibility.
  rewrite P. destruct (visible (state r)), (pickable (state r)); reflexivity.
Qed.

(** [renderPick] hands every drawable that is not color-only to
    [renderObject], and draws those of them that are visible and, when
    the variant is a pick variant, pickable; with a pick variant a
    drawable that is not pickable is never drawn, with another variant
    pickability plays no part. *)
Theorem renderPick_selection : forall g cam variant tex c,
  let t := trace (renderPick g cam variant tex c) in
  calls t =
    map (fun r => (r, variant))
      (filter (fun r => negb (colorOnly (state r))) (renderables g))
  /\ draws t =
       map (fun r => (resolved c r, variant))
         (filter (picked variant) (renderables g))
  /\ (startsWith_p variant = true ->
      forall r, In (r, variant) (draws t) ->
        pickable (state r) = true /\ visible (state r) = true
        /\ colorOnly (state r) = false)
  /\ (startsWith_p variant = false ->
      draws t =
        map (fun r => (resolved c r, variant))
          (filter (fun r => negb (colorOnly (state r)) && visible (state r))
             (renderables g))).
Proof.
  intros g cam variant tex c. cbv zeta.
  rewrite (trace_eq _ _ _ _ (renderPick_run g cam variant tex c)).
  destruct (single_loop_calls
    [state_disable BLEND; state_enable DEPTH_TEST; state_depthMask true]
    g cam tex false (fun r => negb (colorOnly (state r))) variant c)
    as (C & D); [repeat split|].
  rewrite C, D, drawnBy_picked.
  split; [reflexivity|]. split; [reflexivity|]. split.
  - intros P r I. apply in_map_iff in I. destruct I as (r0 & E & I).
    injection E as E. subst r. rewrite resolved_state.
    apply filter_In in I. destruct I as (_ & I). unfold picked in I.
    rewrite P in I.
    destruct (colorOnly (state r0)), (visible (state r0)),
      (pickable (state r0)); try discriminate I. repeat split.
  - intros P. f_equal. apply filter_ext. intros r. unfold picked.
    rewrite P. destruct (pickable (state r)); cbn [negb orb];
      rewrite ?andb_true_r; reflexivity.
Qed.

(** The depth pass and the volume pass select nothing: each hands every
    drawable of the group to [renderObject] and draws every visible one,
    in the order of the group, pickable or not, opaque or not. *)
Theorem depth_and_volume_draw_all_visible : forall g cam tex c,
  let td := trace (renderDepth g cam tex c) in
  let tv := trace (renderBlendedVolume g cam tex c) in
  calls td = map (fun r => (r, "depth")) (renderables g)
  /\ draws td =
       map (fun r => (resolved c r, "depth"))
         (filter (fun r => visible (state r)) (renderables g))
  /\ calls tv = map (fun r => (r, "colorBlended")) (renderables g)
  /\ draws tv =
       map (fun r => (resolved c r, "colorBlended"))
         (filter (fun r => visible (state r)) (renderables g)).
Proof.
  intros g cam tex c. cbv zeta.
  assert (T : forall rs : list GraphicsRenderable, filter (fun _ => true) rs = rs).
  { induction rs as [|r rs IH]; [reflexivity|]. cbn. rewrite IH. reflexivity. }
  rewrite (trace_eq _ _ _ _ (renderDepth_run g cam tex c)).
  rewrite (trace_eq _ _ _ _ (renderBlendedVolume_run g cam tex c)).
  destruct (single_loop_calls
    [state_disable BLEND; state_enable DEPTH_TEST; state_depthMask true]
    g cam tex false (fun _ => true) "depth" c) as (C & D); [repeat split|].
  destruct (single_loop_calls
    [state_blendFunc ONE ONE_MINUS_SRC_ALPHA; state_enable BLEND]
    g cam tex false (fun _ => true) "colorBlended" c) as (C' & D');
    [repeat split|].
  rewrite C, D, C', D', T, !drawnBy_all by reflexivity.
  repeat split.
Qed.

(** ** The two order-independent passes together *)

(** A number that is not NaN compares with 1. *)
Lemma compares_with_one x :
  PrimFloat.is_nan x = false ->
  PrimFloat.ltb x 1%float = true \/ PrimFloat.eqb x 1%float = true
  \/ PrimFloat.ltb 1%float x = true.
Proof.
  unfold PrimFloat.is_nan. rewrite negb_false_iff, !eqb_spec, !ltb_spec.
  unfold SFeqb, SFltb.
  change (Prim2SF 1) with (S754_finite false 4503599627370496 (-52)).
  destruct (Prim2SF x) as [s|s| |s m e]; cbn [SFcompare].
  - intros _. left. reflexivity.
  - intros _. destruct s; [left|right; right]; reflexivity.
  - discriminate.
  - intros _. destruct s; [left; reflexivity|].
    rewrite (Z.compare_antisym e (-52)).
    assert (A : Pos.compare_cont Eq 4503599627370496 m =
                CompOpp (Pos.compare_cont Eq m 4503599627370496))
      by (rewrite Pos.compare_cont_antisym; reflexivity).
    rewrite A.
    destruct (Z.compare e (-52)); cbn [CompOpp];
      [|left; reflexivity|right; right; reflexivity].
    destruct (Pos.compare_cont Eq m 4503599627370496); cbn [CompOpp];
      [right; left|left|right; right]; reflexivity.
Qed.

(** The clamped alpha is NaN, below 1 or 1: never above. *)
Lemma clamp_unit_range x :
  let a := clamp x 0%float 1%float in
  PrimFloat.is_nan a = true \/ lt a 1%float = true \/ strict_eq a 1%float = true.
Proof.
  cbv zeta. unfold clamp, Math_max, Math_min, lt, strict_eq.
  change (PrimFloat.is_nan 0) with false.
  change (PrimFloat.is_nan 1) with false.
  change (PrimFloat.get_sign 0) with false.
  change (PrimFloat.get_sign 1) with false.
  cbn [orb].
  destruct (PrimFloat.is_nan x) eqn:N.
  { left. reflexivity. }
  assert (K : forall m,
    PrimFloat.is_nan m = false ->
    PrimFloat.ltb m 1%float = true \/ PrimFloat.eqb m 1%float = true ->
    let a := if PrimFloat.ltb 0%float m then m
             else if PrimFloat.ltb m 0%float then 0%float else 0%float in
    PrimFloat.is_nan a = true \/ PrimFloat.ltb a 1%float = true
    \/ PrimFloat.eqb a 1%float = true).
  { intros m _ Hm. cbv zeta.
    destruct (PrimFloat.ltb 0%float m).
    - right. exact Hm.
    - right. left. destruct (PrimFloat.ltb m 0%float); reflexivity. }
  destruct (PrimFloat.ltb 1%float x) eqn:G.
  - change (PrimFloat.is_nan 1) with false. cbv iota.
    apply (K 1%float); [reflexivity|right; reflexivity].
  - destruct (PrimFloat.ltb x 1%float) eqn:L.
    + rewrite N. apply (K x N). left. exact L.
    + rewrite N. apply (K x N).
      destruct (compares_with_one x N) as [H|[H|H]];
        [left; exact H|right; exact H|congruence].
Qed.

Lemma nan_compares x y :
  PrimFloat.is_nan x = true ->
  PrimFloat.eqb x y = false /\ PrimFloat.ltb x y = false.
Proof.
  unfold PrimFloat.is_nan. rewrite negb_true_iff, !eqb_spec, ltb_spec.
  unfold SFeqb, SFltb.
  destruct (Prim2SF x) as [s|s| |s m e]; cbn [SFcompare].
  - discriminate.
  - destruct s; discriminate.
  - intros _. split; reflexivity.
  - destruct s; cbn; rewrite Z.compare_refl, Pos.compare_cont_refl; discriminate.
Qed.

Lemma is_one_not_below x :
  PrimFloat.eqb x 1%float = true -> PrimFloat.ltb 0%float x = true.
Proof.
  rewrite eqb_spec, ltb_spec. unfold SFeqb, SFltb.
  change (Prim2SF 1) with (S754_finite false 4503599627370496 (-52)).
  change (Prim2SF 0) with (S754_zero false).
  destruct (Prim2SF x) as [s|s| |s m e]; cbn [SFcompare].
  - discriminate.
  - destruct s; discriminate.
  - discriminate.
  - destruct s; [discriminate|reflexivity].
Qed.

(** A drawable is left out by both order-independent passes exactly when
    its clamped alpha is NaN and nothing else makes it transparent: its
    average transparency is not above 0, and it is neither volumetric,
    nor a filled circular point, nor x-ray shaded, nor given a background
    colour.  Every drawable whose clamped alpha is a number meets the
    condition of at least one of the two passes. *)
Theorem wboit_conditions_cover : forall r,
  (isWboitOpaque r || isWboitTransparent r = false <->
   PrimFloat.is_nan (wboitAlpha r) = true
   /\ gt (transparencyAverage (values r)) 0%float = false
   /\ isVolume r = false
   /\ truthy (dPointFilledCircle (values r)) = false
   /\ hasBackgroundColor r = false
   /\ truthy (dXrayShaded (values r)) = false)
  /\ (isNumber (wboitAlpha r) ->
      isWboitOpaque r = true \/ isWboitTransparent r = true).
Proof.
  intros r.
  assert (Main : isWboitOpaque r || isWboitTransparent r = false <->
   PrimFloat.is_nan (wboitAlpha r) = true
   /\ gt (transparencyAverage (values r)) 0%float = false
   /\ isVolume r = false
   /\ truthy (dPointFilledCircle (values r)) = false
   /\ hasBackgroundColor r = false
   /\ truthy (dXrayShaded (values r)) = false).
  { unfold isWboitOpaque, isWboitTransparent. split.
    - intros H. apply orb_false_iff in H. destruct H as (O & T).
      rewrite !orb_false_iff in T.
      destruct T as (((((T1 & T2) & T3) & T4) & T5) & T6).
      rewrite T3, T4, T6 in O. cbn [negb] in O. rewrite !andb_true_r in O.
      repeat split; try assumption.
      destruct (clamp_unit_range
        (PrimFloat.mul (alpha (values r)) (alphaFactor (state r))))
        as [N|[L|E]]; [exact N| |].
      + unfold wboitAlpha in T1. rewrite T1 in L. discriminate L.
      + exfalso. fold (wboitAlpha r) in E. rewrite E in O. cbn [andb] in O.
        unfold strict_ne in O. apply negb_false_iff in O.
        apply is_one_not_below in O. unfold gt in T2. congruence.
    - intros (N & T2 & T3 & T4 & T5 & T6).
      destruct (nan_compares (wboitAlpha r) 1%float N) as (E & L).
      unfold strict_eq, lt. rewrite E, L, T2, T3, T4, T5, T6. reflexivity. }
  split; [exact Main|].
  intros Num.
  destruct (isWboitOpaque r) eqn:O; [left; reflexivity|].
  destruct (isWboitTransparent r) eqn:T; [right; reflexivity|].
  exfalso. destruct (proj1 Main eq_refl) as (N & _).
  unfold isNumber, strict_eq in Num. unfold PrimFloat.is_nan in N.
  rewrite Num in N. discriminate N.
Qed.

(** ** A pass run on the group an earlier pass left *)

Lemma resolved_idem c c' r :
  Renderer.clip c' = Renderer.clip c ->
  resolved c' (resolved c r) = resolved c r.
Proof.
  intros H. unfold resolved at 1.
  rewrite (resolveClipDefines_fixed c' (resolved c r)); [reflexivity|].
  apply (definesFollow_ext c c'); [exact H|].
  apply resolveClipDefines_follow.
Qed.

Lemma after_pass_draws cond1 cond2 v1 v2 c c' rs :
  Renderer.clip c' = Renderer.clip c ->
  (forall r, cond2 (resolved c r) = cond2 r) ->
  map (fun r => (resolved c' r, v2))
    (filter (drawnBy cond2 v2)
       (map (fun r => if drawnBy cond1 v1 r then resolved c r else r) rs))
  = map (fun r => (resolved c r, v2)) (filter (drawnBy cond2 v2) rs).
Proof.
  intros Hc Hk. induction rs as [|r rs IH]; [reflexivity|].
  cbn [map filter].
  assert (E : drawnBy cond2 v2
                (if drawnBy cond1 v1 r then resolved c r else r)
              = drawnBy cond2 v2 r).
  { destruct (drawnBy cond1 v1 r); [|reflexivity].
    unfold drawnBy. rewrite Hk.
    rewrite (passesVisibility_state r (resolved c r) v2 (resolved_state c r)).
    reflexivity. }
  rewrite E. destruct (drawnBy cond2 v2 r); [|exact IH].
  cbn [map]. rewrite IH. f_equal. f_equal.
  destruct (drawnBy cond1 v1 r).
  - apply resolved_idem. exact Hc.
  - apply resolved_ext. exact Hc.
Qed.

Lemma isWboitTransparent_resolved c r :
  isWboitTransparent (resolved c r) = isWboitTransparent r.
Proof.
  destruct (resolved_values c r) as (A & _ & T & M & P & X & B).
  unfold isWboitTransparent, wboitAlpha, isVolume, hasBackgroundColor.
  rewrite A, T, M, P, X, B, resolved_state. reflexivity.
Qed.

(** The two order-independent passes run one after the other on a group,
    as the draw pass runs them.  The transparent pass draws the visible
    drawables that meet its condition, whatever the opaque pass drew
    before; and every visible drawable whose clamped alpha is a number is
    drawn by the opaque pass or by the transparent pass. *)
Theorem wboit_passes_cover : forall g cam tex tex' c r,
  In r (renderables g) ->
  visible (state r) = true ->
  isNumber (wboitAlpha r) ->
  let O := renderWboitOpaque g cam tex c in
  let T := renderWboitTransparent (result O) cam tex' (final O) in
  draws (trace T) =
    map (fun r => (resolved c r, "colorWboit"))
      (filter (fun r => isWboitTransparent r && visible (state r))
         (renderables g))
  /\ (In (resolved c r, "colorWboit") (draws (trace O))
      \/ In (resolved c r, "colorWboit") (draws (trace T))).
Proof.
  intros g cam tex tex' c r I V Num. cbv zeta.
  pose proof (renderWboitOpaque_run g cam tex c) as RO. cbv zeta in RO.
  destruct (loop_after_updateInternal g cam tex false isWboitOpaque
              "colorWboit" (renderables g) c) as (_ & DO & _ & RsO & HcO & _).
  destruct (updateInternal_quiet g cam tex false c) as (_ & UdO & _).
  rewrite (result_eq _ _ _ _ RO), (final_eq _ _ _ _ RO), (trace_eq _ _ _ _ RO).
  set (LO := renderLoop isWboitOpaque "colorWboit" (renderables g)
               (final (updateInternal g cam tex false c))) in *.
  rewrite !draws_app, UdO, DO. cbn [draws app].
  pose proof (renderWboitTransparent_run
                (mkGroup (view g) (result LO)) cam tex' (final LO)) as RT.
  cbv zeta in RT. rewrite (trace_eq _ _ _ _ RT).
  destruct (single_loop_calls [] (mkGroup (view g) (result LO)) cam tex' true
              isWboitTransparent "colorWboit" (final LO)) as (_ & DT);
    [repeat split|].
  cbn [app] in DT. rewrite DT. cbn [renderables]. rewrite RsO.
  rewrite (after_pass_draws isWboitOpaque isWboitTransparent
             "colorWboit" "colorWboit" c (final LO) (renderables g) HcO
             (isWboitTransparent_resolved c)).
  rewrite !drawnBy_wboit_filter.
  split; [reflexivity|].
  destruct (isWboitOpaque r) eqn:EO.
  - left. apply in_map_iff. exists r. split; [reflexivity|].
    apply filter_In. split; [exact I|]. rewrite EO, V. reflexivity.
  - right. apply in_map_iff. exists r. split; [reflexivity|].
    apply filter_In. split; [exact I|].
    destruct (isWboitTransparent r) eqn:ET; [rewrite V; reflexivity|].
    exfalso.
    destruct (clamp_unit_range
      (PrimFloat.mul (alpha (values r)) (alphaFactor (state r))))
      as [N|[L|E]]; fold (wboitAlpha r) in *.
    + unfold isNumber, strict_eq in Num. unfold PrimFloat.is_nan in N.
      rewrite Num in N. discriminate N.
    + unfold isWboitTransparent in ET. rewrite L in ET. discriminate ET.
    + unfold isWboitTransparent in ET. rewrite !orb_false_iff in ET.
      destruct ET as (((((T1 & T2) & T3) & T4) & T5) & T6).
      unfold isWboitOpaque in EO. rewrite E, T3, T4, T6 in EO.
      cbn [negb andb] in EO. rewrite !andb_true_r in EO.
      unfold strict_ne in EO. apply negb_false_iff in EO.
      apply is_one_not_below in EO. unfold gt in T2. congruence.
Qed.

(** In the mixed sample group the plain drawable is visible with alpha 1:
    the opaque pass draws it. *)
Lemma wboit_passes_cover_witness :
  let O := renderWboitOpaque mixed sampleCamera None sampleRenderer in
  let T := renderWboitTransparent (result O) sampleCamera None (final O) in
  draws (trace T) =
    map (fun r => (resolved sampleRenderer r, "colorWboit"))
      (filter (fun r => isWboitTransparent r && visible (state r))
         (renderables mixed))
  /\ (In (resolved sampleRenderer plain, "colorWboit") (draws (trace O))
      \/ In (resolved sampleRenderer plain, "colorWboit") (draws (trace T))).
Proof.
  apply (wboit_passes_cover mixed sampleCamera None None sampleRenderer plain).
  - left. reflexivity.
  - reflexivity.
  - vm_compute. reflexivity.
Defined.

(** ** The blended path draws every visible drawable once *)

Lemma filter_split {A} (sel : A -> bool) (l : list A) :
  Permutation (filter sel l ++ filter (fun a => negb (sel a)) l) l.
Proof.
  induction l as [|a l IH]; [constructor|].
  cbn [filter]. destruct (sel a); cbn [negb app].
  - constructor. exact IH.
  - apply Permutation_sym. apply Permutation_cons_app.
    apply Permutation_sym. exact IH.
Qed.

Lemma filter_and {A} (f g : A -> bool) (l : list A) :
  filter (fun a => f a && g a) l = filter f (filter g l).
Proof.
  induction l as [|a l IH]; [reflexivity|].
  cbn [filter]. destruct (g a); cbn [filter]; rewrite ?andb_true_r, ?andb_false_r;
    [destruct (f a)|]; rewrite IH; reflexivity.
Qed.

(** [renderBlended] draws the visible opaque drawables, then the visible
    transparent ones that write depth, then the visible transparent ones
    that do not: taken together every visible drawable of the group once,
    and no hidden one. *)
Theorem renderBlended_draws_each_visible_once : forall g cam tex c,
  let t := trace (renderBlended g cam tex c) in
  let shown := filter (fun r => visible (state r)) (renderables g) in
  draws t =
    map (fun r => (resolved c r, "colorBlended"))
      (filter (fun r => opaque (state r)) shown
       ++ filter writing shown ++ filter nonWriting shown)
  /\ Permutation (draws t) (map (fun r => (resolved c r, "colorBlended")) shown).
Proof.
  intros g cam tex c. cbv zeta.
  assert (D : draws (trace (renderBlended g cam tex c)) =
    map (fun r => (resolved c r, "colorBlended"))
      (filter (fun r => opaque (state r))
         (filter (fun r => visible (state r)) (renderables g))
       ++ filter writing (filter (fun r => visible (state r)) (renderables g))
       ++ filter nonWriting
            (filter (fun r => visible (state r)) (renderables g)))).
  { assert (TR : trace (renderBlended g cam tex c) =
      trace (renderBlendedOpaque g cam tex c)
      ++ trace (renderBlendedTransparent
                  (result (renderBlendedOpaque g cam tex c)) cam tex
                  (final (renderBlendedOpaque g cam tex c))))
      by (unfold renderBlended; rewrite run_bind; reflexivity).
    rewrite TR. clear TR.
    pose proof (renderBlendedOpaque_run g cam tex c) as RO. cbv zeta in RO.
    destruct (loop_after_updateInternal g cam tex false
                (fun r => opaque (state r)) "colorBlended" (renderables g) c)
      as (_ & DO & _ & RsO & HcO & _).
    destruct (updateInternal_quiet g cam tex false c) as (_ & UdO & _).
    rewrite (result_eq _ _ _ _ RO), (final_eq _ _ _ _ RO),
      (trace_eq _ _ _ _ RO).
    set (LO := renderLoop (fun r => opaque (state r)) "colorBlended"
                 (renderables g) (final (updateInternal g cam tex false c)))
      in *.
    set (g1 := mkGroup (view g) (result LO)).
    pose proof (renderBlendedTransparent_run g1 cam tex (final LO)) as RT.
    cbv zeta in RT. rewrite (trace_eq _ _ _ _ RT).
    destruct (renderBlendedTransparent_parts g1 cam tex (final LO))
      as (_ & _ & D1 & D2 & _).
    destruct (updateInternal_quiet g1 cam tex false (final LO))
      as (_ & UdT & _).
    change (fun r => negb (opaque (state r)) && writeDepth (state r))
      with writing.
    change (fun r => negb (opaque (state r)) && negb (writeDepth (state r)))
      with nonWriting.
    rewrite !draws_app, UdO, UdT, DO, D1, D2.
    unfold g1. cbn [renderables]. rewrite RsO.
    rewrite (after_pass_draws (fun r => opaque (state r)) writing
               "colorBlended" "colorBlended" c (final LO) (renderables g) HcO)
      by (intros r; unfold writing; rewrite resolved_state; reflexivity).
    rewrite (after_pass_draws (fun r => opaque (state r)) nonWriting
               "colorBlended" "colorBlended" c (final LO) (renderables g) HcO)
      by (intros r; unfold nonWriting; rewrite resolved_state; reflexivity).
    rewrite !drawnBy_color_filter, !filter_and.
    unfold blendSetup. destruct (transparentBackground (final LO));
      cbn [draws app]; rewrite !map_app; reflexivity. }
  split; [exact D|]. rewrite D. apply Permutation_map.
  set (shown := filter (fun r => visible (state r)) (renderables g)).
  apply (Permutation_trans
           (l' := filter (fun r => opaque (state r)) shown
                  ++ filter (fun r => negb (opaque (state r))) shown));
    [|apply filter_split].
  apply Permutation_app_head.
  assert (W : filter writing shown =
              filter (fun r => writeDepth (state r))
                (filter (fun r => negb (opaque (state r))) shown)).
  { rewrite <- filter_and. apply filter_ext. intros r. unfold writing.
    apply andb_comm. }
  assert (N : filter nonWriting shown =
              filter (fun r => negb (writeDepth (state r)))
                (filter (fun r => negb (opaque (state r))) shown)).
  { rewrite <- filter_and. apply filter_ext. intros r. unfold nonWriting.
    apply andb_comm. }
  rewrite W, N. apply filter_split.
Qed.

(** ** The clip arrays *)

Lemma array_set_nth {A} (hole : A) a : forall i v j,
  (i <= List.length a)%nat ->
  nth_error (array_set hole a i v) j =
    if Nat.eqb j i then Some v else nth_error a j.
Proof.
  induction a as [|x a IH]; intros i v j H.
  - cbn [List.length] in H. assert (i = 0%nat) by lia. subst i.
    destruct j as [|j]; [reflexivity|]. cbn. destruct j; reflexivity.
  - destruct i as [|i].
    + destruct j; reflexivity.
    + cbn [array_set]. destruct j as [|j]; [reflexivity|].
      cbn [nth_error Nat.eqb]. apply IH. cbn [List.length] in H. lia.
Qed.

Lemma array_set_length {A} (hole : A) a : forall i v,
  (i <= List.length a)%nat ->
  List.length (array_set hole a i v) = Nat.max (List.length a) (S i).
Proof.
  induction a as [|x a IH]; intros i v H.
  - cbn [List.length] in H. assert (i = 0%nat) by lia. subst i. reflexivity.
  - destruct i as [|i].
    + cbn [array_set List.length]. lia.
    + cbn [array_set List.length]. rewrite IH by (cbn [List.length] in H; lia).
      lia.
Qed.

Lemma fillFrom_nth {A B} (hole : A) (f : B -> A) objs : forall i a j,
  (i <= List.length a)%nat ->
  nth_error (fillFrom hole f objs i a) j =
    if Nat.ltb j i then nth_error a j
    else if Nat.ltb j (i + List.length objs)
         then option_map f (nth_error objs (j - i))
         else nth_error a j.
Proof.
  induction objs as [|o rest IH]; intros i a j H.
  - cbn [fillFrom List.length]. rewrite Nat.add_0_r.
    destruct (Nat.ltb j i); reflexivity.
  - cbn [fillFrom List.length].
    rewrite IH by (rewrite array_set_length by exact H; lia).
    rewrite (array_set_nth hole a i (f o) j H).
    destruct (Nat.ltb_spec j (S i)) as [L|L].
    + destruct (Nat.eqb_spec j i) as [E|E].
      * subst j. rewrite Nat.ltb_irrefl.
        destruct (Nat.ltb_spec i (i + S (List.length rest))); [|lia].
        rewrite Nat.sub_diag. reflexivity.
      * destruct (Nat.ltb_spec j i); [reflexivity|lia].
    + destruct (Nat.ltb_spec j i); [lia|].
      destruct (Nat.eqb_spec j i); [lia|].
      replace (i + S (List.length rest))%nat
        with (S i + List.length rest)%nat by lia.
      destruct (Nat.ltb j (S i + List.length rest)); [|reflexivity].
      replace (j - i)%nat with (S (j - S i)) by lia. reflexivity.
Qed.

Lemma fillFrom_length {A B} (hole : A) (f : B -> A) objs : forall i a,
  (i <= List.length a)%nat ->
  List.length (fillFrom hole f objs i a) =
    Nat.max (List.length a) (i + List.length objs).
Proof.
  induction objs as [|o rest IH]; intros i a H.
  - cbn [fillFrom List.length]. lia.
  - cbn [fillFrom List.length].
    rewrite IH by (rewrite array_set_length by exact H; lia).
    rewrite array_set_length by exact H. lia.
Qed.

(** The loop of [getClip] fills each of the four arrays on its own. *)
Lemma getClip_loop_arrays objs : forall i o,
  let out := getClip_loop objs i o in
  count out = count o
  /\ clip_type out =
       fillFrom (ClipTypeCode_number PrimFloat.nan)
         (fun q => Clipping_Type (type q)) objs i (clip_type o)
  /\ clip_position out =
       fillFrom (Vec3_create PrimFloat.nan PrimFloat.nan PrimFloat.nan)
         position objs i (clip_position o)
  /\ clip_rotation out =
       fillFrom Quat_zero
         (fun q => Quat_setAxisAngle (axis (rotation q))
                     (degToRad (angle (rotation q))))
         objs i (clip_rotation o)
  /\ clip_scale out =
       fillFrom (Vec3_create PrimFloat.nan PrimFloat.nan PrimFloat.nan)
         scale objs i (clip_scale o).
Proof.
  induction objs as [|q rest IH]; intros i o; cbv zeta.
  - repeat split.
  - cbn [getClip_loop fillFrom].
    destruct (IH (S i)
      (mkClipObjects (count o)
         (array_set (ClipTypeCode_number PrimFloat.nan) (clip_type o) i
            (Clipping_Type (type q)))
         (array_set (Vec3_create PrimFloat.nan PrimFloat.nan PrimFloat.nan)
            (clip_position o) i (position q))
         (array_set Quat_zero (clip_rotation o) i
            (Quat_setAxisAngle (axis (rotation q))
               (degToRad (angle (rotation q)))))
         (array_set (Vec3_create PrimFloat.nan PrimFloat.nan PrimFloat.nan)
            (clip_scale o) i (scale q))))
      as (C & T & P & R & S).
    cbn [count clip_type clip_position clip_rotation clip_scale] in *.
    rewrite C, T, P, R, S. repeat split.
Qed.

Lemma fillFrom_slot {A B} (hole : A) (f : B -> A) objs a i o :
  nth_error objs i = Some o ->
  nth_error (fillFrom hole f objs 0 a) i = Some (f o).
Proof.
  intros H. rewrite fillFrom_nth by lia.
  assert (L : (i < List.length objs)%nat)
    by (apply nth_error_Some; rewrite H; discriminate).
  change (Nat.ltb i 0) with false. cbn [Nat.add].
  destruct (Nat.ltb_spec i (List.length objs)); [|lia].
  rewrite Nat.sub_0_r, H. reflexivity.
Qed.

Lemma fillFrom_beyond {A B} (hole : A) (f : B -> A) objs a i :
  (List.length objs <= i)%nat ->
  nth_error (fillFrom hole f objs 0 a) i = nth_error a i.
Proof.
  intros H. rewrite fillFrom_nth by lia.
  change (Nat.ltb i 0) with false. cbn [Nat.add].
  destruct (Nat.ltb_spec i (List.length objs)); [lia|reflexivity].
Qed.

(** [getClip] sets the count to the number of configured objects and the
    variant to the configured one, writes object [i] into slot [i] of each
    of the four arrays, and leaves every slot from the count on as it was
    in the arrays it was given (or as a first call fills them): after the
    number of objects went down, the slots of the objects dropped keep
    their data, and only the count tells.  No array gets shorter, and with
    more objects than slots the arrays grow to the count. *)
Theorem getClip_slots : forall props clip,
  let out := clip_objects (getClip props clip) in
  let old := arraysOf clip in
  let n := List.length (objects props) in
  count out = n
  /\ clip_variant (getClip props clip) = variant props
  /\ (forall i o, nth_error (objects props) i = Some o ->
        nth_error (clip_type out) i = Some (Clipping_Type (type o))
        /\ nth_error (clip_position out) i = Some (position o)
        /\ nth_error (clip_rotation out) i =
             Some (Quat_setAxisAngle (axis (rotation o))
                     (degToRad (angle (rotation o))))
        /\ nth_error (clip_scale out) i = Some (scale o))
  /\ (forall i, (n <= i)%nat ->
        nth_error (clip_type out) i = nth_error (clip_type old) i
        /\ nth_error (clip_position out) i = nth_error (clip_position old) i
        /\ nth_error (clip_rotation out) i = nth_error (clip_rotation old) i
        /\ nth_error (clip_scale out) i = nth_error (clip_scale old) i)
  /\ List.length (clip_type out) = Nat.max (List.length (clip_type old)) n
  /\ List.length (clip_position out) = Nat.max (List.length (clip_position old)) n
  /\ List.length (clip_rotation out) = Nat.max (List.length (clip_rotation old)) n
  /\ List.length (clip_scale out) = Nat.max (List.length (clip_scale old)) n.
Proof.
  intros props clip. cbv zeta. unfold getClip.
  fold (arraysOf clip).
  destruct (getClip_loop_arrays (objects props) 0 (arraysOf clip))
    as (_ & T & P & R & S).
  cbn [clip_objects clip_variant count clip_type clip_position clip_rotation
       clip_scale].
  rewrite T, P, R, S.
  split; [reflexivity|]. split; [reflexivity|]. split.
  { intros i o H.
    repeat split;
      [apply (fillFrom_slot _ (fun q => Clipping_Type (type q)))
      |apply (fillFrom_slot _ position)
      |apply (fillFrom_slot _
                (fun q => Quat_setAxisAngle (axis (rotation q))
                            (degToRad (angle (rotation q)))))
      |apply (fillFrom_slot _ scale)]; exact H. }
  split.
  { intros i H. repeat split; apply fillFrom_beyond; exact H. }
  rewrite !fillFrom_length by lia. repeat split.
Qed.

(** Configuring the same clip objects again on the arrays [getClip]
    returned changes nothing. *)
Theorem getClip_again : forall props clip,
  getClip props (Some (getClip props clip)) = getClip props clip.
Proof.
  intros props clip.
  assert (Again : forall (A B : Type) (hole : A) (f : B -> A) objs a,
    fillFrom hole f objs 0 (fillFrom hole f objs 0 a) = fillFrom hole f objs 0 a).
  { intros A B hole f objs a. apply nth_error_ext. intros j.
    rewrite (fillFrom_nth hole f objs 0 (fillFrom hole f objs 0 a)) by lia.
    rewrite !(fillFrom_nth hole f objs 0 a) by lia.
    change (Nat.ltb j 0) with false. cbn [Nat.add].
    destruct (Nat.ltb j (List.length objs)); reflexivity. }
  unfold getClip.
  destruct (getClip_loop_arrays (objects props) 0
              match clip with
              | Some c => clip_objects c
              | None => freshClipObjects
              end) as (_ & T & P & R & S).
  cbn [clip_objects].
  destruct (getClip_loop_arrays (objects props) 0
    (mkClipObjects (List.length (objects props))
       (clip_type (getClip_loop (objects props) 0
          match clip with
          | Some c => clip_objects c
          | None => freshClipObjects
          end))
       (clip_position (getClip_loop (objects props) 0
          match clip with
          | Some c => clip_objects c
          | None => freshClipObjects
          end))
       (clip_rotation (getClip_loop (objects props) 0
          match clip with
          | Some c => clip_objects c
          | None => freshClipObjects
          end))
       (clip_scale (getClip_loop (objects props) 0
          match clip with
          | Some c => clip_objects c
          | None => freshClipObjects
          end)))) as (_ & T' & P' & R' & S').
  cbn [clip_type clip_position clip_rotation clip_scale] in T', P', R', S'.
  rewrite T', P', R', S', T, P, R, S, !Again. reflexivity.
Qed.

(** ** Every pass: binding, textures, viewport and what is left alone *)

Lemma renderObject_more r variant c :
  let t := trace (renderObject r variant c) in
  binds t =
    (if passesVisibility r variant
     then if negb (Z.eqb (currentProgramId c) (programOf (resolved c r) variant))
          then [programOf (resolved c r) variant] else []
     else [])
  /\ relinks t =
       (if passesVisibility r variant && needsRelink c r
        then [resolved c r] else [])
  /\ drawTextures t =
       (if passesVisibility r variant then [sharedTexturesList c] else [])
  /\ viewports t = []
  /\ scissors t = [].
Proof.
  cbv zeta. unfold needsRelink. destruct (passesVisibility r variant) eqn:V.
  - rewrite (trace_eq _ _ _ _ (renderObject_drawn r variant c V)).
    destruct (drawState_silent (fragDepth c) (resolved c r) variant)
      as (Q1 & Q2 & Q3 & Q4 & Q5).
    cbn [app binds relinks drawTextures viewports scissors andb].
    rewrite !binds_app, !relinks_app, !drawTextures_app, !viewports_app,
      !scissors_app, Q1, Q2, Q3, Q4, Q5.
    destruct (snd (resolveClipDefines (Renderer.clip c) r));
      destruct (negb _); destruct (globalUniformsNeedUpdate c);
      repeat split.
  - rewrite (renderObject_skipped r variant c V). repeat split.
Qed.

Lemma needsRelink_ext c c' r :
  Renderer.clip c' = Renderer.clip c -> needsRelink c' r = needsRelink c r.
Proof. unfold needsRelink. intros ->. reflexivity. Qed.

Lemma renderLoop_more cond variant rs : forall c,
  let out := renderLoop cond variant rs c in
  binds (trace out) =
    runs_after (currentProgramId c) (drawnPrograms (trace out))
  /\ relinks (trace out) =
       map (resolved c)
         (filter (fun r => drawnBy cond variant r && needsRelink c r) rs)
  /\ drawTextures (trace out) =
       map (fun _ => sharedTexturesList c) (filter (drawnBy cond variant) rs)
  /\ viewports (trace out) = []
  /\ scissors (trace out) = [].
Proof.
  induction rs as [|r rs IH]; intros c; cbv zeta.
  - repeat split.
  - destruct (renderLoop_cons cond variant r rs c) as (_ & _ & E3).
    rewrite E3. clear E3.
    set (c1 := final (turn cond variant r c)).
    assert (Hbody :
      binds (trace (turn cond variant r c)) =
        (if drawnBy cond variant r
         then if negb (Z.eqb (currentProgramId c)
                         (programOf (resolved c r) variant))
              then [programOf (resolved c r) variant] else []
         else [])
      /\ relinks (trace (turn cond variant r c)) =
           (if drawnBy cond variant r && needsRelink c r
            then [resolved c r] else [])
      /\ drawTextures (trace (turn cond variant r c)) =
           (if drawnBy cond variant r then [sharedTexturesList c] else [])
      /\ viewports (trace (turn cond variant r c)) = []
      /\ scissors (trace (turn cond variant r c)) = []
      /\ draws (trace (turn cond variant r c)) =
           (if drawnBy cond variant r then [(resolved c r, variant)] else [])
      /\ sameSettings c c1
      /\ currentProgramId c1 =
           (if drawnBy cond variant r
            then programOf (resolved c r) variant else currentProgramId c)).
    { unfold c1, turn, drawnBy. destruct (cond r); cbn [andb].
      - destruct (renderObject_more r variant c) as (M1 & M2 & M3 & M4 & M5).
        destruct (renderObject_final r variant c) as (S1 & _ & S3).
        rewrite renderObject_draws.
        repeat (split; [assumption|]). split; [reflexivity|].
        split; [exact S1|exact S3].
      - repeat (split; [reflexivity|]).
        split; [apply sameSettings_refl|reflexivity]. }
    destruct Hbody as (B1 & B2 & B3 & B4 & B5 & B6 & B7 & B8).
    destruct (IH c1) as (I1 & I2 & I3 & I4 & I5).
    pose proof (sameSettings_clip _ _ B7) as Hclip.
    assert (Htex : sharedTexturesList c1 = sharedTexturesList c).
    { unfold sameSettings in B7. decompose [and] B7. assumption. }
    rewrite binds_app, relinks_app, drawTextures_app, viewports_app,
      scissors_app, drawnPrograms_app, B1, B2, B3, B4, B5, I1, I2, I3, I4, I5.
    unfold drawnPrograms at 2. rewrite B6, B8, Htex.
    split; [|split; [|split; [|split; reflexivity]]].
    + destruct (drawnBy cond variant r); cbn [map app runs_after fst snd];
        [|reflexivity].
      destruct (Z.eqb (currentProgramId c) (programOf (resolved c r) variant));
        reflexivity.
    + cbn [filter].
      rewrite (filter_ext _ (fun a => drawnBy cond variant a && needsRelink c a))
        by (intros a; rewrite (needsRelink_ext c c1 a Hclip); reflexivity).
      rewrite (map_ext _ _ (fun a => resolved_ext c c1 a Hclip)).
      destruct (drawnBy cond variant r && needsRelink c r); reflexivity.
    + cbn [filter]. destruct (drawnBy cond variant r); reflexivity.
Qed.

(** What [updateInternal] writes. *)
Lemma updateInternal_writes g cam tex wb c :
  let c' := final (updateInternal g cam tex wb c) in
  sameConfiguration c c'
  /\ sharedTexturesList c' =
       arrayMapUpsert (sharedTexturesList c) "tDepth" (orNull tex)
  /\ globalUniforms c' = matrixWrites g cam wb (globalUniforms c).
Proof.
  destruct c. cbv zeta.
  unfold updateInternal, sameConfiguration, orNull, matrixWrites.
  run_ctx. repeat split.
Qed.

Lemma sameSettings_configuration c c' :
  sameSettings c c' ->
  sameConfiguration c c'
  /\ sharedTexturesList c' = sharedTexturesList c
  /\ globalUniforms c' = globalUniforms c.
Proof.
  unfold sameSettings, sameConfiguration. intros H. decompose [and] H.
  repeat split; assumption.
Qed.

Lemma sameConfiguration_trans c1 c2 c3 :
  sameConfiguration c1 c2 -> sameConfiguration c2 c3 -> sameConfiguration c1 c3.
Proof.
  unfold sameConfiguration. intros H1 H2.
  decompose [and] H1. decompose [and] H2. repeat split; congruence.
Qed.

Lemma entryOf_upsert {V} (xs : list (string * V)) key v :
  entryOf key (arrayMapUpsert xs key v) = Some v.
Proof.
  induction xs as [|[k w] xs IH]; cbn [arrayMapUpsert entryOf].
  - rewrite String.eqb_refl. reflexivity.
  - destruct (String.eqb k key) eqn:E; cbn [entryOf]; rewrite E;
      [reflexivity|exact IH].
Qed.

Lemma entryOf_upsert_other {V} (xs : list (string * V)) key k v :
  String.eqb k key = false ->
  entryOf k (arrayMapUpsert xs key v) = entryOf k xs.
Proof.
  intros D. induction xs as [|[k' w] xs IH]; cbn [arrayMapUpsert entryOf].
  - rewrite String.eqb_sym, D. reflexivity.
  - destruct (String.eqb k' key) eqn:E; cbn [entryOf].
    + apply String.eqb_eq in E. subst k'. rewrite String.eqb_sym, D.
      reflexivity.
    + rewrite IH. reflexivity.
Qed.

Lemma last_app {A} (l1 l2 : list A) d :
  last (l1 ++ l2) d = last l2 (last l1 d).
Proof.
  revert d. induction l1 as [|a l1 IH]; intros d; [reflexivity|].
  change ((a :: l1) ++ l2) with (a :: (l1 ++ l2)).
  rewrite !last_cons. apply IH.
Qed.

Lemma map_constant {A B} (b : B) (l : list A) :
  map (fun _ => b) l = repeat b (List.length l).
Proof.
  induction l as [|a l IH]; [reflexivity|].
  cbn [map List.length repeat]. rewrite IH. reflexivity.
Qed.

Lemma updateInternal_silent g cam tex wb c :
  let t := trace (updateInternal g cam tex wb c) in
  relinks t = [] /\ binds t = [] /\ drawTextures t = []
  /\ viewports t = [viewport c] /\ scissors t = [viewport c].
Proof.
  cbv zeta. destruct (updateInternal_spec g cam tex wb c) as (T & _).
  rewrite T. repeat split.
Qed.

(** A pass with one loop. *)
Lemma one_loop_law pre g cam tex wb cond variant c :
  quiet pre -> silent pre ->
  let U := updateInternal g cam tex wb c in
  let L := renderLoop cond variant (renderables g) (final U) in
  passLaw c g cam tex wb (pre ++ trace U ++ trace L) (final L).
Proof.
  intros (_ & Qd & _) (_ & Sb & St & Sv & Ss). cbv zeta.
  destruct (updateInternal_spec g cam tex wb c) as (_ & N & P & _).
  destruct (updateInternal_quiet g cam tex wb c) as (_ & Ud & _).
  destruct (updateInternal_silent g cam tex wb c) as (_ & Ub & Ut & Uv & Us).
  destruct (updateInternal_writes g cam tex wb c) as (UC & UT & UG).
  set (cU := final (updateInternal g cam tex wb c)) in *.
  destruct (renderLoop_spec cond variant (renderables g) cU)
    as (_ & _ & D & _ & S & LN & LP).
  destruct (renderLoop_more cond variant (renderables g) cU)
    as (B & _ & T & V & Sc).
  destruct (sameSettings_configuration _ _ S) as (LC & LT & LG).
  set (L := renderLoop cond variant (renderables g) cU) in *.
  unfold passLaw. cbv zeta.
  rewrite !binds_app, !viewports_app, !scissors_app, !drawTextures_app,
    !drawnPrograms_app, !draws_app.
  rewrite Sb, St, Sv, Ss, Ub, Ut, Uv, Us, Qd, Ud, B, T, V, Sc.
  rewrite (drawnPrograms_nil _ Qd), (drawnPrograms_nil _ Ud).
  cbn [app]. rewrite LP, P, N in *.
  split; [reflexivity|]. split; [reflexivity|].
  split; [reflexivity|]. split; [reflexivity|].
  split.
  { rewrite D, length_map, map_constant, UT. reflexivity. }
  split; [rewrite LT; exact UT|].
  split; [exact (sameConfiguration_trans _ _ _ UC LC)|].
  split; [rewrite LG; exact UG|].
  exact LN.
Qed.

(** Every pass keeps [passLaw]. *)
Lemma pass_law pass g cam tex c :
  let out := runPass pass g cam tex c in
  passLaw c g cam tex (renderWboitOf pass) (trace out) (final out).
Proof.
  cbv zeta. destruct pass as [v| | | | | |]; cbn [runPass renderWboitOf].
  - rewrite (trace_eq _ _ _ _ (renderPick_run g cam v tex c)),
      (final_eq _ _ _ _ (renderPick_run g cam v tex c)).
    apply one_loop_law; repeat split.
  - rewrite (trace_eq _ _ _ _ (renderDepth_run g cam tex c)),
      (final_eq _ _ _ _ (renderDepth_run g cam tex c)).
    apply one_loop_law; repeat split.
  - rewrite (trace_eq _ _ _ _ (renderBlendedOpaque_run g cam tex c)),
      (final_eq _ _ _ _ (renderBlendedOpaque_run g cam tex c)).
    apply one_loop_law; repeat split.
  - rewrite (trace_eq _ _ _ _ (renderBlendedTransparent_run g cam tex c)),
      (final_eq _ _ _ _ (renderBlendedTransparent_run g cam tex c)).
    destruct (updateInternal_spec g cam tex false c) as (_ & N & P & _).
    destruct (updateInternal_quiet g cam tex false c) as (_ & Ud & _).
    destruct (updateInternal_silent g cam tex false c)
      as (_ & Ub & Ut & Uv & Us).
    destruct (updateInternal_writes g cam tex false c) as (UC & UT & UG).
    set (cU := final (updateInternal g cam tex false c)) in *.
    destruct (renderLoop_spec
      (fun r => negb (opaque (state r)) && writeDepth (state r))
      "colorBlended" (renderables g) cU) as (_ & _ & D1 & _ & S1 & N1 & P1).
    destruct (renderLoop_more
      (fun r => negb (opaque (state r)) && writeDepth (state r))
      "colorBlended" (renderables g) cU) as (B1 & _ & T1 & V1 & Sc1).
    set (L1 := renderLoop _ _ _ cU) in *.
    destruct (renderLoop_spec
      (fun r => negb (opaque (state r)) && negb (writeDepth (state r)))
      "colorBlended" (result L1) (final L1))
      as (_ & _ & D2 & _ & S2 & N2 & P2).
    destruct (renderLoop_more
      (fun r => negb (opaque (state r)) && negb (writeDepth (state r)))
      "colorBlended" (result L1) (final L1)) as (B2 & _ & T2 & V2 & Sc2).
    set (L2 := renderLoop _ _ _ (final L1)) in *.
    destruct (sameSettings_configuration _ _ S1) as (LC1 & LT1 & LG1).
    destruct (sameSettings_configuration _ _ S2) as (LC2 & LT2 & LG2).
    assert (BS : binds [blendSetup c; state_enable BLEND; state_depthMask true] = []
              /\ drawTextures [blendSetup c; state_enable BLEND; state_depthMask true] = []
              /\ viewports [blendSetup c; state_enable BLEND; state_depthMask true] = []
              /\ scissors [blendSetup c; state_enable BLEND; state_depthMask true] = []
              /\ draws [blendSetup c; state_enable BLEND; state_depthMask true] = []).
    { unfold blendSetup. destruct (transparentBackground c); repeat split. }
    destruct BS as (Mb & Mt & Mv & Ms & Md).
    unfold passLaw. cbv zeta.
    rewrite !binds_app, !viewports_app, !scissors_app, !drawTextures_app,
      !drawnPrograms_app, !draws_app.
    rewrite Mb, Mt, Mv, Ms, Md, Ub, Ut, Uv, Us, Ud, B1, B2, T1, T2, V1, V2,
      Sc1, Sc2.
    rewrite (drawnPrograms_nil _ Md), (drawnPrograms_nil _ Ud).
    cbn [app binds viewports scissors drawTextures draws drawnPrograms map].
    fold (drawnPrograms (trace L1)). fold (drawnPrograms (trace L2)).
    split.
    { rewrite runs_after_app, P1, P. reflexivity. }
    split.
    { rewrite last_app, P2, P1, P. reflexivity. }
    split; [reflexivity|]. split; [reflexivity|].
    split.
    { rewrite !map_constant, LT1, UT, length_app, repeat_app.
      rewrite D1, D2, !length_map. reflexivity. }
    split; [rewrite LT2, LT1; exact UT|].
    split.
    { exact (sameConfiguration_trans _ _ _ UC
               (sameConfiguration_trans _ _ _ LC1 LC2)). }
    split; [rewrite LG2, LG1; exact UG|].
    rewrite N2, N1, N.
    destruct (draws (trace L1)); destruct (draws (trace L2)); reflexivity.
  - rewrite (trace_eq _ _ _ _ (renderBlendedVolume_run g cam tex c)),
      (final_eq _ _ _ _ (renderBlendedVolume_run g cam tex c)).
    apply one_loop_law; repeat split.
  - rewrite (trace_eq _ _ _ _ (renderWboitOpaque_run g cam tex c)),
      (final_eq _ _ _ _ (renderWboitOpaque_run g cam tex c)).
    apply one_loop_law; repeat split.
  - rewrite (trace_eq _ _ _ _ (renderWboitTransparent_run g cam tex c)),
      (final_eq _ _ _ _ (renderWboitTransparent_run g cam tex c)).
    apply (one_loop_law [] g cam tex true); repeat split.
Qed.

(** ** Programs are bound on change *)

Lemma runs_after_within_runs a ps :
  (forall x, In x (runs_after a ps) -> In x (runs ps))
  /\ (List.length (runs_after a ps) <= List.length (runs ps))%nat.
Proof.
  destruct ps as [|q ps]; [split; [intros x []|cbn; lia]|].
  cbn [runs runs_after]. destruct (Z.eqb a q).
  - split; [intros x H; right; exact H|cbn [List.length]; lia].
  - split; [intros x H; exact H|lia].
Qed.

(** In every pass [program.use()] is called for a draw exactly when its
    program is not the one bound, the program bound when the pass starts
    included: a pass whose first program is still bound from the pass
    before does not bind it again, though it uploads the uniforms.  The
    pass leaves the program of its last draw bound, or the one it found
    when it draws nothing; and every bind comes with an upload. *)
Theorem pass_binds_on_change : forall pass g cam tex c,
  let out := runPass pass g cam tex c in
  let t := trace out in
  binds t = runs_after (currentProgramId c) (drawnPrograms t)
  /\ currentProgramId (final out) =
       last (drawnPrograms t) (currentProgramId c)
  /\ (forall x, In x (binds t) -> In x (uploads t))
  /\ (List.length (binds t) <= List.length (uploads t))%nat.
Proof.
  intros pass g cam tex c. cbv zeta.
  destruct (pass_law pass g cam tex c) as (B & P & _).
  pose proof (pass_uploads pass g cam tex c) as U. cbv zeta in U.
  rewrite B, U.
  split; [reflexivity|]. split; [exact P|].
  apply runs_after_within_runs.
Qed.

(** ** The viewport *)

Lemma viewport_eta v :
  mkViewport (vp_x v) (vp_y v) (vp_width v) (vp_height v) = v.
Proof. destruct v. reflexivity. Qed.

Lemma setViewport_run x y w h c :
  let v := mkViewport x y w h in
  setViewport x y w h c =
    (tt,
     if negb (Z.eqb x (vp_x (viewport c))) || negb (Z.eqb y (vp_y (viewport c)))
        || negb (Z.eqb w (vp_width (viewport c)))
        || negb (Z.eqb h (vp_height (viewport c)))
     then set_globalUniforms (set_viewport c v)
            (uniform_update "uViewport" (U_viewport v)
               (uniform_update "uViewportHeight" (U_int h) (globalUniforms c)))
     else c,
     [gl_viewport v; gl_scissor v]).
Proof.
  destruct c as [fd pp st cl vp bg tb txs gu need cur item]. cbv zeta.
  unfold setViewport. run_ctx.
  destruct (negb (Z.eqb x (vp_x vp)) || negb (Z.eqb y (vp_y vp))
            || negb (Z.eqb w (vp_width vp)) || negb (Z.eqb h (vp_height vp)));
    run_ctx; reflexivity.
Qed.

Lemma setViewport_stores x y w h c :
  viewport (final (setViewport x y w h c)) = mkViewport x y w h.
Proof.
  rewrite (final_eq _ _ _ _ (setViewport_run x y w h c)).
  destruct (Z.eqb_spec x (vp_x (viewport c))) as [Ex|];
    [|destruct c; reflexivity].
  destruct (Z.eqb_spec y (vp_y (viewport c))) as [Ey|];
    [|destruct c; reflexivity].
  destruct (Z.eqb_spec w (vp_width (viewport c))) as [Ew|];
    [|destruct c; reflexivity].
  destruct (Z.eqb_spec h (vp_height (viewport c))) as [Eh|];
    [|destruct c; reflexivity].
  cbn [negb orb]. subst. symmetry. apply viewport_eta.
Qed.

(** [setViewport] always calls [gl.viewport] and [gl.scissor] with the
    rectangle given and stores it; given the rectangle the renderer has,
    it leaves the renderer as it is, so a second identical call writes no
    uniform.  Every pass run afterwards sets the viewport and the scissor
    rectangle to it once, before its draws, and leaves it stored. *)
Theorem setViewport_governs_passes : forall x y w h c pass g cam tex,
  let v := mkViewport x y w h in
  let S := setViewport x y w h c in
  let P := runPass pass g cam tex (final S) in
  trace S = [gl_viewport v; gl_scissor v]
  /\ viewport (final S) = v
  /\ (viewport c = v -> final S = c)
  /\ setViewport x y w h (final S) = (tt, final S, [gl_viewport v; gl_scissor v])
  /\ viewports (trace P) = [v]
  /\ scissors (trace P) = [v]
  /\ viewport (final P) = v.
Proof.
  intros x y w h c pass g cam tex. cbv zeta.
  assert (Same : forall c0, viewport c0 = mkViewport x y w h ->
                 setViewport x y w h c0 =
                   (tt, c0, [gl_viewport (mkViewport x y w h);
                             gl_scissor (mkViewport x y w h)])).
  { intros c0 E. pose proof (setViewport_run x y w h c0) as R. cbv zeta in R.
    rewrite E in R. cbn [vp_x vp_y vp_width vp_height] in R.
    rewrite !Z.eqb_refl in R. exact R. }
  pose proof (setViewport_stores x y w h c) as St.
  split; [exact (trace_eq _ _ _ _ (setViewport_run x y w h c))|].
  split; [exact St|].
  split; [intros E; rewrite (Same c E); reflexivity|].
  split; [apply Same; exact St|].
  destruct (pass_law pass g cam tex (final (setViewport x y w h c)))
    as (_ & _ & V & Sc & _ & _ & Cf & _).
  rewrite V, Sc, St.
  split; [reflexivity|]. split; [reflexivity|].
  destruct Cf as (_ & _ & _ & _ & Vp & _). rewrite Vp. exact St.
Qed.

(** ** The depth texture of a pass *)

(** Every draw call of a pass is given the shared textures with the depth
    texture of the pass under [tDepth], or the empty depth texture when
    the pass is given none, whatever an earlier pass left there; the
    other shared textures are passed on as they are. *)
Theorem pass_draws_with_depth_texture : forall pass g cam tex c,
  let t := trace (runPass pass g cam tex c) in
  List.length (drawTextures t) = List.length (draws t)
  /\ Forall (fun textures =>
               entryOf "tDepth" textures = Some (orNull tex)
               /\ forall k, String.eqb k "tDepth" = false ->
                    entryOf k textures = entryOf k (sharedTexturesList c))
       (drawTextures t).
Proof.
  intros pass g cam tex c. cbv zeta.
  destruct (pass_law pass g cam tex c) as (_ & _ & _ & _ & T & _).
  rewrite T. split; [apply repeat_length|].
  apply Forall_forall. intros x H. apply repeat_spec in H. subst x.
  split; [apply entryOf_upsert|].
  intros k D. apply entryOf_upsert_other. exact D.
Qed.

(** ** What stays as configured *)

Lemma matrixWrites_settled g cam wb u n x :
  In n ["uLightIntensity"; "uAmbientIntensity"; "uMetalness";
        "uRoughness"; "uReflectivity"] ->
  settled n x u -> settled n x (matrixWrites g cam wb u).
Proof.
  intros Hn Hx. unfold matrixWrites. cbv zeta.
  unfold uniform_update. unfold uniform_updateIfChanged at 1.
  cbn [In] in Hn.
  repeat (destruct Hn as [<-|Hn]; [other_cells|]); contradiction.
Qed.

Lemma pass_sync pass g cam tex c :
  styleInSync c -> styleInSync (final (runPass pass g cam tex c)).
Proof.
  intros S.
  destruct (pass_law pass g cam tex c)
    as (_ & _ & _ & _ & _ & _ & Cf & G & _).
  destruct Cf as (_ & Hp & Hs & _).
  apply (styleInSync_kept c); [exact S|rewrite Hp; reflexivity|exact Hs|].
  intros n x Hn Hx. rewrite G. apply matrixWrites_settled; assumption.
Qed.

Lemma setViewport_sync x y w h c :
  styleInSync c -> styleInSync (final (setViewport x y w h c)).
Proof.
  intros S. rewrite (final_eq _ _ _ _ (setViewport_run x y w h c)).
  match goal with |- context [if ?b then _ else _] => destruct b end;
    [|exact S].
  apply (styleInSync_kept c); [exact S|destruct c; reflexivity
                              |destruct c; reflexivity|].
  destruct c as [fd pp st cl vp bg tb txs gu need cur item].
  cbn [globalUniforms set_globalUniforms set_viewport].
  intros n v Hn Hv. unfold uniform_update. cbn [In] in Hn.
  repeat (destruct Hn as [<-|Hn]; [other_cells|]); contradiction.
Qed.

Lemma setTransparentBackground_sync b c :
  styleInSync c -> styleInSync (final (setTransparentBackground b c)).
Proof.
  intros S. destruct c. exact S.
Qed.

Lemma reachable_styleInSync c : reachable c -> styleInSync c.
Proof.
  induction 1 as [fd ratio w h p0 D|q c D _ IH|x y w h c _ IH|b c _ IH
                 |pass g cam tex c _ IH].
  - apply create_sync. exact D.
  - apply setProps_sync; assumption.
  - apply setViewport_sync. exact IH.
  - apply setTransparentBackground_sync. exact IH.
  - apply pass_sync. exact IH.
Qed.

(** Whatever was done with a renderer since it was created, setting
    properties, setting the viewport or the background mode and running
    passes, in any order, a call of [setProps] that gives only values
    equal to the current ones leaves it exactly as it is.  The styles set
    are styles whose numbers are not NaN. *)
Theorem setProps_noop_in_use : forall c q,
  reachable c -> unchangedBy q (props c) -> setProps q c = c.
Proof.
  intros c q R U. apply setProps_unchanged; [|exact U].
  apply reachable_styleInSync. exact R.
Qed.

(** In the renderer used in the samples a call that repeats the current
    values changes nothing. *)
Lemma setProps_noop_in_use_witness :
  setProps (mkPartial (Some 0%Z) (Some 0.5%float) None (Some true) None None
              None (Some matte) (Some twoPlanes)) usedRenderer
  = usedRenderer.
Proof.
  apply setProps_noop_in_use.
  - unfold usedRenderer. apply reach_pass, reach_setViewport, reach_setProps.
    + exact I.
    + apply reach_create. vm_compute. repeat split.
  - unfold unchangedBy.
    repeat split; intros v E;
      first [discriminate E|injection E as <-; vm_compute; reflexivity].
Defined.

(** ** The clip settings reach the drawables *)

Lemma clipInSync_kept c c' :
  clipInSync c ->
  Config.clip (p c') = Config.clip (p c) ->
  Renderer.clip c' = Renderer.clip c ->
  clipInSync c'.
Proof. unfold clipInSync. intros H -> ->. exact H. Qed.

Ltac keeps_clip step c :=
  intros S; apply (clipInSync_kept _ _ S);
  unfold step;
  repeat match goal with
         | |- context [match ?o with Some _ => _ | None => _ end] =>
             destruct o; [|reflexivity]
         | |- context [if ?b then _ else _] => destruct b; [|reflexivity]
         end;
  destruct c; reflexivity.

Lemma setProps_backgroundColor_clip q c :
  clipInSync c -> clipInSync (setProps_backgroundColor q c).
Proof. keeps_clip setProps_backgroundColor c. Qed.

Lemma setProps_pickingAlphaThreshold_clip q c :
  clipInSync c -> clipInSync (setProps_pickingAlphaThreshold q c).
Proof. keeps_clip setProps_pickingAlphaThreshold c. Qed.

Lemma setProps_interiorDarkening_clip q c :
  clipInSync c -> clipInSync (setProps_interiorDarkening q c).
Proof. keeps_clip setProps_interiorDarkening c. Qed.

Lemma setProps_interiorColorFlag_clip q c :
  clipInSync c -> clipInSync (setProps_interiorColorFlag q c).
Proof. keeps_clip setProps_interiorColorFlag c. Qed.

Lemma setProps_interiorColor_clip q c :
  clipInSync c -> clipInSync (setProps_interiorColor q c).
Proof. keeps_clip setProps_interiorColor c. Qed.

Lemma setProps_highlightColor_clip q c :
  clipInSync c -> clipInSync (setProps_highlightColor q c).
Proof. keeps_clip setProps_highlightColor c. Qed.

Lemma setProps_selectColor_clip q c :
  clipInSync c -> clipInSync (setProps_selectColor q c).
Proof. keeps_clip setProps_selectColor c. Qed.

Lemma setProps_style_clip q c :
  clipInSync c -> clipInSync (setProps_style q c).
Proof. keeps_clip setProps_style c. Qed.

Lemma getClip_header props old :
  count (clip_objects (getClip props old)) = List.length (objects props)
  /\ clip_variant (getClip props old) = variant props.
Proof. split; reflexivity. Qed.

Lemma setProps_clip_clip q c :
  clipInSync c -> clipInSync (setProps_clip q c).
Proof.
  intros S. unfold setProps_clip.
  destruct (clip_opt q) as [v|]; [|exact S].
  destruct (negb (deepEqual v (Config.clip (p c)))); [|exact S].
  destruct c as [fd pp st cl vp bg tb txs gu need cur item].
  unfold clipInSync. cbv zeta.
  cbn [set_p set_clip set_globalUniforms p Renderer.clip with_clip Config.clip
       fragDepth Renderer.style viewport bgColor transparentBackground
       sharedTexturesList globalUniforms globalUniformsNeedUpdate
       currentProgramId currentRenderItemId].
  apply getClip_header.
Qed.

Lemma setProps_clipInSync q c : clipInSync c -> clipInSync (setProps q c).
Proof.
  intros S. unfold setProps. cbv zeta.
  apply setProps_clip_clip, setProps_style_clip, setProps_selectColor_clip,
    setProps_highlightColor_clip, setProps_interiorColor_clip,
    setProps_interiorColorFlag_clip, setProps_interiorDarkening_clip,
    setProps_pickingAlphaThreshold_clip, setProps_backgroundColor_clip.
  exact S.
Qed.

Lemma reachable_clipInSync c : reachable c -> clipInSync c.
Proof.
  induction 1 as [fd ratio w h p0 D|q c D _ IH|x y w h c _ IH|b c _ IH
                 |pass g cam tex c _ IH].
  - unfold create, clipInSync. cbv zeta. cbn [p Renderer.clip].
    apply getClip_header.
  - apply setProps_clipInSync. exact IH.
  - apply (clipInSync_kept c); [exact IH| |];
      rewrite (final_eq _ _ _ _ (setViewport_run x y w h c));
      match goal with |- context [if ?b then _ else _] => destruct b end;
      destruct c; reflexivity.
  - apply (clipInSync_kept c); [exact IH| |]; destruct c; reflexivity.
  - destruct (pass_law pass g cam tex c)
      as (_ & _ & _ & _ & _ & _ & Cf & _).
    destruct Cf as (_ & Hp & _ & Hc & _).
    apply (clipInSync_kept c); [exact IH|rewrite Hp; reflexivity|exact Hc].
Qed.

(** However the renderer was configured and used before, a drawable that
    is drawn leaves the draw with clip defines that match the clip
    configuration [props.clip] reads back: the number of configured clip
    objects and the configured variant, or the count 0 when the drawable
    opts out of clipping; its variant define is then left as it was. *)
Theorem drawn_defines_match_props : forall c r variant,
  reachable c ->
  passesVisibility r variant = true ->
  let r' := result (renderObject r variant c) in
  if noClip (state r)
  then cell_value (dClipObjectCount (values r')) = 0%nat
       /\ dClipVariant (values r') = dClipVariant (values r)
  else cell_value (dClipObjectCount (values r')) =
         List.length (objects (Config.clip (props c)))
       /\ cell_value (dClipVariant (values r')) =
            Config.variant (Config.clip (props c)).
Proof.
  intros c r variant R V. cbv zeta.
  destruct (reachable_clipInSync c R) as (Sc & Sv).
  rewrite renderObject_result, V.
  pose proof (resolveClipDefines_follow c r) as F.
  unfold definesFollow in F. fold (resolved c r) in F.
  rewrite resolved_state in F. unfold props.
  destruct (noClip (state r)) eqn:N.
  - split; [exact F|].
    unfold resolved, resolveClipDefines. rewrite N.
    destruct (negb _); reflexivity.
  - rewrite <- Sc, <- Sv. exact F.
Qed.

(** The plain sample drawable, drawn by the renderer of the samples after
    two clip objects were configured, has the count 2 and the variant
    configured. *)
Lemma drawn_defines_match_props_witness :
  let r' := result (renderObject plain "depth" usedRenderer) in
  cell_value (dClipObjectCount (values r')) = 2%nat
  /\ cell_value (dClipVariant (values r')) = "pixel".
Proof.
  apply (drawn_defines_match_props usedRenderer plain "depth").
  - unfold usedRenderer. apply reach_pass, reach_setViewport, reach_setProps.
    + exact I.
    + apply reach_create. vm_compute. repeat split.
  - reflexivity.
Defined.

(** ** A group with nothing to show *)

Lemma drawnBy_hidden cond variant r :
  visible (state r) = false -> drawnBy cond variant r = false.
Proof.
  intros H. unfold drawnBy, passesVisibility. rewrite H.
  apply andb_false_r.
Qed.

Lemma renderLoop_hidden cond variant rs c :
  (forall r, In r rs -> visible (state r) = false) ->
  let L := renderLoop cond variant rs c in
  result L = rs /\ draws (trace L) = [] /\ relinks (trace L) = [].
Proof.
  intros H. cbv zeta.
  destruct (renderLoop_spec cond variant rs c) as (R & _ & D & _).
  destruct (renderLoop_more cond variant rs c) as (_ & Rl & _).
  rewrite R, D, Rl. clear R D Rl.
  induction rs as [|r rs IH]; [repeat split|].
  assert (Hr : drawnBy cond variant r = false)
    by (apply drawnBy_hidden, H; left; reflexivity).
  destruct IH as (I1 & I2 & I3); [intros a Ha; apply H; right; exact Ha|].
  cbn [map filter]. rewrite Hr. cbn [andb]. rewrite I1.
  repeat split; assumption.
Qed.

Lemma group_eta g : mkGroup (view g) (renderables g) = g.
Proof. destruct g. reflexivity. Qed.

Lemma one_loop_hidden pre g cam tex wb cond variant c :
  quiet pre -> silent pre ->
  (forall r, In r (renderables g) -> visible (state r) = false) ->
  let U := updateInternal g cam tex wb c in
  let L := renderLoop cond variant (renderables g) (final U) in
  mkGroup (view g) (result L) = g
  /\ draws (pre ++ trace U ++ trace L) = []
  /\ relinks (pre ++ trace U ++ trace L) = [].
Proof.
  intros (_ & Qd & _) (Sr & _) H. cbv zeta.
  destruct (updateInternal_quiet g cam tex wb c) as (_ & Ud & _).
  destruct (updateInternal_silent g cam tex wb c) as (Ur & _).
  destruct (renderLoop_hidden cond variant (renderables g)
              (final (updateInternal g cam tex wb c)) H) as (R & D & Rl).
  rewrite !draws_app, !relinks_app, Qd, Sr, Ud, Ur, R, D, Rl.
  split; [apply group_eta|]. split; reflexivity.
Qed.

(** A pass over a group with no visible drawable, an empty group
    included, draws nothing, relinks nothing, binds no program and
    uploads no uniforms; it gives the group back as it was and leaves the
    bound program bound.  It still sets up its state and the viewport,
    and the uniforms stay due for the next draw. *)
Theorem hidden_group_inert : forall pass g cam tex c,
  (forall r, In r (renderables g) -> visible (state r) = false) ->
  let out := runPass pass g cam tex c in
  let t := trace out in
  result out = g
  /\ draws t = [] /\ relinks t = [] /\ binds t = [] /\ uploads t = []
  /\ viewports t = [viewport c]
  /\ currentProgramId (final out) = currentProgramId c
  /\ globalUniformsNeedUpdate (final out) = true.
Proof.
  intros pass g cam tex c H. cbv zeta.
  destruct (pass_law pass g cam tex c) as (B & P & V & _ & _ & _ & _ & _ & N).
  pose proof (pass_uploads pass g cam tex c) as U. cbv zeta in U.
  assert (K : result (runPass pass g cam tex c) = g
              /\ draws (trace (runPass pass g cam tex c)) = []
              /\ relinks (trace (runPass pass g cam tex c)) = []).
  { destruct pass as [v| | | | | |]; cbn [runPass].
    - rewrite (trace_eq _ _ _ _ (renderPick_run g cam v tex c)),
        (result_eq _ _ _ _ (renderPick_run g cam v tex c)).
      apply one_loop_hidden; [repeat split|repeat split|exact H].
    - rewrite (trace_eq _ _ _ _ (renderDepth_run g cam tex c)),
        (result_eq _ _ _ _ (renderDepth_run g cam tex c)).
      apply one_loop_hidden; [repeat split|repeat split|exact H].
    - rewrite (trace_eq _ _ _ _ (renderBlendedOpaque_run g cam tex c)),
        (result_eq _ _ _ _ (renderBlendedOpaque_run g cam tex c)).
      apply one_loop_hidden; [repeat split|repeat split|exact H].
    - rewrite (trace_eq _ _ _ _ (renderBlendedTransparent_run g cam tex c)),
        (result_eq _ _ _ _ (renderBlendedTransparent_run g cam tex c)).
      destruct (updateInternal_quiet g cam tex false c) as (_ & Ud & _).
      destruct (updateInternal_silent g cam tex false c) as (Ur & _).
      set (cU := final (updateInternal g cam tex false c)) in *.
      destruct (renderLoop_hidden
        (fun r => negb (opaque (state r)) && writeDepth (state r))
        "colorBlended" (renderables g) cU H) as (R1 & D1 & Rl1).
      set (L1 := renderLoop _ _ _ cU) in *.
      rewrite R1.
      destruct (renderLoop_hidden
        (fun r => negb (opaque (state r)) && negb (writeDepth (state r)))
        "colorBlended" (renderables g) (final L1) H) as (R2 & D2 & Rl2).
      rewrite !draws_app, !relinks_app, Ud, Ur, R2, D1, D2, Rl1, Rl2.
      unfold blendSetup. destruct (transparentBackground c);
        (split; [apply group_eta|split; reflexivity]).
    - rewrite (trace_eq _ _ _ _ (renderBlendedVolume_run g cam tex c)),
        (result_eq _ _ _ _ (renderBlendedVolume_run g cam tex c)).
      apply one_loop_hidden; [repeat split|repeat split|exact H].
    - rewrite (trace_eq _ _ _ _ (renderWboitOpaque_run g cam tex c)),
        (result_eq _ _ _ _ (renderWboitOpaque_run g cam tex c)).
      apply one_loop_hidden; [repeat split|repeat split|exact H].
    - rewrite (trace_eq _ _ _ _ (renderWboitTransparent_run g cam tex c)),
        (result_eq _ _ _ _ (renderWboitTransparent_run g cam tex c)).
      apply (one_loop_hidden [] g cam tex true);
        [repeat split|repeat split|exact H]. }
  destruct K as (K1 & K2 & K3).
  rewrite B, P, U, V, N, K1, K3. unfold drawnPrograms. rewrite K2.
  repeat split.
Qed.

(** The transparent pass over the hidden sample group. *)
Lemma hidden_group_inert_witness :
  let out := runPass blendedTransparent unseen sampleCamera None sampleRenderer in
  let t := trace out in
  result out = unseen
  /\ draws t = [] /\ relinks t = [] /\ binds t = [] /\ uploads t = []
  /\ viewports t = [viewport sampleRenderer]
  /\ currentProgramId (final out) = currentProgramId sampleRenderer
  /\ globalUniformsNeedUpdate (final out) = true.
Proof.
  apply (hidden_group_inert blendedTransparent unseen sampleCamera None
           sampleRenderer).
  intros r [<-|[<-|[]]]; reflexivity.
Defined.

(** ** Blending *)

Lemma blending_app t1 t2 : blending (t1 ++ t2) = blending t1 ++ blending t2.
Proof.
  induction t1 as [|e t1 IH]; [reflexivity|].
  destruct e as [[]|[]| | | | | | | | | | | | | | | |]; cbn [app blending];
    rewrite ?IH; reflexivity.
Qed.

Lemma renderObject_blending r variant c :
  blending (trace (renderObject r variant c)) = [].
Proof.
  destruct (passesVisibility r variant) eqn:V.
  - rewrite (trace_eq _ _ _ _ (renderObject_drawn r variant c V)).
    assert (D : blending (drawState (fragDepth c) (resolved c r) variant) = []).
    { unfold drawState.
      destruct (dRenderMode (values (resolved c r))) as [mode|].
      - destruct (String.eqb variant "colorBlended");
          [destruct (String.eqb mode "volume" || negb (fragDepth c))|];
          reflexivity.
      - destruct (dDoubleSided (values (resolved c r))) as [ds|];
          [destruct (ds || hasReflection (values (resolved c r)))|];
          destruct (dFlipSided (values (resolved c r))) as [[]|];
          reflexivity. }
    cbn [app blending]. rewrite !blending_app, D.
    destruct (snd (resolveClipDefines (Renderer.clip c) r));
      destruct (negb _); destruct (globalUniformsNeedUpdate c); reflexivity.
  - rewrite (renderObject_skipped r variant c V). reflexivity.
Qed.

Lemma renderLoop_blending cond variant rs : forall c,
  blending (trace (renderLoop cond variant rs c)) = [].
Proof.
  induction rs as [|r rs IH]; intros c; [reflexivity|].
  destruct (renderLoop_cons cond variant r rs c) as (_ & _ & E).
  rewrite E, blending_app, IH, app_nil_r.
  unfold turn. destruct (cond r); [apply renderObject_blending|reflexivity].
Qed.

Lemma first_draw_split t : t = beforeFirstDraw t ++ fromFirstDraw t.
Proof.
  induction t as [|e t IH]; [reflexivity|].
  destruct e; cbn [beforeFirstDraw fromFirstDraw app];
    try (rewrite <- IH); reflexivity.
Qed.

Lemma first_draw_after a : forall b,
  draws a = [] ->
  beforeFirstDraw (a ++ b) = a ++ beforeFirstDraw b
  /\ fromFirstDraw (a ++ b) = fromFirstDraw b.
Proof.
  induction a as [|e a IH]; intros b H; [split; reflexivity|].
  destruct e; cbn [draws app beforeFirstDraw fromFirstDraw] in *;
    try discriminate H;
    destruct (IH b H) as (B & F); rewrite B, F; split; reflexivity.
Qed.

(** Blending set in a stretch without draws, and not touched after it,
    is set before the first draw. *)
Lemma blending_before_draws t a rest expected :
  t = a ++ rest ->
  draws a = [] ->
  blending a = expected ->
  blending rest = [] ->
  blending (beforeFirstDraw t) = expected
  /\ blending (fromFirstDraw t) = []
  /\ blending t = expected.
Proof.
  intros -> Da Ba Br.
  destruct (first_draw_after a rest Da) as (B & F). rewrite B, F.
  pose proof (first_draw_split rest) as Sp.
  assert (Parts : blending (beforeFirstDraw rest) = []
                  /\ blending (fromFirstDraw rest) = []).
  { rewrite Sp, blending_app in Br. apply app_eq_nil in Br. exact Br. }
  destruct Parts as (P1 & P2).
  rewrite !blending_app, P1, P2, Ba, Br, app_nil_r. repeat split.
Qed.

(** The blending calls of each pass, all before its first draw. *)
Lemma blending_of_pass_placed pass g cam tex c :
  let t := trace (runPass pass g cam tex c) in
  let expected :=
    match pass with
    | pick _ | depth | blendedOpaque | wboitOpaque => [state_disable BLEND]
    | blendedVolume =>
        [state_blendFunc ONE ONE_MINUS_SRC_ALPHA; state_enable BLEND]
    | blendedTransparent =>
        [if transparentBackground c
         then state_blendFunc ONE ONE_MINUS_SRC_ALPHA
         else state_blendFuncSeparate SRC_ALPHA ONE_MINUS_SRC_ALPHA
                ONE ONE_MINUS_SRC_ALPHA;
         state_enable BLEND]
    | wboitTransparent => []
    end in
  blending (beforeFirstDraw t) = expected
  /\ blending (fromFirstDraw t) = []
  /\ blending t = expected.
Proof.
  cbv zeta.
  destruct (updateInternal_spec g cam tex false c) as (T & _).
  destruct (updateInternal_spec g cam tex true c) as (T' & _).
  destruct pass as [v| | | | | |]; cbn [runPass].
  - rewrite (trace_eq _ _ _ _ (renderPick_run g cam v tex c)), T.
    apply (blending_before_draws _
      ([state_disable BLEND; state_enable DEPTH_TEST; state_depthMask true]
       ++ [state_enable SCISSOR_TEST; state_colorMask true true true true;
           gl_viewport (viewport c); gl_scissor (viewport c)])
      (trace (renderLoop (fun r => negb (colorOnly (state r))) v
                (renderables g) (final (updateInternal g cam tex false c)))));
      [rewrite <- app_assoc; reflexivity|reflexivity|reflexivity
      |apply renderLoop_blending].
  - rewrite (trace_eq _ _ _ _ (renderDepth_run g cam tex c)), T.
    apply (blending_before_draws _
      ([state_disable BLEND; state_enable DEPTH_TEST; state_depthMask true]
       ++ [state_enable SCISSOR_TEST; state_colorMask true true true true;
           gl_viewport (viewport c); gl_scissor (viewport c)])
      (trace (renderLoop (fun _ => true) "depth"
                (renderables g) (final (updateInternal g cam tex false c)))));
      [rewrite <- app_assoc; reflexivity|reflexivity|reflexivity
      |apply renderLoop_blending].
  - rewrite (trace_eq _ _ _ _ (renderBlendedOpaque_run g cam tex c)), T.
    apply (blending_before_draws _
      ([state_disable BLEND; state_enable DEPTH_TEST; state_depthMask true]
       ++ [state_enable SCISSOR_TEST; state_colorMask true true true true;
           gl_viewport (viewport c); gl_scissor (viewport c)])
      (trace (renderLoop (fun r => opaque (state r)) "colorBlended"
                (renderables g) (final (updateInternal g cam tex false c)))));
      [rewrite <- app_assoc; reflexivity|reflexivity|reflexivity
      |apply renderLoop_blending].
  - rewrite (trace_eq _ _ _ _ (renderBlendedTransparent_run g cam tex c)), T.
    set (L1 := renderLoop _ "colorBlended" (renderables g) _).
    set (L2 := renderLoop _ "colorBlended" (result L1) (final L1)).
    apply (blending_before_draws _
      ([state_enable DEPTH_TEST]
       ++ [state_enable SCISSOR_TEST; state_colorMask true true true true;
           gl_viewport (viewport c); gl_scissor (viewport c)]
       ++ [blendSetup c; state_enable BLEND; state_depthMask true])
      (trace L1 ++ [state_depthMask false] ++ trace L2)).
    + rewrite <- !app_assoc. reflexivity.
    + unfold blendSetup. destruct (transparentBackground c); reflexivity.
    + unfold blendSetup. destruct (transparentBackground c); reflexivity.
    + unfold L1, L2. rewrite !blending_app, !renderLoop_blending. reflexivity.
  - rewrite (trace_eq _ _ _ _ (renderBlendedVolume_run g cam tex c)), T.
    apply (blending_before_draws _
      ([state_blendFunc ONE ONE_MINUS_SRC_ALPHA; state_enable BLEND]
       ++ [state_enable SCISSOR_TEST; state_colorMask true true true true;
           gl_viewport (viewport c); gl_scissor (viewport c)])
      (trace (renderLoop (fun _ => true) "colorBlended"
                (renderables g) (final (updateInternal g cam tex false c)))));
      [rewrite <- app_assoc; reflexivity|reflexivity|reflexivity
      |apply renderLoop_blending].
  - rewrite (trace_eq _ _ _ _ (renderWboitOpaque_run g cam tex c)), T.
    apply (blending_before_draws _
      ([state_disable BLEND; state_enable DEPTH_TEST; state_depthMask true]
       ++ [state_enable SCISSOR_TEST; state_colorMask true true true true;
           gl_viewport (viewport c); gl_scissor (viewport c)])
      (trace (renderLoop isWboitOpaque "colorWboit"
                (renderables g) (final (updateInternal g cam tex false c)))));
      [rewrite <- app_assoc; reflexivity|reflexivity|reflexivity
      |apply renderLoop_blending].
  - rewrite (trace_eq _ _ _ _ (renderWboitTransparent_run g cam tex c)), T'.
    apply (blending_before_draws _
      [state_enable SCISSOR_TEST; state_colorMask true true true true;
       gl_viewport (viewport c); gl_scissor (viewport c)]
      (trace (renderLoop isWboitTransparent "colorWboit"
                (renderables g) (final (updateInternal g cam tex true c)))));
      [reflexivity|reflexivity|reflexivity|apply renderLoop_blending].
Qed.

(** No draw of a drawable touches blending, and each pass sets it before
    its first draw and not after: up to the first draw call the pick,
    depth and opaque passes switch blending off, the volume pass switches
    it on with the premultiplied blend function, the order-independent
    transparent pass sets nothing and draws with the blending its caller
    set, and the blended transparent pass switches it on with the blend
    function of the background mode set last by
    [setTransparentBackground]: premultiplied for a transparent
    background, separate colour and alpha factors otherwise.  From the
    first draw call on no pass touches blending. *)
Theorem pass_blending : forall pass g cam tex c,
  let t := trace (runPass pass g cam tex c) in
  let expected :=
    match pass with
    | pick _ | depth | blendedOpaque | wboitOpaque => [state_disable BLEND]
    | blendedVolume =>
        [state_blendFunc ONE ONE_MINUS_SRC_ALPHA; state_enable BLEND]
    | blendedTransparent =>
        [if transparentBackground c
         then state_blendFunc ONE ONE_MINUS_SRC_ALPHA
         else state_blendFuncSeparate SRC_ALPHA ONE_MINUS_SRC_ALPHA
                ONE ONE_MINUS_SRC_ALPHA;
         state_enable BLEND]
    | wboitTransparent => []
    end in
  blending (beforeFirstDraw t) = expected
  /\ blending (fromFirstDraw t) = []
  /\ blending t = expected
  /\ forall b,
       let t' := trace (renderBlendedTransparent g cam tex
                          (final (setTransparentBackground b c))) in
       blending (beforeFirstDraw t') =
         [if b
          then state_blendFunc ONE ONE_MINUS_SRC_ALPHA
          else state_blendFuncSeparate SRC_ALPHA ONE_MINUS_SRC_ALPHA
                 ONE ONE_MINUS_SRC_ALPHA;
          state_enable BLEND]
       /\ blending (fromFirstDraw t') = []
       /\ blending t' = blending (beforeFirstDraw t').
Proof.
  intros pass g cam tex c. cbv zeta.
  destruct (blending_of_pass_placed pass g cam tex c) as (B & F & W).
  split; [exact B|]. split; [exact F|]. split; [exact W|].
  intros b.
  pose proof (blending_of_pass_placed blendedTransparent g cam tex
                (final (setTransparentBackground b c))) as P.
  cbv zeta in P. cbn [runPass] in P. destruct P as (B' & F' & W').
  assert (E : transparentBackground (final (setTransparentBackground b c)) = b)
    by (destruct c; reflexivity).
  rewrite E in B', W'. rewrite B', F', W'. repeat split.
Qed.

(** ** The draw pass: sizes kept together *)

Lemma new_sizesAgree ext wb w h e : sizesAgree (new ext wb w h e).
Proof.
  unfold sizesAgree, new, depthTexturePrimitives_size,
    depthTextureVolumes_size. cbv zeta.
  cbn [colorTarget depthPrimitives depthVolumes uTexSize wboit getWidth
       getHeight].
  destruct ext, e; cbn; repeat split.
Qed.

Lemma setSize_sizesAgree w h d :
  sizesAgree d -> sizesAgree (fst (setSize w h d)).
Proof.
  intros A. unfold setSize.
  destruct (negb (Z.eqb w (getWidth (colorTarget d)))
            || negb (Z.eqb h (getHeight (colorTarget d)))); [|exact A].
  cbn [fst]. unfold sizesAgree, depthTexturePrimitives_size,
    depthTextureVolumes_size in *. cbv zeta in *.
  cbn [colorTarget depthPrimitives depthVolumes uTexSize wboit
       RenderTarget_setSize getWidth getHeight ValueCell_update cell_value].
  unfold ValueCell_update. cbn [cell_value].
  destruct A as (_ & _ & _ & Aw).
  split; [destruct (depthPrimitives d); reflexivity|].
  split; [destruct (depthVolumes d); reflexivity|].
  split; [reflexivity|].
  destruct (wboit d) as [wb|]; [|exact I].
  destruct (enabled wb) eqn:E.
  - intros _. reflexivity.
  - rewrite E. discriminate.
Qed.

(** Every size a draw pass keeps follows the colour target, from the
    constructor on through any resizing: the two depth textures, whether
    they belong to targets or stand alone, the texture size given to the
    depth merge, and the size of the order-independent sub-pass when it
    is enabled. *)
Theorem constructed_sizesAgree : forall d, constructed d -> sizesAgree d.
Proof.
  induction 1 as [ext wb w h e|w h d _ IH].
  - apply new_sizesAgree.
  - apply setSize_sizesAgree. exact IH.
Qed.

(** A pass made at 800 by 600 with the sub-pass enabled, resized twice. *)
Lemma constructed_sizesAgree_witness :
  sizesAgree
    (fst (setSize 1024 768 (fst (setSize 640 480 (new true true 800 600 true))))).
Proof.
  apply constructed_sizesAgree. apply resized, resized, made.
Defined.

(** Resizing changes sizes only.  It never switches between packed depth
    and depth textures, never creates or drops an intermediate depth
    target, never enables, disables, creates or drops the
    order-independent sub-pass, and never resizes a sub-pass that is not
    enabled; the texture size of the depth merge is written exactly when
    the size changes. *)
Theorem setSize_changes_sizes_only : forall w h d,
  let d' := fst (setSize w h d) in
  let ops := snd (setSize w h d) in
  packedDepth d' = packedDepth d
  /\ (depthTargetPrimitives d' = None <-> depthTargetPrimitives d = None)
  /\ (depthTargetVolumes d' = None <-> depthTargetVolumes d = None)
  /\ wboitEnabled d' = wboitEnabled d
  /\ (wboitEnabled d = false ->
      wboit d' = wboit d /\ ~ In (wboit_setSize w h) ops)
  /\ cell_version (uTexSize d') =
       (if Z.eqb w (getWidth (colorTarget d))
           && Z.eqb h (getHeight (colorTarget d))
        then cell_version (uTexSize d)
        else S (cell_version (uTexSize d))).
Proof.
  intros w h d. cbv zeta. unfold setSize.
  destruct (Z.eqb w (getWidth (colorTarget d)));
    destruct (Z.eqb h (getHeight (colorTarget d))); cbn [negb orb andb fst snd].
  1: { repeat split; try (intros H; exact H). intros []. }
  all: cbn [packedDepth depthPrimitives depthVolumes wboit uTexSize];
    (split; [reflexivity|]);
    (split; [unfold depthTargetPrimitives;
             cbn [packedDepth depthPrimitives depthVolumes wboit uTexSize];
             destruct (depthPrimitives d); split; intros H;
               first [discriminate H|reflexivity]|]);
    (split; [unfold depthTargetVolumes;
             cbn [packedDepth depthPrimitives depthVolumes wboit uTexSize];
             destruct (depthVolumes d); split; intros H;
               first [discriminate H|reflexivity]|]);
    (split; [unfold wboitEnabled;
             cbn [packedDepth depthPrimitives depthVolumes wboit uTexSize];
             destruct (wboit d) as [wb|]; [destruct (enabled wb) eqn:E;
               cbn [enabled]; congruence|reflexivity]|]);
    (split; [|reflexivity]);
    intros E; rewrite E; unfold wboitEnabled in E;
    (split; [destruct (wboit d) as [wb|];
               [rewrite E; reflexivity|reflexivity]|]);
    destruct (depthPrimitives d), (depthVolumes d); cbn [app In];
    intros [K|[K|[K|[K|[]]]]]; discriminate K.
Qed.

(** ** The draw pass: cameras, targets and depth passes *)

Lemma updatedBeforeUse_app ops1 : forall current ops2,
  updatedBeforeUse current ops1 ->
  updatedBeforeUse (lastUpdated current ops1) ops2 ->
  updatedBeforeUse current (ops1 ++ ops2).
Proof.
  induction ops1 as [|op ops1 IH]; intros current ops2 H1 H2; [exact H2|].
  destruct op; cbn [app updatedBeforeUse lastUpdated renderCamera] in *;
    try (apply IH; assumption);
    (destruct H1 as (E & H1); split; [exact E|apply IH; assumption]).
Qed.

Lemma _renderBlended_camera d cam scene tdb :
  updatedBeforeUse (Some cam) (_renderBlended d cam scene tdb)
  /\ lastUpdated (Some cam) (_renderBlended d cam scene tdb) = Some cam.
Proof.
  unfold _renderBlended, _depthMerge, depthTargetPrimitives,
    depthTargetVolumes.
  destruct tdb, (packedDepth d), (depthPrimitives d), (depthVolumes d);
    cbn; repeat split.
Qed.

Lemma _renderWboit_camera d cam scene tdb :
  updatedBeforeUse (Some cam) (fst (_renderWboit d cam scene tdb))
  /\ lastUpdated (Some cam) (fst (_renderWboit d cam scene tdb)) = Some cam.
Proof.
  unfold _renderWboit, _depthMerge.
  destruct (wboit d) as [[[] ww wh]|]; cbn; repeat split.
Qed.

Lemma _render_camera d cam scene helper tdb current :
  updatedBeforeUse current (fst (_render d cam scene helper tdb)).
Proof.
  unfold _render. cbv zeta.
  assert (Tail : forall ops,
    updatedBeforeUse (Some cam) ops /\ lastUpdated (Some cam) ops = Some cam ->
    updatedBeforeUse (Some cam)
      (ops ++
       (if debug_isEnabled helper
        then [ helper_debug_syncVisibility;
               renderer_renderBlended (debug_scene helper) cam None ]
        else [])
       ++ (if handle_isEnabled helper
           then [ renderer_renderBlended (handle_scene helper) cam None ]
           else [])
       ++ (if camera_isEnabled helper
           then [ helper_camera_update cam;
                  renderer_update (camera_camera helper);
                  renderer_renderBlended (camera_scene helper)
                    (camera_camera helper) None ]
           else [])
       ++ [ webgl gl_flush ])).
  { intros ops (U & L). apply updatedBeforeUse_app; [exact U|]. rewrite L.
    destruct (debug_isEnabled helper), (handle_isEnabled helper),
      (camera_isEnabled helper); cbn; repeat split. }
  destruct (wboitEnabled d) eqn:E.
  - pose proof (_renderWboit_enabled d cam scene tdb E) as N.
    pose proof (_renderWboit_camera d cam scene tdb) as C.
    destruct (_renderWboit d cam scene tdb) as [ops err].
    cbn [snd] in N. subst err. cbn [fst] in C.
    unfold andThen, done. cbn [fst snd app updatedBeforeUse renderCamera].
    apply Tail. exact C.
  - unfold andThen, done. cbn [fst snd app updatedBeforeUse renderCamera].
    apply Tail. apply _renderBlended_camera.
Qed.

(** Every rendering call [render] makes on the renderer passes the camera
    of the latest [renderer.update] before it: the eye camera for the
    scene and the debug and handle overlays, the camera of the camera
    helper for its own overlay, which is updated just before; with a
    stereo camera the second eye starts with its own update. *)
Theorem render_uses_updated_camera : forall d camera scene helper tdb tb,
  updatedBeforeUse None (fst (render d camera scene helper tdb tb)).
Proof.
  intros d camera scene helper tdb tb. unfold render.
  destruct camera as [cam|cl cr].
  - unfold andThen, done.
    cbn [fst snd app updatedBeforeUse renderCamera].
    apply _render_camera.
  - unfold andThen, done. cbn [fst snd]. rewrite !_render_completes.
    cbn [fst snd app updatedBeforeUse renderCamera].
    apply updatedBeforeUse_app; apply _render_camera.
Qed.

Lemma bound_app ops1 ops2 : bound (ops1 ++ ops2) = bound ops1 ++ bound ops2.
Proof.
  induction ops1 as [|op ops1 IH]; [reflexivity|].
  destruct op; cbn [app bound]; rewrite ?IH; reflexivity.
Qed.

Lemma unbinds_app ops1 ops2 :
  unbinds (ops1 ++ ops2) = (unbinds ops1 + unbinds ops2)%nat.
Proof.
  induction ops1 as [|op ops1 IH]; [reflexivity|].
  destruct op; cbn [app unbinds]; rewrite ?IH; reflexivity.
Qed.

Ltac not_among :=
  let H := fresh "H" in
  intros H; repeat (destruct H as [H|H]; [discriminate H|]); exact H.

Lemma overlays_bind_nothing helper cam :
  let ops :=
    (if debug_isEnabled helper
     then [ helper_debug_syncVisibility;
            renderer_renderBlended (debug_scene helper) cam None ]
     else [])
    ++ (if handle_isEnabled helper
        then [ renderer_renderBlended (handle_scene helper) cam None ]
        else [])
    ++ (if camera_isEnabled helper
        then [ helper_camera_update cam;
               renderer_update (camera_camera helper);
               renderer_renderBlended (camera_scene helper)
                 (camera_camera helper) None ]
        else [])
    ++ [ webgl gl_flush ] in
  bound ops = [] /\ unbinds ops = 0%nat.
Proof.
  cbv zeta.
  destruct (debug_isEnabled helper), (handle_isEnabled helper),
    (camera_isEnabled helper); split; reflexivity.
Qed.

(** Where one eye is rendered.  Off screen the drawing buffer is never
    bound and the framebuffer never unbound, and the colour target is the
    one bound when the scene is done, so the overlays, which bind
    nothing, are drawn into it.  To the drawing buffer the colour target
    and the intermediate depth targets are never bound: the
    order-independent path ends with the drawing buffer bound, the
    blended path binds nothing and unbinds the framebuffer once. *)
Theorem render_targets_one_eye : forall d cam scene helper tdb,
  let ops := fst (_render d cam scene helper tdb) in
  if tdb
  then ~ In T_colorTarget (bound ops)
       /\ ~ In T_depthTargetPrimitives (bound ops)
       /\ ~ In T_depthTargetVolumes (bound ops)
       /\ (if wboitEnabled d
           then last (bound ops) T_colorTarget = T_drawTarget
                /\ unbinds ops = 0%nat
           else bound ops = [] /\ unbinds ops = 1%nat)
  else ~ In T_drawTarget (bound ops)
       /\ unbinds ops = 0%nat
       /\ last (bound ops) T_drawTarget = T_colorTarget.
Proof.
  intros d cam scene helper tdb. cbv zeta. unfold _render. cbv zeta.
  destruct (overlays_bind_nothing helper cam) as (Ob & Ou).
  destruct (wboitEnabled d) eqn:E.
  - pose proof (_renderWboit_enabled d cam scene tdb E) as N.
    assert (W : exists ww wh, wboit d = Some (mkWboit true ww wh)).
    { unfold wboitEnabled in E. destruct (wboit d) as [[[] ww wh]|];
        try discriminate E. exists ww, wh. reflexivity. }
    destruct W as (ww & wh & W).
    unfold andThen, done. cbn [fst snd]. rewrite N.
    cbn [fst snd app bound unbinds].
    rewrite bound_app, unbinds_app, Ob, Ou, app_nil_r, Nat.add_0_r.
    unfold _renderWboit, _depthMerge. rewrite W.
    destruct tdb; cbn [done fst app bound unbinds last In].
    + repeat split; not_among.
    + repeat split. not_among.
  - unfold andThen, done. cbn [fst snd app bound unbinds].
    rewrite bound_app, unbinds_app, Ob, Ou, app_nil_r, Nat.add_0_r.
    unfold _renderBlended, _depthMerge, depthTargetPrimitives,
      depthTargetVolumes.
    destruct tdb.
    + cbn [negb app bound unbinds In]. repeat split; intros [].
    + destruct (packedDepth d), (depthPrimitives d), (depthVolumes d);
        cbn [negb app bound unbinds last In];
        (split; [not_among|]);
        split; reflexivity.
Qed.

Lemma constructed_targetsAgree d : constructed d -> targetsAgree d.
Proof.
  induction 1 as [ext wb w h e|w h d _ IH].
  - apply new_targetsAgree.
  - apply setSize_targetsAgree. exact IH.
Qed.

(** Depth-only passes are the price of packed depth.  Off screen the
    blended path renders depth separately, the primitives and then the
    volumes, exactly when the device has no depth textures, and merges
    depth once either way; the order-independent path never renders a
    depth-only pass and merges depth once, on screen or off. *)
Theorem depth_passes_under_packed_depth : forall d cam scene tdb,
  constructed d ->
  depthPasses (_renderBlended d cam scene false) =
    (if packedDepth d then [primitives scene; volumes scene] else [])
  /\ depthMerges (_renderBlended d cam scene false) = 1%nat
  /\ (wboitEnabled d = true ->
      depthPasses (fst (_renderWboit d cam scene tdb)) = []
      /\ depthMerges (fst (_renderWboit d cam scene tdb)) = 1%nat).
Proof.
  intros d cam scene tdb C.
  pose proof (constructed_targetsAgree d C) as A.
  unfold targetsAgree in A. cbv zeta in A. destruct A as (_ & A).
  unfold _renderBlended, _renderWboit, _depthMerge, depthTargetPrimitives,
    depthTargetVolumes, wboitEnabled in *.
  split; [|split].
  - destruct (packedDepth d).
    + destruct A as ((tp & -> & _) & (tv & -> & _)). reflexivity.
    + destruct A as (Ap & Av).
      destruct (depthPrimitives d); [discriminate Ap|].
      destruct (depthVolumes d); [discriminate Av|]. reflexivity.
  - destruct (packedDepth d), (depthPrimitives d), (depthVolumes d);
      reflexivity.
  - intros E. destruct (wboit d) as [[[] ww wh]|]; try discriminate E.
    split; reflexivity.
Qed.

(** On a device without depth textures the sample pass renders depth
    twice. *)
Lemma depth_passes_under_packed_depth_witness :
  depthPasses (_renderBlended (new false true 800 600 false) sampleCamera
                 (mkScene mixed interleaved) false)
  = [mixed; interleaved].
Proof.
  apply (proj1 (depth_passes_under_packed_depth
                  (new false true 800 600 false) sampleCamera
                  (mkScene mixed interleaved) false
                  (made false true 800 600 false))).
Defined.
